(** * RAT vertex-animation codec ([rat_handler.c]): a shallow embedding

    The development follows [Assets/CEngine/src/rat_handler.c] and
    [rat_handler.h]: the bitstream helpers [get_bits] and [sign_extend], the
    two container parsers [load_rat_animation] and [load_rat_mesh_data], the
    frame reconstructor [decompress_frame] and the model life cycle
    ([rat_model_create_from_chunk], [rat_model_update],
    [rat_model_get_chunk_frame_count]).

    Conventions.
    - A [uintN_t] value is a [Z] in [0, 2^N); every wrap-around of the C
      arithmetic is written out with [wrap].
    - An operation whose behaviour the C standard leaves undefined (a read or
      a write outside an object, a shift by at least the width of the
      operand, signed overflow, a float-to-integer conversion whose integral
      part does not fit) yields [Undefined] with the kind of fault; nothing
      is assumed about what a particular compiler does there.
    - A parser that prints a diagnostic and returns [NULL] yields [Rejected]
      with the diagnostic's kind.
    - [float] is IEEE-754 binary32 with round-to-nearest-even, computed by
      the Standard Library's [SpecFloat] at precision 24.  NaN payloads are
      not represented.
    - Multi-byte fields are little-endian, as the format prescribes.
    - [int] has 32 bits and [size_t] 64.
    - [malloc] and [calloc] are taken to succeed. *)

From Stdlib Require Import ZArith Lia Bool.
From Stdlib Require Import SpecFloat.
From stdpp Require Import base option list.

Local Open Scope Z_scope.

(** ** Outcomes of a C computation *)

Inductive fault : Type :=
| OutOfBounds    (* access outside an array or buffer *)
| ShiftCount     (* shift by a count >= the operand width *)
| IntOverflow    (* overflow of a signed [int] addition *)
| FloatToInt     (* float to integer conversion out of range *)
| NullDeref      (* dereference of a null pointer *)
| NoExit.        (* a loop whose exit test can never fail *)

Inductive FormatError : Type :=
| Unreadable     (* [file_read_into_buffer] returned NULL *)
| Truncated      (* "File ... is smaller than ...Header." *)
| BadMagic.      (* "Invalid ... magic number in ..." *)

Inductive res (A : Type) : Type :=
| Ok (a : A)
| Rejected (e : FormatError)
| Undefined (u : fault).

Arguments Ok {A} a.
Arguments Rejected {A} e.
Arguments Undefined {A} u.

#[global] Instance res_ret : MRet res := fun A a => Ok a.
#[global] Instance res_bind : MBind res := fun A B f m =>
  match m with
  | Ok a => f a
  | Rejected e => Rejected e
  | Undefined u => Undefined u
  end.

(** ** Machine integers *)

Definition wrap (bits x : Z) : Z := x mod 2 ^ bits.

Definition UINT32_MAX : Z := 4294967295.
Definition INT_MIN : Z := -2147483648.
Definition INT_MAX : Z := 2147483647.

(** [(int32_t)x] for an [uint32_t] [x]. *)
Definition to_int32 (x : Z) : Z := if x <? 2 ^ 31 then x else x - 2 ^ 32.

(** [x << n] and [x >> n] on [uint32_t]; the count has type [int] after
    promotion. *)
Definition shl32 (x n : Z) : res Z :=
  if (0 <=? n) && (n <? 32) then Ok (wrap 32 (Z.shiftl x n))
  else Undefined ShiftCount.

Definition shr32 (x n : Z) : res Z :=
  if (0 <=? n) && (n <? 32) then Ok (Z.shiftr x n)
  else Undefined ShiftCount.

(** [a[i]] as an rvalue. *)
Definition load {A} (a : list A) (i : Z) : res A :=
  if i <? 0 then Undefined OutOfBounds
  else match a !! Z.to_nat i with
       | Some x => Ok x
       | None => Undefined OutOfBounds
       end.

(** [a[i] = x]. *)
Definition store {A} (a : list A) (i : Z) (x : A) : res (list A) :=
  if (0 <=? i) && (i <? Z.of_nat (length a)) then Ok (<[Z.to_nat i := x]> a)
  else Undefined OutOfBounds.

(** ** Bitstream helpers *)

(** [get_bits(data, &bit_offset, num_bits)]: the value read and the new
    [*bit_offset]. *)
Definition get_bits (data : list Z) (bit_offset num_bits : Z) : res (Z * Z) :=
  if num_bits =? 0 then Ok (0, bit_offset)
  else
    let start_offset := bit_offset in
    let word_index := wrap 32 (start_offset / 32) in
    let bit_index := wrap 32 (start_offset mod 32) in
    value ←
      (if bit_index + num_bits <=? 32 then
         w ← load data word_index;
         lo ← shr32 w bit_index;
         m ← shl32 1 num_bits;
         Ok (Z.land lo (wrap 32 (m - 1)))
       else
         w ← load data word_index;
         part1 ← shr32 w bit_index;
         let part1_len := wrap 8 (32 - bit_index) in
         let part2_len := wrap 8 (num_bits - part1_len) in
         w' ← load data (wrap 32 (word_index + 1));
         m ← shl32 1 part2_len;
         let part2 := Z.land w' (wrap 32 (m - 1)) in
         hi ← shl32 part2 part1_len;
         Ok (Z.lor part1 hi));
    Ok (value, wrap 64 (bit_offset + num_bits)).

Definition sign_extend (value num_bits : Z) : res Z :=
  if num_bits =? 0 then Ok 0
  else
    sign_bit ← shl32 1 (num_bits - 1);
    if negb (Z.land value sign_bit =? 0) then
      ones ← shl32 UINT32_MAX num_bits;
      Ok (to_int32 (Z.lor value ones))
    else Ok (to_int32 value).

(** ** Binary32 arithmetic *)

Definition float : Type := spec_float.

Definition f32_add : float -> float -> float := SFadd 24 128.
Definition f32_sub : float -> float -> float := SFsub 24 128.
Definition f32_mul : float -> float -> float := SFmul 24 128.
Definition f32_div : float -> float -> float := SFdiv 24 128.

(** Conversion of an integer to [float]. *)
Definition f32_of_Z (n : Z) : float := binary_normalize 24 128 n 0 false.

(** The object with the bit pattern [b] read as a [float]. *)
Definition f32_of_bits (b : Z) : float :=
  let s := Z.testbit b 31 in
  let e := Z.land (Z.shiftr b 23) 255 in
  let m := Z.land b (2 ^ 23 - 1) in
  if e =? 255 then (if m =? 0 then S754_infinity s else S754_nan)
  else if e =? 0 then
    match m with Zpos p => S754_finite s p (-149) | _ => S754_zero s end
  else
    match m + 2 ^ 23 with Zpos p => S754_finite s p (e - 150) | _ => S754_nan end.

(** The integral part of a float, towards zero; none for NaN and the
    infinities. *)
Definition f32_trunc (f : float) : option Z :=
  match f with
  | S754_zero _ => Some 0
  | S754_finite s m e =>
      let mag := if 0 <=? e then Z.shiftl (Zpos m) e else Z.shiftr (Zpos m) (- e) in
      Some (if s then - mag else mag)
  | S754_infinity _ | S754_nan => None
  end.

(** [(uint8_t)f]. *)
Definition f32_to_u8 (f : float) : res Z :=
  match f32_trunc f with
  | Some n => if (0 <=? n) && (n <=? 255) then Ok n else Undefined FloatToInt
  | None => Undefined FloatToInt
  end.

Definition f32_is_zero (f : float) : bool :=
  match f with S754_zero _ => true | _ => false end.

(** ** Data structures of [rat_handler.h] *)

Record VertexU8 : Type := { u8_x : Z; u8_y : Z; u8_z : Z }.
Record Vector3 : Type := { v3_x : float; v3_y : float; v3_z : float }.
Record VertexUV : Type := { uv_u : float; uv_v : float }.
Record VertexColor : Type :=
  { col_r : float; col_g : float; col_b : float; col_a : float }.

Definition set_u8_x (q : Z) (p : VertexU8) := {| u8_x := q; u8_y := u8_y p; u8_z := u8_z p |}.
Definition set_u8_y (q : Z) (p : VertexU8) := {| u8_x := u8_x p; u8_y := q; u8_z := u8_z p |}.
Definition set_u8_z (q : Z) (p : VertexU8) := {| u8_x := u8_x p; u8_y := u8_y p; u8_z := q |}.
Definition set_v3_x (q : float) (p : Vector3) := {| v3_x := q; v3_y := v3_y p; v3_z := v3_z p |}.
Definition set_v3_y (q : float) (p : Vector3) := {| v3_x := v3_x p; v3_y := q; v3_z := v3_z p |}.
Definition set_v3_z (q : float) (p : Vector3) := {| v3_x := v3_x p; v3_y := v3_y p; v3_z := q |}.

(** A C string held in a [char] array: the bytes of the array.  A pointer
    that is NULL is the empty array. *)
Record RatAnimation : Type := {
  num_vertices : Z;
  num_frames : Z;
  min_x : float; min_y : float; min_z : float;
  max_x : float; max_y : float; max_z : float;
  first_frame_quantized : list VertexU8;
  first_frame_raw : list Vector3;
  is_first_frame_raw : bool;
  bit_widths_x : list Z;
  bit_widths_y : list Z;
  bit_widths_z : list Z;
  delta_stream : list Z;
  delta_stream_word_count : Z;
  mesh_data_filename : list Z
}.

Record RatMeshData : Type := {
  mesh_num_vertices : Z;
  mesh_num_indices : Z;
  uvs : list VertexUV;
  colors : list VertexColor;
  indices : list Z;
  texture_filename : list Z
}.

Record RatModel : Type := {
  animation : option RatAnimation;
  mesh_data : option RatMeshData;
  decompressed_vertices_u8 : list VertexU8;
  current_frame_vertices : list Vector3;
  current_frame : Z;
  texture_id : Z;
  is_valid : bool
}.

(** ** Loops and element updates *)

(** [for (uint32_t i = i0; <n more iterations>; ++i) body]. *)
Fixpoint for_loop {St} (n : nat) (i : Z) (body : Z -> St -> res St) (s : St) : res St :=
  match n with
  | O => Ok s
  | S n' => s' ← body i s; for_loop n' (i + 1) body s'
  end.

(** [a[i].field = ...], as an update of the element. *)
Definition upd {A} (a : list A) (i : Z) (f : A -> A) : res (list A) :=
  p ← load a i; store a i (f p).

(** [memcpy(dst, src, sizeof(T) * n)] on arrays of [T]. *)
Definition memcpy_elems {A} (dst src : list A) (n : Z) : res (list A) :=
  if (n <=? Z.of_nat (length src)) && (n <=? Z.of_nat (length dst))
  then Ok (take (Z.to_nat n) src ++ drop (Z.to_nat n) dst)
  else Undefined OutOfBounds.

(** ** Frame reconstruction *)

Definition f255 : float := f32_of_Z 255.

(** [(uint8_t)(255.0f * (raw - min) / (max - min))]. *)
Definition quantize (raw mn mx : float) : res Z :=
  f32_to_u8 (f32_div (f32_mul f255 (f32_sub raw mn)) (f32_sub mx mn)).

Definition quantize_vertex (anim : RatAnimation) (i : Z) (prev_frame : list VertexU8)
  : res (list VertexU8) :=
  r ← load (first_frame_raw anim) i;
  qx ← quantize (v3_x r) (min_x anim) (max_x anim);
  prev_frame ← upd prev_frame i (set_u8_x qx);
  qy ← quantize (v3_y r) (min_y anim) (max_y anim);
  prev_frame ← upd prev_frame i (set_u8_y qy);
  qz ← quantize (v3_z r) (min_z anim) (max_z anim);
  upd prev_frame i (set_u8_z qz).

(** Frame 0 written into [prev_frame]; the source has this block once in
    each branch of [decompress_frame]. *)
Definition seed_frame0 (anim : RatAnimation) (prev_frame : list VertexU8)
  : res (list VertexU8) :=
  if is_first_frame_raw anim then
    for_loop (Z.to_nat (num_vertices anim)) 0 (quantize_vertex anim) prev_frame
  else
    memcpy_elems prev_frame (first_frame_quantized anim) (num_vertices anim).

(** [c += d] for [uint8_t c] and [int32_t d]: the sum is computed in [int]
    and converted back. *)
Definition add_assign_u8 (c d : Z) : res Z :=
  let s := c + d in
  if (INT_MIN <=? s) && (s <=? INT_MAX) then Ok (wrap 8 s)
  else Undefined IntOverflow.

(** Body of the inner loop: vertex [i] of one frame.  The state is
    [prev_frame] and [bit_offset]. *)
Definition apply_vertex_deltas (anim : RatAnimation) (i : Z)
    (st : list VertexU8 * Z) : res (list VertexU8 * Z) :=
  let '(prev_frame, bit_offset) := st in
  wx ← load (bit_widths_x anim) i;
  '(bx, bit_offset) ← get_bits (delta_stream anim) bit_offset wx;
  dx ← sign_extend bx wx;
  wy ← load (bit_widths_y anim) i;
  '(by_, bit_offset) ← get_bits (delta_stream anim) bit_offset wy;
  dy ← sign_extend by_ wy;
  wz ← load (bit_widths_z anim) i;
  '(bz, bit_offset) ← get_bits (delta_stream anim) bit_offset wz;
  dz ← sign_extend bz wz;
  p ← load prev_frame i;
  cx ← add_assign_u8 (u8_x p) dx;
  prev_frame ← store prev_frame i (set_u8_x cx p);
  p ← load prev_frame i;
  cy ← add_assign_u8 (u8_y p) dy;
  prev_frame ← store prev_frame i (set_u8_y cy p);
  p ← load prev_frame i;
  cz ← add_assign_u8 (u8_z p) dz;
  prev_frame ← store prev_frame i (set_u8_z cz p);
  Ok (prev_frame, bit_offset).

(** One frame's worth of deltas: the inner loop over the vertices. *)
Definition apply_frame_deltas (anim : RatAnimation)
    (st : list VertexU8 * Z) : res (list VertexU8 * Z) :=
  for_loop (Z.to_nat (num_vertices anim)) 0 (apply_vertex_deltas anim) st.

(** The quantized part of [decompress_frame]: [prev_frame] when the final
    de-quantization loop is reached, with the bit cursor. *)
Definition decompress_u8 (anim : RatAnimation) (prev_frame : list VertexU8)
    (frame_index : Z) : res (list VertexU8 * Z) :=
  if frame_index =? 0 then
    prev_frame ← seed_frame0 anim prev_frame;
    Ok (prev_frame, 0)
  else
    prev_frame ← seed_frame0 anim prev_frame;
    let bit_offset := 0 in
    if frame_index =? UINT32_MAX then Undefined NoExit
    else
      for_loop (Z.to_nat frame_index) 1
        (fun _ st => apply_frame_deltas anim st) (prev_frame, bit_offset).

(** [min + (q / 255.0f) * range]. *)
Definition dequantize (q : Z) (mn range : float) : float :=
  f32_add mn (f32_mul (f32_div (f32_of_Z q) f255) range).

Definition dequantize_vertex (anim : RatAnimation) (prev_frame : list VertexU8)
    (range_x range_y range_z : float) (i : Z) (cur : list Vector3)
  : res (list Vector3) :=
  p ← load prev_frame i;
  cur ← upd cur i (set_v3_x (dequantize (u8_x p) (min_x anim) range_x));
  p ← load prev_frame i;
  cur ← upd cur i (set_v3_y (dequantize (u8_y p) (min_y anim) range_y));
  p ← load prev_frame i;
  upd cur i (set_v3_z (dequantize (u8_z p) (min_z anim) range_z)).

Definition decompress_frame (model : RatModel) (frame_index : Z) : res RatModel :=
  match animation model with
  | None => Undefined NullDeref
  | Some anim =>
      '(prev_frame, _) ← decompress_u8 anim (decompressed_vertices_u8 model) frame_index;
      let range_x := f32_sub (max_x anim) (min_x anim) in
      let range_y := f32_sub (max_y anim) (min_y anim) in
      let range_z := f32_sub (max_z anim) (min_z anim) in
      cur ← for_loop (Z.to_nat (num_vertices anim)) 0
              (dequantize_vertex anim prev_frame range_x range_y range_z)
              (current_frame_vertices model);
      Ok {| animation := animation model;
            mesh_data := mesh_data model;
            decompressed_vertices_u8 := prev_frame;
            current_frame_vertices := cur;
            current_frame := current_frame model;
            texture_id := texture_id model;
            is_valid := is_valid model |}
  end.

(** ** Model life cycle *)

Definition rat_model_get_chunk_frame_count (model : option RatModel) : Z :=
  match model with
  | None => 0
  | Some m =>
      match animation m with
      | None => 0
      | Some anim => if num_vertices anim =? 0 then 0 else num_frames anim
      end
  end.

Definition set_current_frame (m : RatModel) (f : Z) : RatModel :=
  {| animation := animation m;
     mesh_data := mesh_data m;
     decompressed_vertices_u8 := decompressed_vertices_u8 m;
     current_frame_vertices := current_frame_vertices m;
     current_frame := f;
     texture_id := texture_id m;
     is_valid := is_valid m |}.

(** [rat_model_update(model, local_frame)]: the model afterwards. *)
Definition rat_model_update (model : option RatModel) (local_frame : Z)
  : res (option RatModel) :=
  match model with
  | None => Ok None
  | Some m =>
      if negb (is_valid m) || (local_frame =? current_frame m) then Ok (Some m)
      else
        let frame_count := rat_model_get_chunk_frame_count (Some m) in
        let local_frame :=
          if frame_count <=? local_frame
          then (if 0 <? frame_count then frame_count - 1 else 0)
          else local_frame in
        m' ← decompress_frame m local_frame;
        Ok (Some (set_current_frame m' local_frame))
  end.

(** ** Byte buffers *)

Definition RAT3_MAGIC : Z := 0x33544152.
Definition RATM_MAGIC : Z := 0x4D544152.

Definition sizeof_RatHeader : Z := 64.
Definition sizeof_RatMeshHeader : Z := 48.
Definition sizeof_filename_field : Z := 256.

(** The little-endian value of a byte sequence. *)
Definition le_value (bs : list Z) : Z := foldr (fun b acc => b + 256 * acc) 0 bs.

(** The [n] bytes at [buffer + off]; [memcpy] reads exactly these. *)
Definition read_bytes (buffer : list Z) (off n : Z) : res (list Z) :=
  if n =? 0 then Ok []
  else if (0 <=? off) && (off + n <=? Z.of_nat (length buffer))
  then Ok (take (Z.to_nat n) (drop (Z.to_nat off) buffer))
  else Undefined OutOfBounds.

(** A [uint32_t] or [float] field of a header laid over the buffer. *)
Definition field32 (buffer : list Z) (off : Z) : res Z :=
  bs ← read_bytes buffer off 4; Ok (le_value bs).

Definition field8 (buffer : list Z) (off : Z) : res Z := load buffer off.

(** [n] consecutive elements of [k] bytes each. *)
Fixpoint decode_array {A} (k : nat) (dec : list Z -> A) (n : nat) (bs : list Z) : list A :=
  match n with
  | O => []
  | S n' => dec (take k bs) :: decode_array k dec n' (drop k bs)
  end.

Definition decode_VertexU8 (bs : list Z) : VertexU8 :=
  {| u8_x := nth 0 bs 0; u8_y := nth 1 bs 0; u8_z := nth 2 bs 0 |}.

Definition decode_float (bs : list Z) : float := f32_of_bits (le_value bs).

Definition decode_Vector3 (bs : list Z) : Vector3 :=
  {| v3_x := decode_float (take 4 bs);
     v3_y := decode_float (take 4 (drop 4 bs));
     v3_z := decode_float (take 4 (drop 8 bs)) |}.

Definition decode_VertexUV (bs : list Z) : VertexUV :=
  {| uv_u := decode_float (take 4 bs);
     uv_v := decode_float (take 4 (drop 4 bs)) |}.

Definition decode_VertexColor (bs : list Z) : VertexColor :=
  {| col_r := decode_float (take 4 bs);
     col_g := decode_float (take 4 (drop 4 bs));
     col_b := decode_float (take 4 (drop 8 bs));
     col_a := decode_float (take 4 (drop 12 bs)) |}.

(** [memset]-like tail of [strncpy]: [n] NUL bytes from [dest + d]. *)
Fixpoint strncpy_pad (dest : list Z) (d : Z) (n : nat) : res (list Z) :=
  match n with
  | O => Ok dest
  | S n' => dest ← store dest d 0; strncpy_pad dest (d + 1) n'
  end.

(** [strncpy(dest + d, src + s, n)]: bytes are copied up to and including
    the first NUL, and the rest of the [n] bytes is filled with NUL. *)
Fixpoint strncpy (dest src : list Z) (d s : Z) (n : nat) : res (list Z) :=
  match n with
  | O => Ok dest
  | S n' =>
      c ← load src s;
      dest ← store dest d c;
      if c =? 0 then strncpy_pad dest (d + 1) n'
      else strncpy dest src (d + 1) (s + 1) n'
  end.

(** The C string held in a [char] array: the bytes before the first NUL. *)
Fixpoint c_string (a : list Z) : list Z :=
  match a with
  | [] => []
  | c :: t => if c =? 0 then [] else c :: c_string t
  end.

(** [strncpy(field, buffer + off, len); field[len] = '\0';] on a zeroed
    256-byte field. *)
Definition copy_filename (buffer : list Z) (off len : Z) : res (list Z) :=
  field ← strncpy (replicate (Z.to_nat sizeof_filename_field) 0) buffer 0 off (Z.to_nat len);
  store field len 0.

(** ** Format parsers *)

(** [file_read_into_buffer] comes from [utils.h]; the files it can read are
    a parameter, a path being the bytes of a C string. *)
Definition filesystem : Type := list Z -> option (list Z).

Definition parse_rat_animation (buffer : list Z) : res RatAnimation :=
  let buffer_size := Z.of_nat (length buffer) in
  if buffer_size <? sizeof_RatHeader then Rejected Truncated
  else
    magic ← field32 buffer 0;
    if negb (magic =? RAT3_MAGIC) then Rejected BadMagic
    else
      h_num_vertices ← field32 buffer 4;
      h_num_frames ← field32 buffer 8;
      h_min_x ← field32 buffer 32;
      h_min_y ← field32 buffer 36;
      h_min_z ← field32 buffer 40;
      h_max_x ← field32 buffer 44;
      h_max_y ← field32 buffer 48;
      h_max_z ← field32 buffer 52;
      h_is_first_frame_raw ← field8 buffer 56;
      let raw := negb (h_is_first_frame_raw =? 0) in
      (* mesh data filename *)
      h_filename_offset ← field32 buffer 24;
      h_filename_length ← field32 buffer 28;
      filename ← copy_filename buffer h_filename_offset h_filename_length;
      (* first frame data *)
      h_raw_first_frame_offset ← field32 buffer 60;
      first ←
        (if raw then
           bs ← read_bytes buffer h_raw_first_frame_offset (12 * h_num_vertices);
           Ok ([], decode_array 12 decode_Vector3 (Z.to_nat h_num_vertices) bs)
         else
           bs ← read_bytes buffer sizeof_RatHeader (3 * h_num_vertices);
           Ok (decode_array 3 decode_VertexU8 (Z.to_nat h_num_vertices) bs, []));
      (* bit widths *)
      let bw_size := h_num_vertices in
      h_bit_widths_offset ← field32 buffer 20;
      bwx ← read_bytes buffer h_bit_widths_offset bw_size;
      bwy ← read_bytes buffer (h_bit_widths_offset + bw_size) bw_size;
      bwz ← read_bytes buffer (h_bit_widths_offset + 2 * bw_size) bw_size;
      (* delta stream *)
      h_delta_offset ← field32 buffer 16;
      let delta_stream_byte_size := wrap 32 (wrap 64 (buffer_size - h_delta_offset)) in
      let word_count := delta_stream_byte_size / 4 in
      ds ← read_bytes buffer h_delta_offset delta_stream_byte_size;
      Ok {| num_vertices := h_num_vertices;
            num_frames := h_num_frames;
            min_x := f32_of_bits h_min_x;
            min_y := f32_of_bits h_min_y;
            min_z := f32_of_bits h_min_z;
            max_x := f32_of_bits h_max_x;
            max_y := f32_of_bits h_max_y;
            max_z := f32_of_bits h_max_z;
            first_frame_quantized := fst first;
            first_frame_raw := snd first;
            is_first_frame_raw := raw;
            bit_widths_x := bwx;
            bit_widths_y := bwy;
            bit_widths_z := bwz;
            delta_stream := decode_array 4 le_value (Z.to_nat word_count) ds;
            delta_stream_word_count := word_count;
            mesh_data_filename := filename |}.

Definition load_rat_animation (fs : filesystem) (path : list Z) : res RatAnimation :=
  match fs path with
  | None => Rejected Unreadable
  | Some buffer => parse_rat_animation buffer
  end.

Definition parse_rat_mesh_data (buffer : list Z) : res RatMeshData :=
  let buffer_size := Z.of_nat (length buffer) in
  if buffer_size <? sizeof_RatMeshHeader then Rejected Truncated
  else
    magic ← field32 buffer 0;
    if negb (magic =? RATM_MAGIC) then Rejected BadMagic
    else
      h_num_vertices ← field32 buffer 4;
      h_num_indices ← field32 buffer 8;
      (* UVs *)
      h_uv_offset ← field32 buffer 12;
      uv ← read_bytes buffer h_uv_offset (8 * h_num_vertices);
      (* colors *)
      h_color_offset ← field32 buffer 16;
      col ← read_bytes buffer h_color_offset (16 * h_num_vertices);
      (* indices *)
      h_indices_offset ← field32 buffer 20;
      idx ← read_bytes buffer h_indices_offset (2 * h_num_indices);
      (* texture filename *)
      h_filename_offset ← field32 buffer 24;
      h_filename_length ← field32 buffer 28;
      filename ← copy_filename buffer h_filename_offset h_filename_length;
      Ok {| mesh_num_vertices := h_num_vertices;
            mesh_num_indices := h_num_indices;
            uvs := decode_array 8 decode_VertexUV (Z.to_nat h_num_vertices) uv;
            colors := decode_array 16 decode_VertexColor (Z.to_nat h_num_vertices) col;
            indices := decode_array 2 le_value (Z.to_nat h_num_indices) idx;
            texture_filename := filename |}.

(** [snprintf(full_path, 512, "%s%s", base_dir, filename)] keeps at most 511
    characters. *)
Definition load_rat_mesh_data (fs : filesystem) (filename base_dir : list Z)
  : res RatMeshData :=
  let full_path := take 511 (base_dir ++ filename) in
  match fs full_path with
  | None => Rejected Unreadable
  | Some buffer => parse_rat_mesh_data buffer
  end.

(** The part of a path up to and including its last ['/'], if it has one. *)
Fixpoint through_last_slash (p : list Z) : option (list Z) :=
  match p with
  | [] => None
  | c :: t =>
      match through_last_slash t with
      | Some d => Some (c :: d)
      | None => if c =? 47 then Some [c] else None
      end
  end.

(** [strncpy(base_dir, path, 256)] leaves [base_dir] without a terminator
    when the path has 256 characters or more, and [strrchr] then runs off
    the array. *)
Definition base_dir_of (path : list Z) : res (list Z) :=
  if sizeof_filename_field <=? Z.of_nat (length path) then Undefined OutOfBounds
  else Ok (default [] (through_last_slash path)).

(** [rat_model_create_from_chunk]; [Rejected] is the NULL result.  The two
    [malloc]ed vertex buffers start with arbitrary contents, given by
    [heap_u8] and [heap_v3]. *)
Definition rat_model_create_from_chunk (fs : filesystem)
    (heap_u8 : nat -> VertexU8) (heap_v3 : nat -> Vector3)
    (rat_chunk_path : list Z) (tex : Z) : res RatModel :=
  anim ← load_rat_animation fs rat_chunk_path;
  base_dir ← base_dir_of rat_chunk_path;
  mesh ← load_rat_mesh_data fs (c_string (mesh_data_filename anim)) base_dir;
  let n := Z.to_nat (num_vertices anim) in
  let model :=
    {| animation := Some anim;
       mesh_data := Some mesh;
       decompressed_vertices_u8 := heap_u8 <$> seq 0 n;
       current_frame_vertices := heap_v3 <$> seq 0 n;
       current_frame := UINT32_MAX;
       texture_id := tex;
       is_valid := true |} in
  updated ← rat_model_update (Some model) 0;
  match updated with
  | Some m => Ok m
  | None => Undefined NullDeref
  end.

(** ** The reconstruction as the format describes it

    These definitions follow the description of the format (a base frame,
    then per frame and per vertex three signed deltas taken from one bit
    cursor) rather than the loops of [decompress_frame]; the theorems below
    compare the two. *)

(** One signed delta taken through the bitstream reader. *)
Definition read_delta (words : list Z) (cursor width : Z) : res (Z * Z) :=
  '(field, cursor) ← get_bits words cursor width;
  d ← sign_extend field width;
  Ok (d, cursor).

(** Eight-bit modular addition; no clamping. *)
Definition wrapping_add_u8 (c d : Z) : Z := (c + d) mod 256.

Definition add_deltas (p : VertexU8) (dx dy dz : Z) : VertexU8 :=
  {| u8_x := wrapping_add_u8 (u8_x p) dx;
     u8_y := wrapping_add_u8 (u8_y p) dy;
     u8_z := wrapping_add_u8 (u8_z p) dz |}.

(** The deltas of one frame applied to the vertices in index order. *)
Fixpoint replay_frame (words wx wy wz : list Z) (verts : list VertexU8)
    (cursor : Z) {struct verts} : res (list VertexU8 * Z) :=
  match verts with
  | [] => Ok ([], cursor)
  | v :: verts' =>
      match wx, wy, wz with
      | bx :: wx', by_ :: wy', bz :: wz' =>
          '(dx, cursor) ← read_delta words cursor bx;
          '(dy, cursor) ← read_delta words cursor by_;
          '(dz, cursor) ← read_delta words cursor bz;
          '(rest, cursor) ← replay_frame words wx' wy' wz' verts' cursor;
          Ok (add_deltas v dx dy dz :: rest, cursor)
      | _, _, _ => Undefined OutOfBounds
      end
  end.

(** [n] frames in succession, the cursor running on. *)
Fixpoint replay_frames (n : nat) (words wx wy wz : list Z)
    (verts : list VertexU8) (cursor : Z) : res (list VertexU8 * Z) :=
  match n with
  | O => Ok (verts, cursor)
  | S n' =>
      '(verts, cursor) ← replay_frame words wx wy wz verts cursor;
      replay_frames n' words wx wy wz verts cursor
  end.

Definition quantize_Vector3 (anim : RatAnimation) (r : Vector3) : res VertexU8 :=
  qx ← quantize (v3_x r) (min_x anim) (max_x anim);
  qy ← quantize (v3_y r) (min_y anim) (max_y anim);
  qz ← quantize (v3_z r) (min_z anim) (max_z anim);
  Ok {| u8_x := qx; u8_y := qy; u8_z := qz |}.

(** The first [n] raw vertices quantized. *)
Fixpoint quantize_first (anim : RatAnimation) (n : nat) (raw : list Vector3)
  : res (list VertexU8) :=
  match n with
  | O => Ok []
  | S n' =>
      match raw with
      | [] => Undefined OutOfBounds
      | r :: raw' =>
          q ← quantize_Vector3 anim r;
          qs ← quantize_first anim n' raw';
          Ok (q :: qs)
      end
  end.

(** The first [n] elements of an array that has them. *)
Definition first_n {A} (n : nat) (a : list A) : res (list A) :=
  if decide (n ≤ length a)%nat then Ok (take n a) else Undefined OutOfBounds.

(** Frame 0: the pre-quantized vertices as they are, or the raw vertices
    quantized. *)
Definition base_frame (anim : RatAnimation) : res (list VertexU8) :=
  let n := Z.to_nat (num_vertices anim) in
  if is_first_frame_raw anim then quantize_first anim n (first_frame_raw anim)
  else first_n n (first_frame_quantized anim).

(** Frame [f] by replay from frame 0 with the cursor starting at 0. *)
Definition replay_from_base (anim : RatAnimation) (f : Z) : res (list VertexU8 * Z) :=
  base ← base_frame anim;
  replay_frames (Z.to_nat f) (delta_stream anim)
    (bit_widths_x anim) (bit_widths_y anim) (bit_widths_z anim) base 0.

(** A quantized vertex mapped back to float space with the bounds of the
    chunk. *)
Definition dequantize_VertexU8 (anim : RatAnimation) (p : VertexU8) : Vector3 :=
  {| v3_x := dequantize (u8_x p) (min_x anim) (f32_sub (max_x anim) (min_x anim));
     v3_y := dequantize (u8_y p) (min_y anim) (f32_sub (max_y anim) (min_y anim));
     v3_z := dequantize (u8_z p) (min_z anim) (f32_sub (max_z anim) (min_z anim)) |}.

(** Bit [p] of the packed stream: bit 0 is the least significant bit of
    word 0. *)
Definition stream_bit (data : list Z) (p : Z) : bool :=
  Z.testbit (default 0 (data !! Z.to_nat (p / 32))) (p mod 32).

(** The bits one frame takes from the stream. *)
Definition vertex_bits (anim : RatAnimation) (i : nat) : Z :=
  default 0 (bit_widths_x anim !! i) + default 0 (bit_widths_y anim !! i)
  + default 0 (bit_widths_z anim !! i).

Fixpoint sum_upto (n : nat) (f : nat -> Z) : Z :=
  match n with
  | O => 0
  | S n' => sum_upto n' f + f n'
  end.

Definition frame_bits (anim : RatAnimation) : Z :=
  sum_upto (Z.to_nat (num_vertices anim)) (vertex_bits anim).

(** The 32-bit header field at byte offset [off] of a file. *)
Definition header_u32 (buffer : list Z) (off : Z) : Z :=
  le_value (take 4 (drop (Z.to_nat off) buffer)).

(** ** Well-formed chunks *)

Definition u8_range (c : Z) : Prop := 0 ≤ c ≤ 255.

Definition VertexU8_ok (v : VertexU8) : Prop :=
  u8_range (u8_x v) ∧ u8_range (u8_y v) ∧ u8_range (u8_z v).

(** The invariant of the format for a chunk whose widths stay below the
    word size: the arrays have one entry per vertex, every word and width
    is in range, frame 0 can be formed, and the stream holds the bits of
    [num_frames - 1] frames. *)
Record anim_wf (anim : RatAnimation) : Prop := {
  wf_num_vertices : 0 ≤ num_vertices anim ≤ UINT32_MAX;
  wf_num_frames : 0 ≤ num_frames anim ≤ UINT32_MAX;
  wf_widths_x : length (bit_widths_x anim) = Z.to_nat (num_vertices anim);
  wf_widths_y : length (bit_widths_y anim) = Z.to_nat (num_vertices anim);
  wf_widths_z : length (bit_widths_z anim) = Z.to_nat (num_vertices anim);
  wf_width_x_range : Forall (fun w => 0 ≤ w ≤ 31) (bit_widths_x anim);
  wf_width_y_range : Forall (fun w => 0 ≤ w ≤ 31) (bit_widths_y anim);
  wf_width_z_range : Forall (fun w => 0 ≤ w ≤ 31) (bit_widths_z anim);
  wf_words : Forall (fun w => 0 ≤ w < 2 ^ 32) (delta_stream anim);
  wf_word_count : Z.of_nat (length (delta_stream anim)) ≤ UINT32_MAX;
  wf_base : exists base, base_frame anim = Ok base ∧ Forall VertexU8_ok base;
  wf_stream : (num_frames anim - 1) * frame_bits anim
              ≤ 32 * Z.of_nat (length (delta_stream anim))
}.

(** ** Models obtained through the public interface *)

Inductive reachable : RatModel -> Prop :=
| reach_create fs heap_u8 heap_v3 path tex m :
    rat_model_create_from_chunk fs heap_u8 heap_v3 path tex = Ok m ->
    reachable m
| reach_update m local_frame m' :
    reachable m ->
    rat_model_update (Some m) local_frame = Ok (Some m') ->
    reachable m'.

(** The frame a request at or past the end is clamped to. *)
Definition last_frame (frame_count : Z) : Z :=
  if 0 <? frame_count then frame_count - 1 else 0.

Definition res_map {A B} (f : A -> B) (m : res A) : res B :=
  a ← m; Ok (f a).

Definition set_frame_output (m : RatModel) (prev_frame : list VertexU8)
    (cur : list Vector3) : RatModel :=
  {| animation := animation m;
     mesh_data := mesh_data m;
     decompressed_vertices_u8 := prev_frame;
     current_frame_vertices := cur;
     current_frame := current_frame m;
     texture_id := texture_id m;
     is_valid := is_valid m |}.

(** What every model handed out by the interface satisfies: it is valid,
    its buffers have one element per vertex, its frame index is a clamped
    one, and its buffers hold that frame. *)
Definition model_inv (m : RatModel) : Prop :=
  is_valid m = true
  ∧ exists anim,
      animation m = Some anim
      ∧ length (decompressed_vertices_u8 m) = Z.to_nat (num_vertices anim)
      ∧ length (current_frame_vertices m) = Z.to_nat (num_vertices anim)
      ∧ (current_frame m < rat_model_get_chunk_frame_count (Some m)
         ∨ current_frame m = last_frame (rat_model_get_chunk_frame_count (Some m)))
      ∧ decompress_frame m (current_frame m) = Ok m.

(** The two vertex buffers of a model. *)
Definition frame_output (m : RatModel) : list VertexU8 * list Vector3 :=
  (decompressed_vertices_u8 m, current_frame_vertices m).

(** A model as [rat_model_create_from_chunk] allocates it, with given
    contents of the two vertex buffers. *)
Definition model_with (anim : RatAnimation) (mesh : option RatMeshData)
    (scratch_u8 : list VertexU8) (scratch_v3 : list Vector3) (frame tex : Z) : RatModel :=
  {| animation := Some anim;
     mesh_data := mesh;
     decompressed_vertices_u8 := scratch_u8;
     current_frame_vertices := scratch_v3;
     current_frame := frame;
     texture_id := tex;
     is_valid := true |}.

(** ** Sample files

    A chunk of two vertices and two frames with a pre-quantized base frame
    [(0,0,0)], [(10,10,10)], bounds [0..255] on every axis and four bits per
    delta; the single frame transition adds [(+1,+1,+1)] to vertex 0 and
    [(-1,-1,-1)] to vertex 1. *)

Fixpoint le_bytes (k : nat) (n : Z) : list Z :=
  match k with
  | O => []
  | S k' => n mod 256 :: le_bytes k' (n / 256)
  end.

Definition u32_bytes : Z -> list Z := le_bytes 4.

(** ["m.ratmesh"] *)
Definition sample_mesh_name : list Z := [109; 46; 114; 97; 116; 109; 101; 115; 104].

(** ["a/c.rat"] *)
Definition sample_chunk_path : list Z := [97; 47; 99; 46; 114; 97; 116].

Definition sample_header (name_offset name_length : Z) : list Z :=
  u32_bytes RAT3_MAGIC ++ u32_bytes 2 ++ u32_bytes 2 ++ u32_bytes 0
  ++ u32_bytes 88 ++ u32_bytes 70 ++ u32_bytes name_offset ++ u32_bytes name_length
  ++ u32_bytes 0 ++ u32_bytes 0 ++ u32_bytes 0
  ++ u32_bytes 0x437F0000 ++ u32_bytes 0x437F0000 ++ u32_bytes 0x437F0000
  ++ [0; 0; 0; 0] ++ u32_bytes 0.

Definition sample_body : list Z :=
  [0; 0; 0; 10; 10; 10] ++ [4; 4; 4; 4; 4; 4] ++ sample_mesh_name ++ [0; 0; 0]
  ++ u32_bytes 0x00FFF111.

Definition sample_rat_file : list Z := sample_header 76 9 ++ sample_body.

Definition sample_mesh_file : list Z :=
  u32_bytes RATM_MAGIC ++ u32_bytes 2 ++ u32_bytes 3
  ++ u32_bytes 48 ++ u32_bytes 64 ++ u32_bytes 96 ++ u32_bytes 102 ++ u32_bytes 5
  ++ replicate 16 0
  ++ replicate 16 0 ++ replicate 32 0 ++ [0; 0; 1; 0; 0; 0]
  ++ [116; 46; 112; 110; 103].

Definition sample_fs : filesystem := fun path =>
  if decide (path = sample_chunk_path) then Some sample_rat_file
  else if decide (path = [97; 47] ++ sample_mesh_name) then Some sample_mesh_file
  else None.

Definition sample_anim : RatAnimation :=
  {| num_vertices := 2;
     num_frames := 2;
     min_x := S754_zero false; min_y := S754_zero false; min_z := S754_zero false;
     max_x := f255; max_y := f255; max_z := f255;
     first_frame_quantized :=
       [ {| u8_x := 0; u8_y := 0; u8_z := 0 |};
         {| u8_x := 10; u8_y := 10; u8_z := 10 |} ];
     first_frame_raw := [];
     is_first_frame_raw := false;
     bit_widths_x := [4; 4];
     bit_widths_y := [4; 4];
     bit_widths_z := [4; 4];
     delta_stream := [0x00FFF111];
     delta_stream_word_count := 1;
     mesh_data_filename := sample_mesh_name ++ replicate 247 0 |}.

(** Arbitrary prior contents of the two vertex buffers. *)
Definition junk_u8 : nat -> VertexU8 := fun k =>
  {| u8_x := 7; u8_y := Z.of_nat k; u8_z := 200 |}.
Definition junk_v3 : nat -> Vector3 := fun _ =>
  {| v3_x := S754_nan; v3_y := S754_infinity true; v3_z := f255 |}.
Definition other_u8 : nat -> VertexU8 := fun _ =>
  {| u8_x := 1; u8_y := 2; u8_z := 3 |}.
Definition other_v3 : nat -> Vector3 := fun _ =>
  {| v3_x := S754_zero true; v3_y := S754_zero false; v3_z := S754_nan |}.

Definition sample_model (heap_u8 : nat -> VertexU8) (heap_v3 : nat -> Vector3)
  : RatModel :=
  model_with sample_anim None (heap_u8 <$> seq 0 2) (heap_v3 <$> seq 0 2) UINT32_MAX 0.

(** A chunk whose three-bit deltas for a single vertex run across the
    boundary between the two words of its stream, over three frames. *)
Definition straddle_anim : RatAnimation :=
  {| num_vertices := 1;
     num_frames := 5;
     min_x := S754_zero false; min_y := S754_zero false; min_z := S754_zero false;
     max_x := f255; max_y := f255; max_z := f255;
     first_frame_quantized := [ {| u8_x := 250; u8_y := 3; u8_z := 128 |} ];
     first_frame_raw := [];
     is_first_frame_raw := false;
     bit_widths_x := [5];
     bit_widths_y := [0];
     bit_widths_z := [7];
     delta_stream := [0x9ABCDEF7; 0x0001F35C];
     delta_stream_word_count := 2;
     mesh_data_filename := replicate 256 0 |}.

(** A model whose animation has frames on record but no vertices. *)
Definition no_vertex_anim : RatAnimation :=
  {| num_vertices := 0;
     num_frames := 5;
     min_x := S754_zero false; min_y := S754_zero false; min_z := S754_zero false;
     max_x := f255; max_y := f255; max_z := f255;
     first_frame_quantized := [];
     first_frame_raw := [];
     is_first_frame_raw := false;
     bit_widths_x := [];
     bit_widths_y := [];
     bit_widths_z := [];
     delta_stream := [];
     delta_stream_word_count := 0;
     mesh_data_filename := replicate 256 0 |}.

Definition no_vertex_model : RatModel := model_with no_vertex_anim None [] [] 0 0.

(** The sample chunk with a mesh filename of 256 bytes, all present in the
    file after the delta stream. *)
Definition long_name_rat_file : list Z :=
  sample_header 92 256 ++ sample_body ++ replicate 256 65.

(** The sample chunk with its nine-byte mesh filename declared at the very
    end of the file. *)
Definition name_past_end_rat_file : list Z := sample_header 92 9 ++ sample_body.

(** The sample mesh file with a texture filename of 300 bytes, all present
    in the file. *)
Definition long_name_mesh_file : list Z :=
  u32_bytes RATM_MAGIC ++ u32_bytes 2 ++ u32_bytes 3
  ++ u32_bytes 48 ++ u32_bytes 64 ++ u32_bytes 96 ++ u32_bytes 102 ++ u32_bytes 300
  ++ replicate 16 0
  ++ replicate 16 0 ++ replicate 32 0 ++ [0; 0; 1; 0; 0; 0]
  ++ replicate 300 116.

(** A one-vertex chunk with a raw base frame whose bounding box is flat on
    the x axis: [min_x = max_x = 0]. *)
Definition flat_anim : RatAnimation :=
  {| num_vertices := 1;
     num_frames := 1;
     min_x := S754_zero false; min_y := S754_zero false; min_z := S754_zero false;
     max_x := S754_zero false; max_y := f255; max_z := f255;
     first_frame_quantized := [];
     first_frame_raw :=
       [ {| v3_x := S754_zero false; v3_y := f32_of_Z 10; v3_z := f32_of_Z 20 |} ];
     is_first_frame_raw := true;
     bit_widths_x := [0];
     bit_widths_y := [0];
     bit_widths_z := [0];
     delta_stream := [];
     delta_stream_word_count := 0;
     mesh_data_filename := replicate 256 0 |}.

Definition flat_model : RatModel :=
  model_with flat_anim None (junk_u8 <$> seq 0 1) (junk_v3 <$> seq 0 1) UINT32_MAX 0.

(** A one-vertex chunk whose only frame transition takes x from 250 up by 9
    and y from 3 down by 9, with five-bit deltas. *)
Definition wrap_anim : RatAnimation :=
  {| num_vertices := 1;
     num_frames := 2;
     min_x := S754_zero false; min_y := S754_zero false; min_z := S754_zero false;
     max_x := f255; max_y := f255; max_z := f255;
     first_frame_quantized := [ {| u8_x := 250; u8_y := 3; u8_z := 0 |} ];
     first_frame_raw := [];
     is_first_frame_raw := false;
     bit_widths_x := [5];
     bit_widths_y := [5];
     bit_widths_z := [0];
     delta_stream := [0x2E9];
     delta_stream_word_count := 1;
     mesh_data_filename := replicate 256 0 |}.

(** ** Further definitions of the interface and of the format *)

(** [rat_model_is_valid]: [model && model->is_valid]. *)
Definition rat_model_is_valid (model : option RatModel) : bool :=
  match model with
  | None => false
  | Some m => is_valid m
  end.

(** The frame index [rat_model_update] passes to [decompress_frame]. *)
Definition clamp_frame (frame_count local_frame : Z) : Z :=
  if frame_count <=? local_frame then last_frame frame_count else local_frame.

(** A byte as it comes out of a file. *)
Definition is_byte (b : Z) : Prop := 0 ≤ b ≤ 255.


(** A one-vertex chunk of nine frames on record with zero-width deltas and
    no delta stream at all. *)
Definition static_anim : RatAnimation :=
  {| num_vertices := 1;
     num_frames := 9;
     min_x := S754_zero false; min_y := S754_zero false; min_z := S754_zero false;
     max_x := f255; max_y := f255; max_z := f255;
     first_frame_quantized := [ {| u8_x := 12; u8_y := 34; u8_z := 56 |} ];
     first_frame_raw := [];
     is_first_frame_raw := false;
     bit_widths_x := [0];
     bit_widths_y := [0];
     bit_widths_z := [0];
     delta_stream := [];
     delta_stream_word_count := 0;
     mesh_data_filename := replicate 256 0 |}.

(** The sample chunk with a bounding box that is flat on the x axis at
    [x = 255]. *)
Definition flat_quantized_anim : RatAnimation :=
  {| num_vertices := 2;
     num_frames := 2;
     min_x := f255; min_y := S754_zero false; min_z := S754_zero false;
     max_x := f255; max_y := f255; max_z := f255;
     first_frame_quantized :=
       [ {| u8_x := 0; u8_y := 0; u8_z := 0 |};
         {| u8_x := 10; u8_y := 10; u8_z := 10 |} ];
     first_frame_raw := [];
     is_first_frame_raw := false;
     bit_widths_x := [4; 4];
     bit_widths_y := [4; 4];
     bit_widths_z := [4; 4];
     delta_stream := [0x00FFF111];
     delta_stream_word_count := 1;
     mesh_data_filename := replicate 256 0 |}.

(** The sample chunk with its delta stream declared 8 bytes past the end of
    the file. *)
Definition delta_past_end_rat_file : list Z :=
  u32_bytes RAT3_MAGIC ++ u32_bytes 2 ++ u32_bytes 2 ++ u32_bytes 0
  ++ u32_bytes 100 ++ u32_bytes 70 ++ u32_bytes 76 ++ u32_bytes 9
  ++ u32_bytes 0 ++ u32_bytes 0 ++ u32_bytes 0
  ++ u32_bytes 0x437F0000 ++ u32_bytes 0x437F0000 ++ u32_bytes 0x437F0000
  ++ [0; 0; 0; 0] ++ u32_bytes 0
  ++ sample_body.

Definition f32_finite_or_zero (f : float) : bool :=
  match f with
  | S754_zero _ | S754_finite _ _ _ => true
  | S754_infinity _ | S754_nan => false
  end.

(** The model a seek leaves behind when it reconstructs frame [frame] into
    the quantized vertices [vs]. *)
Definition model_at (m : RatModel) (anim : RatAnimation) (vs : list VertexU8)
    (frame : Z) : RatModel :=
  set_current_frame (set_frame_output m vs (dequantize_VertexU8 anim <$> vs)) frame.

(** The chunk [anim] with another delta stream. *)
Definition with_delta_stream (anim : RatAnimation) (words : list Z) : RatAnimation :=
  {| num_vertices := num_vertices anim;
     num_frames := num_frames anim;
     min_x := min_x anim; min_y := min_y anim; min_z := min_z anim;
     max_x := max_x anim; max_y := max_y anim; max_z := max_z anim;
     first_frame_quantized := first_frame_quantized anim;
     first_frame_raw := first_frame_raw anim;
     is_first_frame_raw := is_first_frame_raw anim;
     bit_widths_x := bit_widths_x anim;
     bit_widths_y := bit_widths_y anim;
     bit_widths_z := bit_widths_z anim;
     delta_stream := words;
     delta_stream_word_count := Z.of_nat (length words);
     mesh_data_filename := mesh_data_filename anim |}.

(** The three deltas of one vertex, read from bit [pos] on. *)
Definition read_vertex_deltas (words : list Z) (pos wx wy wz : Z) : res (Z * Z * Z) :=
  '(dx, pos) ← read_delta words pos wx;
  '(dy, pos) ← read_delta words pos wy;
  '(dz, _) ← read_delta words pos wz;
  Ok (dx, dy, dz).

(** Where the deltas that take vertex [i] from frame [f] to frame [f + 1]
    start in the stream. *)
Definition delta_position (anim : RatAnimation) (f : Z) (i : nat) : Z :=
  f * frame_bits anim + sum_upto i (vertex_bits anim).

(** * Properties *)

(** ** The outcome monad *)

Lemma bind_Ok {A B} (m : res A) (f : A -> res B) (b : B) :
  m ≫= f = Ok b -> exists a, m = Ok a ∧ f a = Ok b.
Proof. destruct m as [a| |]; cbn; intros H; try discriminate; eauto. Qed.

Lemma bind_assoc {A B C} (m : res A) (f : A -> res B) (g : B -> res C) :
  (m ≫= f) ≫= g = m ≫= (fun a => f a ≫= g).
Proof. destruct m; reflexivity. Qed.

Lemma bind_ext {A B} (m : res A) (f g : A -> res B) :
  (forall a, m = Ok a -> f a = g a) -> m ≫= f = m ≫= g.
Proof. destruct m; cbn; auto. Qed.

(** ** Arrays *)

Lemma load_Ok {A} (a : list A) (i : nat) (x : A) :
  a !! i = Some x -> load a (Z.of_nat i) = Ok x.
Proof.
  intros H. unfold load.
  destruct (Z.ltb_spec (Z.of_nat i) 0); [lia|].
  rewrite Nat2Z.id, H. reflexivity.
Qed.

Lemma load_inv {A} (a : list A) (i : Z) (x : A) :
  load a i = Ok x -> 0 ≤ i ∧ a !! Z.to_nat i = Some x.
Proof.
  unfold load. destruct (Z.ltb_spec i 0); [discriminate|].
  destruct (a !! Z.to_nat i) eqn:E; [|discriminate].
  intros [= ->]. auto.
Qed.

Lemma store_Ok {A} (a : list A) (i : nat) (x : A) :
  (i < length a)%nat -> store a (Z.of_nat i) x = Ok (<[i := x]> a).
Proof.
  intros H. unfold store.
  destruct (Z.leb_spec 0 (Z.of_nat i)); [|lia].
  destruct (Z.ltb_spec (Z.of_nat i) (Z.of_nat (length a))); [|lia].
  cbn. rewrite Nat2Z.id. reflexivity.
Qed.

Lemma store_inv {A} (a : list A) (i : Z) (x : A) (a' : list A) :
  store a i x = Ok a' ->
  0 ≤ i ∧ (Z.to_nat i < length a)%nat ∧ a' = <[Z.to_nat i := x]> a.
Proof.
  unfold store.
  destruct (Z.leb_spec 0 i); cbn; [|discriminate].
  destruct (Z.ltb_spec i (Z.of_nat (length a))); [|discriminate].
  intros [= <-]. repeat split; auto; lia.
Qed.

Lemma load_Ok_Z {A} (a : list A) (i : Z) (x : A) :
  0 ≤ i -> a !! Z.to_nat i = Some x -> load a i = Ok x.
Proof.
  intros Hi H. rewrite <- (Z2Nat.id i) by assumption. apply load_Ok. assumption.
Qed.

Lemma store_Ok_Z {A} (a : list A) (i : Z) (x : A) :
  0 ≤ i < Z.of_nat (length a) -> store a i x = Ok (<[Z.to_nat i := x]> a).
Proof.
  intros Hi. rewrite <- (Z2Nat.id i) at 1 by lia. apply store_Ok. lia.
Qed.

(** ** Shifts *)

Lemma shl32_Ok (x n : Z) : 0 ≤ n < 32 -> shl32 x n = Ok (wrap 32 (Z.shiftl x n)).
Proof.
  intros H. unfold shl32.
  destruct (Z.leb_spec 0 n); [|lia]. destruct (Z.ltb_spec n 32); [|lia]. reflexivity.
Qed.

Lemma shr32_Ok (x n : Z) : 0 ≤ n < 32 -> shr32 x n = Ok (Z.shiftr x n).
Proof.
  intros H. unfold shr32.
  destruct (Z.leb_spec 0 n); [|lia]. destruct (Z.ltb_spec n 32); [|lia]. reflexivity.
Qed.

Lemma wrap_small (bits x : Z) : 0 ≤ x < 2 ^ bits -> wrap bits x = x.
Proof. intros H. unfold wrap. apply Z.mod_small; assumption. Qed.

Lemma mask_ones (n : Z) : 0 ≤ n < 32 -> wrap 32 (wrap 32 (Z.shiftl 1 n) - 1) = Z.ones n.
Proof.
  intros H. rewrite Z.shiftl_1_l.
  assert (2 ^ n < 2 ^ 32) by (apply Z.pow_lt_mono_r; lia).
  assert (0 < 2 ^ n) by (apply Z.pow_pos_nonneg; lia).
  rewrite (wrap_small 32 (2 ^ n)) by lia.
  rewrite wrap_small by lia.
  rewrite Z.ones_equiv. lia.
Qed.

(** ** [get_bits] away from the 32-bit aligned case *)

Lemma stream_bit_same_word (data : list Z) (off j : Z) (w : Z) :
  0 ≤ off -> 0 ≤ j -> off mod 32 + j < 32 ->
  data !! Z.to_nat (off / 32) = Some w ->
  stream_bit data (off + j) = Z.testbit w (off mod 32 + j).
Proof.
  intros Hoff Hj Hlt Hw. unfold stream_bit.
  assert (Hq : (off + j) / 32 = off / 32).
  { symmetry. apply (Z.div_unique _ _ _ (off mod 32 + j)).
    - left. pose proof (Z.mod_pos_bound off 32). lia.
    - rewrite (Z.div_mod off 32) at 1 by lia. lia. }
  assert (Hr : (off + j) mod 32 = off mod 32 + j).
  { symmetry. apply (Z.mod_unique _ _ (off / 32)).
    - left. pose proof (Z.mod_pos_bound off 32). lia.
    - rewrite (Z.div_mod off 32) at 1 by lia. lia. }
  rewrite Hq, Hr, Hw. reflexivity.
Qed.

Lemma stream_bit_next_word (data : list Z) (off j : Z) (w : Z) :
  0 ≤ off -> 0 ≤ j -> 32 ≤ off mod 32 + j < 64 ->
  data !! Z.to_nat (off / 32 + 1) = Some w ->
  stream_bit data (off + j) = Z.testbit w (off mod 32 + j - 32).
Proof.
  intros Hoff Hj Hlt Hw. unfold stream_bit.
  assert (Hq : (off + j) / 32 = off / 32 + 1).
  { symmetry. apply (Z.div_unique _ _ _ (off mod 32 + j - 32)).
    - left. lia.
    - rewrite (Z.div_mod off 32) at 1 by lia. lia. }
  assert (Hr : (off + j) mod 32 = off mod 32 + j - 32).
  { symmetry. apply (Z.mod_unique _ _ (off / 32 + 1)).
    - left. lia.
    - rewrite (Z.div_mod off 32) at 1 by lia. lia. }
  rewrite Hq, Hr, Hw. reflexivity.
Qed.

Lemma bits_bound (v w : Z) :
  0 ≤ w -> 0 ≤ v ->
  (forall j, w ≤ j -> Z.testbit v j = false) -> v < 2 ^ w.
Proof.
  intros Hw Hv Hhigh.
  destruct (Z.eq_dec v 0) as [->|Hne]; [apply Z.pow_pos_nonneg; lia|].
  apply Z.log2_lt_pow2; [lia|].
  destruct (Z.lt_ge_cases (Z.log2 v) w) as [|Hge]; [assumption|].
  pose proof (Z.bit_log2 v ltac:(lia)) as Hb.
  rewrite (Hhigh _ Hge) in Hb. discriminate.
Qed.

Lemma testbit_word_high (w j : Z) :
  0 ≤ w < 2 ^ 32 -> 32 ≤ j -> Z.testbit w j = false.
Proof.
  intros Hw Hj.
  destruct (Z.eq_dec w 0) as [->|Hne]; [apply Z.bits_0|].
  apply Z.bits_above_log2; [lia|].
  assert (Z.log2 w < 32) by (apply Z.log2_lt_pow2; lia). lia.
Qed.

(** For every in-range read other than a 32-bit read at a word boundary,
    [get_bits] returns the field of the stream and advances the cursor by
    the width. *)
Lemma get_bits_field (data : list Z) (off w : Z) :
  Forall (fun x => 0 ≤ x < 2 ^ 32) data ->
  Z.of_nat (length data) ≤ UINT32_MAX ->
  0 ≤ off -> 0 ≤ w ≤ 32 ->
  off + w ≤ 32 * Z.of_nat (length data) ->
  ¬ (w = 32 ∧ off mod 32 = 0) ->
  exists v,
    get_bits data off w = Ok (v, off + w)
    ∧ 0 ≤ v < 2 ^ w
    ∧ forall j, 0 ≤ j < w -> Z.testbit v j = stream_bit data (off + j).
Proof.
  intros Hwords Hlen Hoff Hw Hfit Hnot.
  unfold get_bits, UINT32_MAX in *.
  destruct (Z.eqb_spec w 0) as [->|Hw0].
  { exists 0. rewrite Z.add_0_r. split; [reflexivity|]. split; [cbn; lia|]. intros; lia. }
  pose proof (Z.mod_pos_bound off 32 ltac:(lia)) as Hbi.
  pose proof (Z.div_mod off 32 ltac:(lia)) as Hdm.
  assert (Hwi : 0 ≤ off / 32 < Z.of_nat (length data)).
  { split; [apply Z.div_pos; lia|]. apply Z.div_lt_upper_bound; lia. }
  rewrite (wrap_small 32 (off / 32)) by lia.
  rewrite (wrap_small 32 (off mod 32)) by lia.
  rewrite (wrap_small 64 (off + w)) by lia.
  destruct (lookup_lt_is_Some_2 data (Z.to_nat (off / 32)) ltac:(lia)) as [w0 Hw0e].
  assert (Hw0r : 0 ≤ w0 < 2 ^ 32).
  { eapply (proj1 (Forall_lookup _ _) Hwords); eassumption. }
  assert (Hld0 : load data (off / 32) = Ok w0).
  { rewrite <- (Z2Nat.id (off / 32)) by lia. apply load_Ok; assumption. }
  rewrite Hld0. cbn [mbind res_bind].
  rewrite shr32_Ok by lia. cbn [mbind res_bind].
  destruct (Z.leb_spec (off mod 32 + w) 32) as [Hone|Htwo].
  - (* the field lies in one word *)
    assert (w < 32) by lia.
    rewrite shl32_Ok by lia. cbn [mbind res_bind].
    rewrite mask_ones by lia. rewrite Z.land_ones by lia.
    eexists. split; [reflexivity|]. split.
    + apply Z.mod_pos_bound. apply Z.pow_pos_nonneg; lia.
    + intros j Hj. rewrite Z.mod_pow2_bits_low by lia.
      rewrite Z.shiftr_spec by lia.
      rewrite (stream_bit_same_word data off j w0) by (assumption || lia).
      f_equal. lia.
  - (* the field continues in the next word *)
    assert (Hp1 : wrap 8 (32 - off mod 32) = 32 - off mod 32) by (apply wrap_small; lia).
    rewrite Hp1.
    assert (Hp2 : wrap 8 (w - (32 - off mod 32)) = w - (32 - off mod 32))
      by (apply wrap_small; lia).
    rewrite Hp2.
    assert (Hwi1 : off / 32 + 1 < Z.of_nat (length data)) by lia.
    rewrite (wrap_small 32 (off / 32 + 1)) by lia.
    destruct (lookup_lt_is_Some_2 data (Z.to_nat (off / 32 + 1)) ltac:(lia)) as [w1 Hw1e].
    assert (Hld1 : load data (off / 32 + 1) = Ok w1).
    { rewrite <- (Z2Nat.id (off / 32 + 1)) by lia. apply load_Ok; assumption. }
    rewrite Hld1. cbn [mbind res_bind].
    rewrite shl32_Ok by lia. cbn [mbind res_bind].
    rewrite mask_ones by lia. rewrite Z.land_ones by lia.
    rewrite shl32_Ok by lia. cbn [mbind res_bind].
    set (p1 := 32 - off mod 32) in *. set (p2 := w - p1) in *.
    assert (Hpart2 : 0 ≤ w1 mod 2 ^ p2 < 2 ^ p2).
    { apply Z.mod_pos_bound. apply Z.pow_pos_nonneg; lia. }
    assert (Hhi : wrap 32 (Z.shiftl (w1 mod 2 ^ p2) p1) = Z.shiftl (w1 mod 2 ^ p2) p1).
    { apply wrap_small. rewrite Z.shiftl_mul_pow2 by lia.
      assert (0 < 2 ^ p1) by (apply Z.pow_pos_nonneg; lia).
      assert (2 ^ p2 * 2 ^ p1 ≤ 2 ^ 32).
      { rewrite <- Z.pow_add_r by lia. apply Z.pow_le_mono_r; lia. }
      nia. }
    rewrite Hhi.
    assert (Hbits : forall j, 0 ≤ j ->
      Z.testbit (Z.lor (Z.shiftr w0 (off mod 32)) (Z.shiftl (w1 mod 2 ^ p2) p1)) j
      = if j <? w then stream_bit data (off + j) else false).
    { intros j Hj. rewrite Z.lor_spec, Z.shiftr_spec, Z.shiftl_spec by lia.
      destruct (Z.ltb_spec j w) as [Hjw|Hjw].
      - destruct (Z.lt_ge_cases j p1) as [Hlo|Hhi'].
        + rewrite (Z.testbit_neg_r _ (j - p1)) by lia. rewrite orb_false_r.
          rewrite (stream_bit_same_word data off j w0) by (assumption || lia).
          f_equal. lia.
        + rewrite (testbit_word_high w0) by lia. cbn [orb].
          rewrite Z.mod_pow2_bits_low by lia.
          rewrite (stream_bit_next_word data off j w1) by (assumption || lia).
          f_equal. lia.
      - rewrite (testbit_word_high w0) by lia. cbn [orb].
        apply Z.mod_pow2_bits_high. lia. }
    eexists. split; [reflexivity|]. split.
    + split.
      * apply Z.lor_nonneg. split; [apply Z.shiftr_nonneg; lia|apply Z.shiftl_nonneg; lia].
      * apply bits_bound; [lia| |].
        -- apply Z.lor_nonneg. split; [apply Z.shiftr_nonneg; lia|apply Z.shiftl_nonneg; lia].
        -- intros j Hj. rewrite Hbits by lia.
           destruct (Z.ltb_spec j w); [lia|reflexivity].
    + intros j Hj. rewrite Hbits by lia.
      destruct (Z.ltb_spec j w); [reflexivity|lia].
Qed.

(** ** [sign_extend] below 32 bits *)

Lemma land_pow2 (v k : Z) :
  0 ≤ k -> Z.land v (2 ^ k) = if Z.testbit v k then 2 ^ k else 0.
Proof.
  intros Hk. apply Z.bits_inj'. intros j Hj.
  rewrite Z.land_spec, Z.pow2_bits_eqb by lia.
  destruct (Z.eqb_spec k j) as [->|Hne].
  - rewrite andb_true_r. destruct (Z.testbit v j) eqn:E.
    + rewrite Z.pow2_bits_true by lia. reflexivity.
    + rewrite Z.bits_0. reflexivity.
  - rewrite andb_false_r. destruct (Z.testbit v k).
    + rewrite Z.pow2_bits_false by lia. reflexivity.
    + rewrite Z.bits_0. reflexivity.
Qed.

Lemma high_ones (w : Z) :
  0 ≤ w < 32 -> wrap 32 (Z.shiftl UINT32_MAX w) = 2 ^ 32 - 2 ^ w.
Proof.
  intros Hw. unfold wrap, UINT32_MAX. rewrite Z.shiftl_mul_pow2 by lia.
  assert (0 < 2 ^ w) by (apply Z.pow_pos_nonneg; lia).
  assert (2 ^ w < 2 ^ 32) by (apply Z.pow_lt_mono_r; lia).
  symmetry. apply (Z.mod_unique _ _ (2 ^ w - 1)); [left; lia|].
  change 4294967295 with (2 ^ 32 - 1). lia.
Qed.

Lemma high_ones_bits (w j : Z) :
  0 ≤ w < 32 -> 0 ≤ j ->
  Z.testbit (2 ^ 32 - 2 ^ w) j = (w <=? j) && (j <? 32).
Proof.
  intros Hw Hj.
  replace (2 ^ 32 - 2 ^ w) with (Z.shiftl (Z.ones (32 - w)) w).
  - rewrite Z.shiftl_spec by lia.
    destruct (Z.leb_spec w j) as [Hle|Hlt]; cbn [andb].
    + destruct (Z.ltb_spec j 32).
      * apply Z.ones_spec_low. lia.
      * apply Z.ones_spec_high. lia.
    + apply Z.testbit_neg_r. lia.
  - rewrite Z.shiftl_mul_pow2, Z.ones_equiv by lia.
    replace (2 ^ 32) with (2 ^ (32 - w) * 2 ^ w)
      by (rewrite <- Z.pow_add_r by lia; f_equal; lia).
    lia.
Qed.

(** The result for every width from 1 to 31. *)
Lemma sign_extend_below_32 (v w : Z) :
  1 ≤ w ≤ 31 ->
  sign_extend v w =
    Ok (if Z.testbit v (w - 1)
        then to_int32 (Z.lor v (2 ^ 32 - 2 ^ w))
        else to_int32 v).
Proof.
  intros Hw. unfold sign_extend.
  destruct (Z.eqb_spec w 0); [lia|].
  rewrite (shl32_Ok 1) by lia. cbn [mbind res_bind].
  rewrite Z.shiftl_1_l.
  assert (2 ^ (w - 1) < 2 ^ 32) by (apply Z.pow_lt_mono_r; lia).
  assert (0 < 2 ^ (w - 1)) by (apply Z.pow_pos_nonneg; lia).
  rewrite (wrap_small 32 (2 ^ (w - 1))) by lia.
  rewrite land_pow2 by lia.
  destruct (Z.testbit v (w - 1)).
  - destruct (Z.eqb_spec (2 ^ (w - 1)) 0); [lia|]. cbn [negb].
    rewrite (shl32_Ok UINT32_MAX) by lia. cbn [mbind res_bind].
    rewrite high_ones by lia. reflexivity.
  - reflexivity.
Qed.

(** On a [w]-bit field the result is its two's-complement value. *)
Lemma sign_extend_field (v w : Z) :
  1 ≤ w ≤ 31 -> 0 ≤ v < 2 ^ w ->
  sign_extend v w = Ok (if v <? 2 ^ (w - 1) then v else v - 2 ^ w).
Proof.
  intros Hw Hv. rewrite sign_extend_below_32 by assumption.
  assert (Hpw : 2 ^ w = 2 * 2 ^ (w - 1)).
  { replace w with (1 + (w - 1)) at 1 by lia. rewrite Z.pow_add_r by lia. reflexivity. }
  assert (0 < 2 ^ (w - 1)) by (apply Z.pow_pos_nonneg; lia).
  assert (2 ^ w < 2 ^ 32) by (apply Z.pow_lt_mono_r; lia).
  assert (Hbit : Z.testbit v (w - 1) = negb (v <? 2 ^ (w - 1))).
  { rewrite Z.testbit_eqb by lia.
    destruct (Z.ltb_spec v (2 ^ (w - 1))) as [Hlt|Hge]; cbn [negb].
    - rewrite Z.div_small by lia. reflexivity.
    - replace (v / 2 ^ (w - 1)) with 1; [reflexivity|].
      apply (Z.div_unique _ _ _ (v - 2 ^ (w - 1))); [left|]; lia. }
  rewrite Hbit. f_equal.
  destruct (Z.ltb_spec v (2 ^ (w - 1))) as [Hlt|Hge]; cbn [negb].
  - unfold to_int32. destruct (Z.ltb_spec v (2 ^ 31)); [reflexivity|].
    assert (2 ^ (w - 1) ≤ 2 ^ 31) by (apply Z.pow_le_mono_r; lia). lia.
  - assert (Hdisj : Z.land v (2 ^ 32 - 2 ^ w) = 0).
    { apply Z.bits_inj'. intros j Hj.
      rewrite Z.land_spec, high_ones_bits, Z.bits_0 by lia.
      destruct (Z.leb_spec w j); cbn [andb]; [|apply andb_false_r].
      assert (Hvj : Z.testbit v j = false).
      { apply Z.testbit_false; [lia|]. rewrite Z.div_small; [reflexivity|].
        assert (2 ^ w ≤ 2 ^ j) by (apply Z.pow_le_mono_r; lia). lia. }
      rewrite Hvj. reflexivity. }
    rewrite <- Z.lxor_lor, <- Z.add_nocarry_lxor by assumption.
    unfold to_int32.
    assert (2 ^ w ≤ 2 ^ 31) by (apply Z.pow_le_mono_r; lia).
    assert (2 ^ 32 = 2 * 2 ^ 31) by reflexivity.
    destruct (Z.ltb_spec (v + (2 ^ 32 - 2 ^ w)) (2 ^ 31)); lia.
Qed.

Lemma sign_extend_field_range (v w : Z) :
  0 ≤ w ≤ 31 -> 0 ≤ v < 2 ^ w ->
  exists d, sign_extend v w = Ok d ∧ - 2 ^ 30 ≤ d < 2 ^ 30.
Proof.
  intros Hw Hv.
  destruct (Z.eq_dec w 0) as [->|Hne].
  { exists 0. split; [reflexivity|lia]. }
  rewrite sign_extend_field by (assumption || lia).
  eexists. split; [reflexivity|].
  assert (2 ^ w = 2 * 2 ^ (w - 1)).
  { replace w with (1 + (w - 1)) at 1 by lia. rewrite Z.pow_add_r by lia. reflexivity. }
  assert (2 ^ (w - 1) ≤ 2 ^ 30) by (apply Z.pow_le_mono_r; lia).
  assert (0 < 2 ^ (w - 1)) by (apply Z.pow_pos_nonneg; lia).
  destruct (Z.ltb_spec v (2 ^ (w - 1))); lia.
Qed.

(** ** Loops *)

Lemma for_loop_snoc {St} (n : nat) (i : Z) (body : Z -> St -> res St) (s : St) :
  for_loop (S n) i body s = for_loop n i body s ≫= body (i + Z.of_nat n).
Proof.
  revert i s. induction n as [|n IH]; intros i s.
  - cbn. rewrite Z.add_0_r. destruct (body i s); reflexivity.
  - change (for_loop (S (S n)) i body s)
      with (body i s ≫= for_loop (S n) (i + 1) body).
    change (for_loop (S n) i body s)
      with (body i s ≫= for_loop n (i + 1) body).
    rewrite bind_assoc. apply bind_ext. intros s' _.
    rewrite IH. do 2 f_equal. lia.
Qed.

Lemma for_loop_const_snoc {St} (n : nat) (i : Z) (step : St -> res St) (s : St) :
  for_loop (S n) i (fun _ => step) s = for_loop n i (fun _ => step) s ≫= step.
Proof. apply (for_loop_snoc n i (fun _ => step)). Qed.

(** ** One vertex of one frame *)

Lemma read_delta_inv (words : list Z) (off w d off' : Z) :
  read_delta words off w = Ok (d, off') ->
  exists field, get_bits words off w = Ok (field, off') ∧ sign_extend field w = Ok d.
Proof.
  unfold read_delta. intros H.
  apply bind_Ok in H. destruct H as ([field o] & Hg & H).
  apply bind_Ok in H. destruct H as (d' & Hs & H).
  injection H as -> ->. eauto.
Qed.

Lemma read_delta_intro (words : list Z) (off w field d off' : Z) :
  get_bits words off w = Ok (field, off') -> sign_extend field w = Ok d ->
  read_delta words off w = Ok (d, off').
Proof. unfold read_delta. intros -> . cbn. intros ->. reflexivity. Qed.

Lemma add_assign_u8_inv (c d r : Z) :
  add_assign_u8 c d = Ok r -> r = wrapping_add_u8 c d.
Proof.
  unfold add_assign_u8, wrapping_add_u8, wrap.
  destruct ((INT_MIN <=? c + d) && (c + d <=? INT_MAX)); [|discriminate].
  intros [= <-]. reflexivity.
Qed.

Lemma add_assign_u8_Ok (c d : Z) :
  0 ≤ c ≤ 255 -> - 2 ^ 30 ≤ d < 2 ^ 30 ->
  add_assign_u8 c d = Ok (wrapping_add_u8 c d).
Proof.
  intros Hc Hd. unfold add_assign_u8, wrapping_add_u8, wrap, INT_MIN, INT_MAX.
  destruct (Z.leb_spec (-2147483648) (c + d)); [|lia].
  destruct (Z.leb_spec (c + d) 2147483647); [|lia].
  reflexivity.
Qed.

(** What a successful run of the loop body has done. *)
Lemma apply_vertex_deltas_inv (anim : RatAnimation) (i : nat)
    (prev prev' : list VertexU8) (off off' : Z) :
  apply_vertex_deltas anim (Z.of_nat i) (prev, off) = Ok (prev', off') ->
  exists wx wy wz p dx dy dz o1 o2,
    bit_widths_x anim !! i = Some wx
    ∧ bit_widths_y anim !! i = Some wy
    ∧ bit_widths_z anim !! i = Some wz
    ∧ read_delta (delta_stream anim) off wx = Ok (dx, o1)
    ∧ read_delta (delta_stream anim) o1 wy = Ok (dy, o2)
    ∧ read_delta (delta_stream anim) o2 wz = Ok (dz, off')
    ∧ prev !! i = Some p
    ∧ prev' = <[i := add_deltas p dx dy dz]> prev.
Proof.
  unfold apply_vertex_deltas. intros H.
  apply bind_Ok in H. destruct H as (wx & Hwx & H).
  apply bind_Ok in H. destruct H as ([bx o1] & Hgx & H).
  apply bind_Ok in H. destruct H as (dx & Hdx & H).
  apply bind_Ok in H. destruct H as (wy & Hwy & H).
  apply bind_Ok in H. destruct H as ([by_ o2] & Hgy & H).
  apply bind_Ok in H. destruct H as (dy & Hdy & H).
  apply bind_Ok in H. destruct H as (wz & Hwz & H).
  apply bind_Ok in H. destruct H as ([bz o3] & Hgz & H).
  apply bind_Ok in H. destruct H as (dz & Hdz & H).
  apply bind_Ok in H. destruct H as (p & Hp & H).
  apply bind_Ok in H. destruct H as (cx & Hcx & H).
  apply bind_Ok in H. destruct H as (prev1 & Hs1 & H).
  apply bind_Ok in H. destruct H as (p1 & Hp1 & H).
  apply bind_Ok in H. destruct H as (cy & Hcy & H).
  apply bind_Ok in H. destruct H as (prev2 & Hs2 & H).
  apply bind_Ok in H. destruct H as (p2 & Hp2 & H).
  apply bind_Ok in H. destruct H as (cz & Hcz & H).
  apply bind_Ok in H. destruct H as (prev3 & Hs3 & H).
  injection H as <- <-.
  apply load_inv in Hwx, Hwy, Hwz, Hp, Hp1, Hp2. rewrite Nat2Z.id in *.
  apply store_inv in Hs1, Hs2, Hs3. rewrite Nat2Z.id in *.
  destruct Hs1 as (_ & Hlt & ->). destruct Hs2 as (_ & _ & ->).
  destruct Hs3 as (_ & _ & ->).
  destruct Hp1 as [_ Hp1]. rewrite list_lookup_insert_eq in Hp1 by assumption.
  injection Hp1 as <-.
  destruct Hp2 as [_ Hp2].
  rewrite list_lookup_insert_eq in Hp2 by (rewrite length_insert; assumption).
  injection Hp2 as <-.
  apply add_assign_u8_inv in Hcx, Hcy, Hcz. subst cx cy cz.
  exists wx, wy, wz, p, dx, dy, dz, o1, o2.
  repeat split; try tauto.
  - eapply read_delta_intro; eassumption.
  - eapply read_delta_intro; eassumption.
  - eapply read_delta_intro; eassumption.
  - rewrite !list_insert_insert_eq. reflexivity.
Qed.

(** The loop body succeeds once the three deltas can be read and stay
    within thirty bits. *)
Lemma apply_vertex_deltas_Ok (anim : RatAnimation) (i : nat)
    (prev : list VertexU8) (off : Z) wx wy wz p dx dy dz o1 o2 o3 :
  bit_widths_x anim !! i = Some wx ->
  bit_widths_y anim !! i = Some wy ->
  bit_widths_z anim !! i = Some wz ->
  read_delta (delta_stream anim) off wx = Ok (dx, o1) ->
  read_delta (delta_stream anim) o1 wy = Ok (dy, o2) ->
  read_delta (delta_stream anim) o2 wz = Ok (dz, o3) ->
  - 2 ^ 30 ≤ dx < 2 ^ 30 -> - 2 ^ 30 ≤ dy < 2 ^ 30 -> - 2 ^ 30 ≤ dz < 2 ^ 30 ->
  prev !! i = Some p -> VertexU8_ok p ->
  apply_vertex_deltas anim (Z.of_nat i) (prev, off)
  = Ok (<[i := add_deltas p dx dy dz]> prev, o3).
Proof.
  intros Hwx Hwy Hwz Hrx Hry Hrz Hdx Hdy Hdz Hp (Hpx & Hpy & Hpz).
  apply read_delta_inv in Hrx, Hry, Hrz.
  destruct Hrx as (fx & Hgx & Hsx). destruct Hry as (fy & Hgy & Hsy).
  destruct Hrz as (fz & Hgz & Hsz).
  pose proof (lookup_lt_Some _ _ _ Hp) as Hlt.
  unfold apply_vertex_deltas.
  rewrite (load_Ok _ _ _ Hwx). cbn [mbind res_bind].
  rewrite Hgx. cbn [mbind res_bind]. rewrite Hsx. cbn [mbind res_bind].
  rewrite (load_Ok _ _ _ Hwy). cbn [mbind res_bind].
  rewrite Hgy. cbn [mbind res_bind]. rewrite Hsy. cbn [mbind res_bind].
  rewrite (load_Ok _ _ _ Hwz). cbn [mbind res_bind].
  rewrite Hgz. cbn [mbind res_bind]. rewrite Hsz. cbn [mbind res_bind].
  rewrite (load_Ok _ _ _ Hp). cbn [mbind res_bind].
  rewrite add_assign_u8_Ok by assumption. cbn [mbind res_bind].
  rewrite store_Ok by assumption. cbn [mbind res_bind].
  rewrite (load_Ok _ i (set_u8_x (wrapping_add_u8 (u8_x p) dx) p))
    by (apply list_lookup_insert_eq; assumption).
  cbn [mbind res_bind].
  rewrite add_assign_u8_Ok by assumption. cbn [mbind res_bind].
  rewrite store_Ok by (rewrite length_insert; assumption). cbn [mbind res_bind].
  rewrite (load_Ok _ i (set_u8_y (wrapping_add_u8 (u8_y p) dy)
                         (set_u8_x (wrapping_add_u8 (u8_x p) dx) p)))
    by (apply list_lookup_insert_eq; rewrite length_insert; assumption).
  cbn [mbind res_bind].
  rewrite add_assign_u8_Ok by assumption. cbn [mbind res_bind].
  rewrite store_Ok by (rewrite !length_insert; assumption). cbn [mbind res_bind].
  rewrite !list_insert_insert_eq. reflexivity.
Qed.

(** ** Frame 0 *)

Lemma upd_Ok {A} (a : list A) (i : nat) (f : A -> A) (p : A) :
  a !! i = Some p -> upd a (Z.of_nat i) f = Ok (<[i := f p]> a).
Proof.
  intros H. unfold upd. rewrite (load_Ok _ _ _ H). cbn [mbind res_bind].
  apply store_Ok. eapply lookup_lt_Some; eassumption.
Qed.

Lemma quantize_vertex_step (anim : RatAnimation) (i : nat) (prev : list VertexU8)
    (r : Vector3) :
  (i < length prev)%nat ->
  first_frame_raw anim !! i = Some r ->
  quantize_vertex anim (Z.of_nat i) prev
  = (q ← quantize_Vector3 anim r; Ok (<[i := q]> prev)).
Proof.
  intros Hlt Hr. unfold quantize_vertex, quantize_Vector3.
  rewrite (load_Ok _ _ _ Hr). cbn [mbind res_bind].
  destruct (lookup_lt_is_Some_2 prev i Hlt) as [p Hp].
  destruct (quantize (v3_x r) _ _) as [qx| |]; [|reflexivity..]. cbn [mbind res_bind].
  rewrite (upd_Ok _ _ _ _ Hp). cbn [mbind res_bind].
  destruct (quantize (v3_y r) _ _) as [qy| |]; [|reflexivity..]. cbn [mbind res_bind].
  rewrite (upd_Ok _ _ _ (set_u8_x qx p))
    by (apply list_lookup_insert_eq; assumption).
  cbn [mbind res_bind].
  destruct (quantize (v3_z r) _ _) as [qz| |]; [|reflexivity..]. cbn [mbind res_bind].
  rewrite (upd_Ok _ _ _ (set_u8_y qy (set_u8_x qx p)))
    by (apply list_lookup_insert_eq; rewrite length_insert; assumption).
  rewrite !list_insert_insert_eq. reflexivity.
Qed.

Lemma quantize_loop (anim : RatAnimation) (n i : nat) (prev : list VertexU8) :
  length prev = (i + n)%nat ->
  for_loop n (Z.of_nat i) (quantize_vertex anim) prev
  = (qs ← quantize_first anim n (drop i (first_frame_raw anim));
     Ok (take i prev ++ qs)).
Proof.
  revert i prev. induction n as [|n IH]; intros i prev Hlen.
  - cbn. rewrite app_nil_r, take_ge by lia. reflexivity.
  - cbn [for_loop quantize_first].
    destruct (first_frame_raw anim !! i) as [r|] eqn:Hr.
    + rewrite (drop_S _ _ _ Hr).
      rewrite (quantize_vertex_step anim i prev r) by (assumption || lia).
      rewrite !bind_assoc. apply bind_ext. intros q _. cbn [mbind res_bind].
      replace (Z.of_nat i + 1) with (Z.of_nat (S i)) by lia.
      rewrite IH by (rewrite length_insert; lia).
      rewrite bind_assoc. apply bind_ext. intros qs _. cbn [mbind res_bind].
      destruct (lookup_lt_is_Some_2 prev i ltac:(lia)) as [p Hp].
      rewrite (take_S_r _ _ q) by (apply list_lookup_insert_eq; lia).
      rewrite take_insert_ge by lia. rewrite <- app_assoc. reflexivity.
    + rewrite drop_ge by (apply lookup_ge_None; assumption).
      unfold quantize_vertex, load.
      destruct (Z.ltb_spec (Z.of_nat i) 0); [reflexivity|].
      rewrite Nat2Z.id, Hr. reflexivity.
Qed.

(** With a scratch buffer of one element per vertex, the seeding block of
    [decompress_frame] leaves frame 0 of the format in it, whatever it held
    before. *)
Lemma seed_frame0_base (anim : RatAnimation) (scratch : list VertexU8) :
  length scratch = Z.to_nat (num_vertices anim) ->
  seed_frame0 anim scratch = base_frame anim.
Proof.
  intros Hlen. unfold seed_frame0, base_frame.
  destruct (is_first_frame_raw anim).
  - rewrite (quantize_loop anim _ 0 scratch) by (cbn; lia).
    cbn [drop take app].
    destruct (quantize_first anim _ _); reflexivity.
  - unfold memcpy_elems, first_n.
    destruct (decide (Z.to_nat (num_vertices anim) ≤ length (first_frame_quantized anim))%nat)
      as [Hle|Hgt].
    + destruct (Z.leb_spec (num_vertices anim) (Z.of_nat (length (first_frame_quantized anim))));
        [|lia].
      destruct (Z.leb_spec (num_vertices anim) (Z.of_nat (length scratch))); [|lia].
      cbn [andb]. rewrite drop_ge by lia. rewrite app_nil_r. reflexivity.
    + destruct (Z.leb_spec (num_vertices anim) (Z.of_nat (length (first_frame_quantized anim))));
        [lia|].
      reflexivity.
Qed.

Lemma base_frame_length (anim : RatAnimation) (base : list VertexU8) :
  base_frame anim = Ok base -> length base = Z.to_nat (num_vertices anim).
Proof.
  unfold base_frame. destruct (is_first_frame_raw anim).
  - generalize (first_frame_raw anim). generalize (Z.to_nat (num_vertices anim)).
    intros n. revert base. induction n as [|n IH]; intros base raw H.
    + injection H as <-. reflexivity.
    + cbn [quantize_first] in H. destruct raw as [|r raw]; [discriminate|].
      apply bind_Ok in H. destruct H as (q & _ & H).
      apply bind_Ok in H. destruct H as (qs & Hqs & H).
      injection H as <-. cbn. f_equal. eapply IH; eassumption.
  - unfold first_n. destruct (decide _); [|discriminate].
    intros [= <-]. rewrite length_take. lia.
Qed.

(** ** One frame: the inner loop against the format *)

Section OneFrame.
Variable anim : RatAnimation.

Lemma vertex_loop_replay (n i : nat) (prev prev' : list VertexU8) (off off' : Z) :
    for_loop n (Z.of_nat i) (apply_vertex_deltas anim) (prev, off) = Ok (prev', off') ->
    length prev = (i + n)%nat ->
    replay_frame (delta_stream anim) (drop i (bit_widths_x anim))
      (drop i (bit_widths_y anim)) (drop i (bit_widths_z anim)) (drop i prev) off
      = Ok (drop i prev', off')
    ∧ take i prev' = take i prev
    ∧ length prev' = length prev.
Proof.
    revert i prev off. induction n as [|n IH]; intros i prev off H Hlen.
    - injection H as <- <-. rewrite (drop_ge prev) by lia. repeat split.
    - cbn [for_loop] in H. apply bind_Ok in H. destruct H as ([prev1 o3] & Hstep & H).
      apply apply_vertex_deltas_inv in Hstep.
      destruct Hstep as (bx & by_ & bz & p & dx & dy & dz & o1 & o2
                         & Hbx & Hby & Hbz & Hrx & Hry & Hrz & Hp & ->).
      replace (Z.of_nat i + 1) with (Z.of_nat (S i)) in H by lia.
      apply IH in H; [|rewrite length_insert; lia].
      destruct H as (Hrest & Htake & Hlen').
      rewrite length_insert in Hlen'.
      rewrite drop_insert_lt in Hrest by lia.
      assert (Hi : prev' !! i = Some (add_deltas p dx dy dz)).
      { rewrite <- (lookup_take_lt prev' (S i) i) by lia. rewrite Htake.
        rewrite lookup_take_lt by lia. apply list_lookup_insert_eq. lia. }
      split; [|split].
      + rewrite (drop_S _ _ _ Hbx), (drop_S _ _ _ Hby), (drop_S _ _ _ Hbz),
          (drop_S _ _ _ Hp), (drop_S _ _ _ Hi).
        cbn [replay_frame]. rewrite Hrx. cbn [mbind res_bind].
        rewrite Hry. cbn [mbind res_bind]. rewrite Hrz. cbn [mbind res_bind].
        rewrite Hrest. reflexivity.
      + apply (f_equal (take i)) in Htake.
        rewrite !take_take, Nat.min_l in Htake by lia.
        rewrite Htake. apply take_insert_ge. lia.
      + assumption.
Qed.

Lemma apply_frame_deltas_replay (prev prev' : list VertexU8) (off off' : Z) :
    length prev = Z.to_nat (num_vertices anim) ->
    apply_frame_deltas anim (prev, off) = Ok (prev', off') ->
    replay_frame (delta_stream anim) (bit_widths_x anim) (bit_widths_y anim)
      (bit_widths_z anim) prev off = Ok (prev', off')
    ∧ length prev' = length prev.
Proof.
    intros Hlen H. unfold apply_frame_deltas in H.
    apply (vertex_loop_replay _ 0) in H; [|cbn; lia].
    cbn [drop] in H. tauto.
Qed.

Lemma frames_loop_replay (n : nat) (i : Z) (prev prev' : list VertexU8) (off off' : Z) :
    length prev = Z.to_nat (num_vertices anim) ->
    for_loop n i (fun _ st => apply_frame_deltas anim st) (prev, off) = Ok (prev', off') ->
    replay_frames n (delta_stream anim) (bit_widths_x anim) (bit_widths_y anim)
      (bit_widths_z anim) prev off = Ok (prev', off')
    ∧ length prev' = length prev.
Proof.
    revert i prev off. induction n as [|n IH]; intros i prev off Hlen H.
    - injection H as <- <-. auto.
    - cbn [for_loop] in H. apply bind_Ok in H. destruct H as ([prev1 o1] & Hstep & H).
      apply apply_frame_deltas_replay in Hstep; [|assumption].
      destruct Hstep as [Hstep Hlen1].
      apply IH in H; [|lia]. destruct H as [H Hlen'].
      cbn [replay_frames]. rewrite Hstep. cbn [mbind res_bind].
      split; [assumption|lia].
Qed.
End OneFrame.

(** ** The bit cursor *)

Lemma sum_upto_mono (f : nat -> Z) (a b : nat) :
  (forall k, 0 ≤ f k) -> (a ≤ b)%nat -> sum_upto a f ≤ sum_upto b f.
Proof.
  intros Hf Hab. induction Hab as [|b Hab IH]; [lia|].
  cbn [sum_upto]. specialize (Hf b). lia.
Qed.

Lemma wrap_idem (bits x : Z) : wrap bits (wrap bits x) = wrap bits x.
Proof. unfold wrap. apply Zmod_mod. Qed.

Lemma wrap_add_l (bits x y : Z) : wrap bits (wrap bits x + y) = wrap bits (x + y).
Proof. unfold wrap. apply Zplus_mod_idemp_l. Qed.

Lemma get_bits_cursor (data : list Z) (off w v off' : Z) :
  get_bits data off w = Ok (v, off') -> wrap 64 off = off ->
  off' = wrap 64 (off + w).
Proof.
  unfold get_bits. intros H Hoff.
  destruct (Z.eqb_spec w 0) as [->|Hw].
  - injection H as _ <-. rewrite Z.add_0_r. symmetry. assumption.
  - apply bind_Ok in H. destruct H as (value & _ & H).
    injection H as _ <-. reflexivity.
Qed.

Lemma read_delta_cursor (data : list Z) (off w d off' : Z) :
  read_delta data off w = Ok (d, off') -> wrap 64 off = off ->
  off' = wrap 64 (off + w).
Proof.
  intros H Hoff. apply read_delta_inv in H. destruct H as (field & H & _).
  eapply get_bits_cursor; eassumption.
Qed.

Section Cursor.
Variable anim : RatAnimation.

Lemma vertex_loop_cursor (n i : nat) (prev prev' : list VertexU8) (off off' : Z) :
    for_loop n (Z.of_nat i) (apply_vertex_deltas anim) (prev, off) = Ok (prev', off') ->
    wrap 64 off = off ->
    off' = wrap 64 (off + (sum_upto (i + n) (vertex_bits anim)
                           - sum_upto i (vertex_bits anim))).
Proof.
    revert i prev off. induction n as [|n IH]; intros i prev off H Hoff.
    - injection H as _ <-. rewrite Nat.add_0_r, Z.sub_diag, Z.add_0_r. auto.
    - cbn [for_loop] in H. apply bind_Ok in H. destruct H as ([prev1 o3] & Hstep & H).
      apply apply_vertex_deltas_inv in Hstep.
      destruct Hstep as (bx & by_ & bz & p & dx & dy & dz & o1 & o2
                         & Hbx & Hby & Hbz & Hrx & Hry & Hrz & Hp & ->).
      assert (Hvb : vertex_bits anim i = bx + by_ + bz).
      { unfold vertex_bits. rewrite Hbx, Hby, Hbz. reflexivity. }
      apply read_delta_cursor in Hrx; [|assumption]. subst o1.
      apply read_delta_cursor in Hry; [|apply wrap_idem].
      rewrite wrap_add_l in Hry. subst o2.
      apply read_delta_cursor in Hrz; [|apply wrap_idem].
      rewrite wrap_add_l in Hrz. subst o3.
      replace (Z.of_nat i + 1) with (Z.of_nat (S i)) in H by lia.
      apply IH in H; [|apply wrap_idem].
      rewrite wrap_add_l in H. subst off'.
      replace (i + S n)%nat with (S i + n)%nat by lia.
      change (sum_upto (S i) (vertex_bits anim))
        with (sum_upto i (vertex_bits anim) + vertex_bits anim i).
      rewrite Hvb. f_equal. lia.
Qed.

Lemma apply_frame_deltas_cursor (prev prev' : list VertexU8) (off off' : Z) :
    apply_frame_deltas anim (prev, off) = Ok (prev', off') ->
    wrap 64 off = off ->
    off' = wrap 64 (off + frame_bits anim).
Proof.
    intros H Hoff. unfold apply_frame_deltas in H.
    apply (vertex_loop_cursor _ 0) in H; [|assumption].
    subst off'. unfold frame_bits. cbn [sum_upto Nat.add]. f_equal. lia.
Qed.

Lemma frames_loop_cursor (n : nat) (i : Z) (prev prev' : list VertexU8) (off off' : Z) :
    for_loop n i (fun _ st => apply_frame_deltas anim st) (prev, off) = Ok (prev', off') ->
    wrap 64 off = off ->
    off' = wrap 64 (off + Z.of_nat n * frame_bits anim).
Proof.
    revert i prev off. induction n as [|n IH]; intros i prev off H Hoff.
    - injection H as _ <-. rewrite Z.mul_0_l, Z.add_0_r. auto.
    - cbn [for_loop] in H. apply bind_Ok in H. destruct H as ([prev1 o1] & Hstep & H).
      apply apply_frame_deltas_cursor in Hstep; [|assumption].
      apply IH in H; [|subst o1; apply wrap_idem].
      subst off' o1. rewrite wrap_add_l. f_equal. lia.
Qed.
End Cursor.

(** ** Defined behaviour on well-formed chunks *)

Lemma add_deltas_ok (p : VertexU8) (dx dy dz : Z) : VertexU8_ok (add_deltas p dx dy dz).
Proof.
  unfold VertexU8_ok, add_deltas, wrapping_add_u8, u8_range. cbn.
  pose proof (Z.mod_pos_bound (u8_x p + dx) 256 ltac:(lia)).
  pose proof (Z.mod_pos_bound (u8_y p + dy) 256 ltac:(lia)).
  pose proof (Z.mod_pos_bound (u8_z p + dz) 256 ltac:(lia)).
  lia.
Qed.

Lemma read_delta_defined (data : list Z) (off w : Z) :
  Forall (fun x => 0 ≤ x < 2 ^ 32) data ->
  Z.of_nat (length data) ≤ UINT32_MAX ->
  0 ≤ off -> 0 ≤ w ≤ 31 ->
  off + w ≤ 32 * Z.of_nat (length data) ->
  exists d, read_delta data off w = Ok (d, off + w) ∧ - 2 ^ 30 ≤ d < 2 ^ 30.
Proof.
  intros Hwords Hlen Hoff Hw Hfit.
  destruct (get_bits_field data off w) as (v & Hg & Hv & _); try assumption; try lia.
  destruct (sign_extend_field_range v w) as (d & Hs & Hd); try assumption.
  exists d. split; [|assumption]. eapply read_delta_intro; eassumption.
Qed.

Section Defined.
Variable anim : RatAnimation.
Hypothesis Hwf : anim_wf anim.

Lemma vertex_bits_nonneg (k : nat) : 0 ≤ vertex_bits anim k.
Proof.
    unfold vertex_bits.
    assert (Hx : 0 ≤ default 0 (bit_widths_x anim !! k)).
    { destruct (bit_widths_x anim !! k) eqn:E; cbn; [|lia].
      apply (proj1 (Forall_lookup _ _) (wf_width_x_range _ Hwf) _ _ E). }
    assert (Hy : 0 ≤ default 0 (bit_widths_y anim !! k)).
    { destruct (bit_widths_y anim !! k) eqn:E; cbn; [|lia].
      apply (proj1 (Forall_lookup _ _) (wf_width_y_range _ Hwf) _ _ E). }
    assert (Hz : 0 ≤ default 0 (bit_widths_z anim !! k)).
    { destruct (bit_widths_z anim !! k) eqn:E; cbn; [|lia].
      apply (proj1 (Forall_lookup _ _) (wf_width_z_range _ Hwf) _ _ E). }
    lia.
Qed.

Lemma frame_bits_nonneg : 0 ≤ frame_bits anim.
Proof.
    unfold frame_bits.
    apply (sum_upto_mono (vertex_bits anim) 0 _ vertex_bits_nonneg). lia.
Qed.

Lemma vertex_loop_defined (n i : nat) (prev : list VertexU8) (off : Z) :
    (i + n)%nat = Z.to_nat (num_vertices anim) -> length prev = Z.to_nat (num_vertices anim) -> Forall VertexU8_ok prev ->
    0 ≤ off ->
    off + (sum_upto (i + n) (vertex_bits anim) - sum_upto i (vertex_bits anim)) ≤ 32 * Z.of_nat (length (delta_stream anim)) ->
    exists prev',
      for_loop n (Z.of_nat i) (apply_vertex_deltas anim) (prev, off)
      = Ok (prev', off + (sum_upto (i + n) (vertex_bits anim)
                          - sum_upto i (vertex_bits anim)))
      ∧ length prev' = Z.to_nat (num_vertices anim) ∧ Forall VertexU8_ok prev'.
Proof.
    revert i prev off. induction n as [|n IH]; intros i prev off Hin Hlen Hok Hoff Hroom.
    - exists prev. rewrite Nat.add_0_r, Z.sub_diag, Z.add_0_r. auto.
    - destruct (lookup_lt_is_Some_2 (bit_widths_x anim) i) as [bx Hbx];
        [rewrite (wf_widths_x _ Hwf); lia|].
      destruct (lookup_lt_is_Some_2 (bit_widths_y anim) i) as [by_ Hby];
        [rewrite (wf_widths_y _ Hwf); lia|].
      destruct (lookup_lt_is_Some_2 (bit_widths_z anim) i) as [bz Hbz];
        [rewrite (wf_widths_z _ Hwf); lia|].
      destruct (lookup_lt_is_Some_2 prev i) as [p Hp]; [lia|].
      pose proof (proj1 (Forall_lookup _ _) (wf_width_x_range _ Hwf) _ _ Hbx) as Rx.
      pose proof (proj1 (Forall_lookup _ _) (wf_width_y_range _ Hwf) _ _ Hby) as Ry.
      pose proof (proj1 (Forall_lookup _ _) (wf_width_z_range _ Hwf) _ _ Hbz) as Rz.
      pose proof (proj1 (Forall_lookup _ _) Hok _ _ Hp) as Rp.
      cbn beta in Rx, Ry, Rz.
      assert (Hvb : vertex_bits anim i = bx + by_ + bz).
      { unfold vertex_bits. rewrite Hbx, Hby, Hbz. reflexivity. }
      assert (Hsplit : sum_upto (i + S n) (vertex_bits anim) - sum_upto i (vertex_bits anim)
                       = (bx + by_ + bz)
                         + (sum_upto (S i + n) (vertex_bits anim)
                            - sum_upto (S i) (vertex_bits anim))).
      { replace (i + S n)%nat with (S i + n)%nat by lia.
        cbn [sum_upto]. rewrite Hvb. lia. }
      pose proof (sum_upto_mono (vertex_bits anim) (S i) (S i + n) vertex_bits_nonneg
                    ltac:(lia)) as Hrest.
      rewrite Hsplit in Hroom |- *.
      pose proof (wf_words _ Hwf) as Hwords. pose proof (wf_word_count _ Hwf) as Hcount.
      destruct (read_delta_defined (delta_stream anim) off bx) as (dx & Hrx & Hdx);
        try assumption; try lia.
      destruct (read_delta_defined (delta_stream anim) (off + bx) by_) as (dy & Hry & Hdy);
        try assumption; try lia.
      destruct (read_delta_defined (delta_stream anim) (off + bx + by_) bz)
        as (dz & Hrz & Hdz); try assumption; try lia.
      cbn [for_loop].
      rewrite (apply_vertex_deltas_Ok anim i prev off bx by_ bz p dx dy dz
                 (off + bx) (off + bx + by_) (off + bx + by_ + bz)) by assumption.
      cbn [mbind res_bind].
      replace (Z.of_nat i + 1) with (Z.of_nat (S i)) by lia.
      destruct (IH (S i) (<[i := add_deltas p dx dy dz]> prev) (off + bx + by_ + bz))
        as (prev' & Hloop & Hlen' & Hok').
      + lia.
      + rewrite length_insert. assumption.
      + apply Forall_insert; [assumption|apply add_deltas_ok].
      + lia.
      + lia.
      + exists prev'. split; [|auto].
        rewrite Hloop. do 2 f_equal. lia.
Qed.

Lemma apply_frame_deltas_defined (prev : list VertexU8) (off : Z) :
    length prev = Z.to_nat (num_vertices anim) -> Forall VertexU8_ok prev ->
    0 ≤ off -> off + frame_bits anim ≤ 32 * Z.of_nat (length (delta_stream anim)) ->
    exists prev',
      apply_frame_deltas anim (prev, off) = Ok (prev', off + frame_bits anim)
      ∧ length prev' = Z.to_nat (num_vertices anim) ∧ Forall VertexU8_ok prev'.
Proof.
    intros Hlen Hok Hoff Hroom. unfold apply_frame_deltas.
    destruct (vertex_loop_defined (Z.to_nat (num_vertices anim)) 0 prev off)
      as (prev' & H & Hlen' & Hok'); try assumption; try reflexivity.
    - cbn [Nat.add sum_upto]. unfold frame_bits in Hroom. lia.
    - exists prev'. split; [|auto]. cbn [Nat.add sum_upto] in H.
      change (Z.of_nat 0) with 0 in H. rewrite H. unfold frame_bits. do 2 f_equal. lia.
Qed.

Lemma frames_loop_defined (n : nat) (i : Z) (prev : list VertexU8) (off : Z) :
    length prev = Z.to_nat (num_vertices anim) -> Forall VertexU8_ok prev ->
    0 ≤ off -> off + Z.of_nat n * frame_bits anim ≤ 32 * Z.of_nat (length (delta_stream anim)) ->
    exists prev',
      for_loop n i (fun _ st => apply_frame_deltas anim st) (prev, off)
      = Ok (prev', off + Z.of_nat n * frame_bits anim)
      ∧ length prev' = Z.to_nat (num_vertices anim) ∧ Forall VertexU8_ok prev'.
Proof.
    revert i prev off. induction n as [|n IH]; intros i prev off Hlen Hok Hoff Hroom.
    - exists prev. rewrite Z.mul_0_l, Z.add_0_r. auto.
    - pose proof frame_bits_nonneg as Hfb.
      destruct (apply_frame_deltas_defined prev off) as (prev1 & Hstep & Hlen1 & Hok1);
        try assumption; [nia|].
      destruct (IH (i + 1) prev1 (off + frame_bits anim)) as (prev' & Hloop & Hlen' & Hok');
        try assumption; [lia|nia|].
      exists prev'. split; [|auto].
      cbn [for_loop]. rewrite Hstep. cbn [mbind res_bind]. rewrite Hloop.
      do 2 f_equal. lia.
Qed.
End Defined.

(** ** Full replay ([decompress_frame], quantized part) *)

Lemma bind_ret_r {A} (m : res A) : m ≫= Ok = m.
Proof. destruct m; reflexivity. Qed.

Lemma decompress_u8_replay (anim : RatAnimation) (scratch : list VertexU8) (f : Z)
    (r : list VertexU8 * Z) :
  length scratch = Z.to_nat (num_vertices anim) ->
  1 ≤ f ->
  decompress_u8 anim scratch f = Ok r ->
  replay_from_base anim f = Ok r ∧ length (fst r) = Z.to_nat (num_vertices anim).
Proof.
  intros Hlen Hf H. unfold decompress_u8 in H.
  destruct (Z.eqb_spec f 0); [lia|].
  rewrite seed_frame0_base in H by assumption.
  apply bind_Ok in H. destruct H as (base & Hbase & H).
  destruct (Z.eqb_spec f UINT32_MAX); [discriminate|].
  pose proof (base_frame_length _ _ Hbase) as Hbl.
  destruct r as [vs c].
  apply frames_loop_replay in H; [|assumption].
  unfold replay_from_base. rewrite Hbase. cbn [mbind res_bind fst].
  destruct H as [H Hl]. split; [assumption|lia].
Qed.

Lemma decompress_u8_length (anim : RatAnimation) (scratch : list VertexU8) (f : Z)
    (r : list VertexU8 * Z) :
  length scratch = Z.to_nat (num_vertices anim) ->
  decompress_u8 anim scratch f = Ok r ->
  length (fst r) = Z.to_nat (num_vertices anim).
Proof.
  intros Hlen H. unfold decompress_u8 in H.
  rewrite seed_frame0_base in H by assumption.
  destruct (Z.eqb_spec f 0).
  - apply bind_Ok in H. destruct H as (base & Hbase & H). injection H as <-.
    cbn [fst]. eapply base_frame_length; eassumption.
  - apply bind_Ok in H. destruct H as (base & Hbase & H).
    destruct (Z.eqb_spec f UINT32_MAX); [discriminate|].
    pose proof (base_frame_length _ _ Hbase) as Hbl.
    destruct r as [vs c].
    apply frames_loop_replay in H; [|assumption].
    cbn [fst]. destruct H as [_ Hl]. lia.
Qed.

Lemma decompress_u8_scratch (anim : RatAnimation) (s1 s2 : list VertexU8) (f : Z) :
  length s1 = Z.to_nat (num_vertices anim) ->
  length s2 = Z.to_nat (num_vertices anim) ->
  decompress_u8 anim s1 f = decompress_u8 anim s2 f.
Proof.
  intros H1 H2. unfold decompress_u8.
  rewrite !seed_frame0_base by assumption. reflexivity.
Qed.

Lemma decompress_u8_defined (anim : RatAnimation) (scratch : list VertexU8) (f : Z) :
  anim_wf anim ->
  length scratch = Z.to_nat (num_vertices anim) ->
  f = 0 ∨ 0 ≤ f < num_frames anim ->
  exists vs,
    decompress_u8 anim scratch f = Ok (vs, f * frame_bits anim)
    ∧ length vs = Z.to_nat (num_vertices anim)
    ∧ Forall VertexU8_ok vs.
Proof.
  intros Hwf Hlen Hf. unfold decompress_u8.
  rewrite seed_frame0_base by assumption.
  destruct (wf_base _ Hwf) as (base & Hbase & Hok).
  pose proof (base_frame_length _ _ Hbase) as Hbl.
  rewrite Hbase. cbn [mbind res_bind].
  destruct (Z.eqb_spec f 0) as [->|Hf0].
  - exists base. rewrite Z.mul_0_l. auto.
  - pose proof (wf_num_frames _ Hwf) as Hnf.
    destruct (Z.eqb_spec f UINT32_MAX); [lia|].
    pose proof (frame_bits_nonneg anim Hwf) as Hfb.
    pose proof (wf_stream _ Hwf) as Hroom.
    destruct (frames_loop_defined anim Hwf (Z.to_nat f) 1 base 0)
      as (vs & H & Hl & Hvs); try assumption; try lia.
    { rewrite Z2Nat.id by lia. nia. }
    exists vs. rewrite H. rewrite Z2Nat.id by lia. rewrite Z.add_0_l. auto.
Qed.

Ltac closed_wf :=
  split;
  first
    [ reflexivity
    | cbn; unfold UINT32_MAX; lia
    | repeat (apply Forall_cons; split; [cbn; lia|]); apply Forall_nil; exact I
    | eexists; split; [reflexivity|];
      repeat (apply Forall_cons; split; [cbv; intuition discriminate|]);
      apply Forall_nil; exact I
    | apply Z.leb_le; vm_compute; reflexivity ].

Lemma sample_anim_wf : anim_wf sample_anim.
Proof. closed_wf. Qed.

Lemma straddle_anim_wf : anim_wf straddle_anim.
Proof. closed_wf. Qed.

(** C9.  Frame [N] by full replay is frame [N - 1] by full replay followed
    by one more pass of the inner loop, started with the cursor at the bits
    of [N - 1] frames; on a well-formed chunk both are defined. *)
Theorem replay_one_more_frame
    (anim : RatAnimation) (scratch : list VertexU8) (N : Z) :
  1 ≤ N < num_frames anim ->
  num_frames anim ≤ UINT32_MAX ->
  decompress_u8 anim scratch N
  = (st ← decompress_u8 anim scratch (N - 1);
     apply_frame_deltas anim (fst st, wrap 64 ((N - 1) * frame_bits anim)))
  ∧ (anim_wf anim -> length scratch = Z.to_nat (num_vertices anim) ->
     exists vs, decompress_u8 anim scratch N = Ok (vs, N * frame_bits anim)).
Proof.
  intros HN Hmax. split.
  - unfold decompress_u8.
    destruct (Z.eqb_spec N 0); [lia|].
    destruct (Z.eqb_spec N UINT32_MAX); [lia|].
    destruct (Z.eqb_spec (N - 1) 0) as [H1|H1].
    + rewrite bind_assoc. apply bind_ext. intros prev _. cbn [mbind res_bind fst].
      replace N with 1 by lia. cbn [Z.to_nat Pos.to_nat Pos.iter_op Nat.add for_loop].
      rewrite Z.mul_0_l. change (wrap 64 0) with 0.
      apply bind_ret_r.
    + destruct (Z.eqb_spec (N - 1) UINT32_MAX); [lia|].
      rewrite bind_assoc. apply bind_ext. intros prev _.
      replace (Z.to_nat N) with (S (Z.to_nat (N - 1))) by lia.
      rewrite for_loop_const_snoc. apply bind_ext. intros [vs c] Hloop.
      apply frames_loop_cursor in Hloop; [|reflexivity].
      cbn [fst]. rewrite Hloop, Z.add_0_l, Z2Nat.id by lia. reflexivity.
  - intros Hwf Hlen.
    destruct (decompress_u8_defined anim scratch N Hwf Hlen) as (vs & H & _); [lia|].
    exists vs. assumption.
Qed.

Lemma replay_one_more_frame_witness :
  decompress_u8 straddle_anim (junk_u8 <$> seq 0 1) 3
  = (st ← decompress_u8 straddle_anim (junk_u8 <$> seq 0 1) 2;
     apply_frame_deltas straddle_anim (fst st, wrap 64 (2 * frame_bits straddle_anim)))
  ∧ exists vs, decompress_u8 straddle_anim (junk_u8 <$> seq 0 1) 3
               = Ok (vs, 3 * frame_bits straddle_anim).
Proof.
  destruct (replay_one_more_frame straddle_anim (junk_u8 <$> seq 0 1) 3) as [Heq Hdef].
  - cbn. lia.
  - cbn. unfold UINT32_MAX. lia.
  - split; [exact Heq|]. apply Hdef; [exact straddle_anim_wf|reflexivity].
Defined.

(** ** De-quantization and the whole of [decompress_frame] *)

Lemma dequantize_vertex_step (anim : RatAnimation) (prev : list VertexU8)
    (i : nat) (cur : list Vector3) (p : VertexU8) :
  prev !! i = Some p -> (i < length cur)%nat ->
  dequantize_vertex anim prev
    (f32_sub (max_x anim) (min_x anim)) (f32_sub (max_y anim) (min_y anim))
    (f32_sub (max_z anim) (min_z anim)) (Z.of_nat i) cur
  = Ok (<[i := dequantize_VertexU8 anim p]> cur).
Proof.
  intros Hp Hlt. unfold dequantize_vertex.
  destruct (lookup_lt_is_Some_2 cur i Hlt) as [c Hc].
  rewrite (load_Ok _ _ _ Hp). cbn [mbind res_bind].
  rewrite (upd_Ok _ _ _ _ Hc). cbn [mbind res_bind].
  rewrite (upd_Ok _ _ _ (set_v3_x (dequantize (u8_x p) (min_x anim)
                                     (f32_sub (max_x anim) (min_x anim))) c))
    by (apply list_lookup_insert_eq; assumption).
  cbn [mbind res_bind].
  rewrite (upd_Ok _ _ _ (set_v3_y (dequantize (u8_y p) (min_y anim)
                                     (f32_sub (max_y anim) (min_y anim)))
                           (set_v3_x (dequantize (u8_x p) (min_x anim)
                                        (f32_sub (max_x anim) (min_x anim))) c)))
    by (apply list_lookup_insert_eq; rewrite length_insert; assumption).
  rewrite !list_insert_insert_eq. reflexivity.
Qed.

Lemma dequantize_loop (anim : RatAnimation) (prev : list VertexU8)
    (n i : nat) (cur : list Vector3) :
  length cur = (i + n)%nat -> (i + n ≤ length prev)%nat ->
  for_loop n (Z.of_nat i)
    (dequantize_vertex anim prev
       (f32_sub (max_x anim) (min_x anim)) (f32_sub (max_y anim) (min_y anim))
       (f32_sub (max_z anim) (min_z anim))) cur
  = Ok (take i cur ++ (dequantize_VertexU8 anim <$> take n (drop i prev))).
Proof.
  revert i cur. induction n as [|n IH]; intros i cur Hlen Hprev.
  - cbn. rewrite app_nil_r, take_ge by lia. reflexivity.
  - destruct (lookup_lt_is_Some_2 prev i ltac:(lia)) as [p Hp].
    cbn [for_loop]. rewrite (dequantize_vertex_step anim prev i cur p) by (assumption || lia).
    cbn [mbind res_bind].
    replace (Z.of_nat i + 1) with (Z.of_nat (S i)) by lia.
    rewrite IH by (rewrite ?length_insert; lia).
    rewrite (take_S_r _ _ (dequantize_VertexU8 anim p))
      by (apply list_lookup_insert_eq; lia).
    rewrite take_insert_ge by lia.
    rewrite (drop_S _ _ _ Hp). cbn [take fmap list_fmap].
    rewrite <- app_assoc. reflexivity.
Qed.

(** With buffers of one element per vertex, [decompress_frame] is the
    quantized reconstruction followed by the de-quantization of every
    vertex; neither buffer keeps anything of its prior contents. *)
Lemma decompress_frame_eq (m : RatModel) (anim : RatAnimation) (f : Z) :
  animation m = Some anim ->
  length (decompressed_vertices_u8 m) = Z.to_nat (num_vertices anim) ->
  length (current_frame_vertices m) = Z.to_nat (num_vertices anim) ->
  decompress_frame m f
  = (st ← decompress_u8 anim (decompressed_vertices_u8 m) f;
     Ok (set_frame_output m (fst st) (dequantize_VertexU8 anim <$> fst st))).
Proof.
  intros Ha Hu Hc. unfold decompress_frame. rewrite Ha.
  apply bind_ext. intros [prev c] Hd.
  apply decompress_u8_length in Hd; [|assumption]. cbn [fst] in Hd |- *.
  rewrite (dequantize_loop anim prev _ 0) by lia.
  cbn [mbind res_bind]. rewrite take_0, drop_0, (take_ge prev) by lia.
  unfold set_frame_output. rewrite Ha. reflexivity.
Qed.

(** C1.  For a model whose buffers have one element per vertex and a target
    frame [f] with [1 <= f < num_frames], whatever [decompress_frame] leaves
    in the quantized buffer is frame 0 of the chunk (copied, or quantized
    from the raw floats) with, for each of the frames [1..f] and each vertex
    in index order, the x, y and z deltas read by [get_bits] and
    [sign_extend] at that vertex's widths from a single cursor that starts
    at 0 and added modulo 256.  On a chunk that satisfies the invariant of
    the format, [decompress_frame] does produce that result, and the cursor
    ends at [f] times the bits of one frame. *)
Theorem decompress_frame_replays_deltas
    (m : RatModel) (anim : RatAnimation) (f : Z) :
  animation m = Some anim ->
  length (decompressed_vertices_u8 m) = Z.to_nat (num_vertices anim) ->
  length (current_frame_vertices m) = Z.to_nat (num_vertices anim) ->
  1 ≤ f < num_frames anim ->
  (forall m', decompress_frame m f = Ok m' ->
     exists cursor,
       replay_from_base anim f = Ok (decompressed_vertices_u8 m', cursor))
  ∧ (anim_wf anim ->
     exists m',
       decompress_frame m f = Ok m'
       ∧ replay_from_base anim f
         = Ok (decompressed_vertices_u8 m', f * frame_bits anim)
       ∧ Forall VertexU8_ok (decompressed_vertices_u8 m')).
Proof.
  intros Ha Hu Hc Hf. rewrite (decompress_frame_eq m anim f) by assumption. split.
  - intros m' H. apply bind_Ok in H. destruct H as ([vs c] & Hd & H).
    injection H as <-. exists c. cbn [fst set_frame_output decompressed_vertices_u8].
    apply (decompress_u8_replay anim _ f (vs, c) Hu); [lia|assumption].
  - intros Hwf.
    destruct (decompress_u8_defined anim (decompressed_vertices_u8 m) f Hwf Hu)
      as (vs & H & _ & Hok); [right; lia|].
    rewrite H. cbn [mbind res_bind fst]. eexists. split; [reflexivity|].
    cbn [set_frame_output decompressed_vertices_u8]. split; [|assumption].
    apply (decompress_u8_replay anim _ f _ Hu); [lia|assumption].
Qed.

Lemma decompress_frame_replays_deltas_witness :
  exists m',
    decompress_frame
      (model_with straddle_anim None (junk_u8 <$> seq 0 1) (junk_v3 <$> seq 0 1) 0 0) 4
    = Ok m'
    ∧ replay_from_base straddle_anim 4
      = Ok (decompressed_vertices_u8 m', 4 * frame_bits straddle_anim)
    ∧ Forall VertexU8_ok (decompressed_vertices_u8 m').
Proof.
  refine (proj2 (decompress_frame_replays_deltas
                   (model_with straddle_anim None (junk_u8 <$> seq 0 1)
                      (junk_v3 <$> seq 0 1) 0 0)
                   straddle_anim 4 _ _ _ _) straddle_anim_wf).
  - reflexivity.
  - reflexivity.
  - reflexivity.
  - cbn. lia.
Defined.

(** The components wrap around and are not clamped: 250 + 9 gives 3 and
    3 - 9 gives 250. *)
Example wrap_around_not_clamped :
  decompress_u8 wrap_anim (junk_u8 <$> seq 0 1) 1
  = Ok ([ {| u8_x := 3; u8_y := 250; u8_z := 0 |} ], 10).
Proof. reflexivity. Qed.

(** C10.  Two models that carry the same animation data and have buffers of
    one element per vertex get the same two buffers from [decompress_frame]
    for the same frame index, whatever the buffers held before; running it
    again on its own result changes nothing; and on a well-formed chunk the
    result exists for every frame of the chunk.  (A NaN has one
    representation here: payload bits are not modelled.) *)
Theorem decompress_frame_deterministic
    (m1 m2 : RatModel) (anim : RatAnimation) (f : Z) :
  animation m1 = Some anim -> animation m2 = Some anim ->
  length (decompressed_vertices_u8 m1) = Z.to_nat (num_vertices anim) ->
  length (current_frame_vertices m1) = Z.to_nat (num_vertices anim) ->
  length (decompressed_vertices_u8 m2) = Z.to_nat (num_vertices anim) ->
  length (current_frame_vertices m2) = Z.to_nat (num_vertices anim) ->
  res_map frame_output (decompress_frame m1 f)
  = res_map frame_output (decompress_frame m2 f)
  ∧ (forall m', decompress_frame m1 f = Ok m' -> decompress_frame m' f = Ok m')
  ∧ (anim_wf anim -> 0 ≤ f < num_frames anim ->
     exists m', decompress_frame m1 f = Ok m').
Proof.
  intros Ha1 Ha2 Hu1 Hc1 Hu2 Hc2.
  rewrite (decompress_frame_eq m1 anim f) by assumption.
  rewrite (decompress_frame_eq m2 anim f) by assumption.
  rewrite (decompress_u8_scratch anim _ (decompressed_vertices_u8 m2)) by assumption.
  split; [|split].
  - destruct (decompress_u8 anim (decompressed_vertices_u8 m2) f); reflexivity.
  - intros m' H. apply bind_Ok in H. destruct H as (st & Hd & H). injection H as <-.
    pose proof (decompress_u8_length _ _ _ _ Hu2 Hd) as Hl.
    rewrite (decompress_frame_eq _ anim f); cbn; rewrite ?length_fmap; try assumption.
    rewrite (decompress_u8_scratch anim _ (decompressed_vertices_u8 m2)) by assumption.
    rewrite Hd. reflexivity.
  - intros Hwf Hf.
    destruct (decompress_u8_defined anim (decompressed_vertices_u8 m2) f Hwf Hu2)
      as (vs & H & _); [right; assumption|].
    rewrite H. eexists. reflexivity.
Qed.

Lemma decompress_frame_deterministic_witness :
  res_map frame_output (decompress_frame (sample_model junk_u8 junk_v3) 1)
  = res_map frame_output (decompress_frame (sample_model other_u8 other_v3) 1)
  ∧ exists m', decompress_frame (sample_model junk_u8 junk_v3) 1 = Ok m'
               ∧ decompress_frame m' 1 = Ok m'.
Proof.
  destruct (decompress_frame_deterministic
              (sample_model junk_u8 junk_v3) (sample_model other_u8 other_v3)
              sample_anim 1) as (Heq & Hidem & Hdef); try reflexivity.
  split; [exact Heq|].
  destruct (Hdef sample_anim_wf) as [m' Hm']; [cbn; lia|].
  exists m'. split; [exact Hm'|]. apply Hidem. exact Hm'.
Defined.

(** ** Seeking *)

Lemma frame_count_set_output (m : RatModel) vs cur f :
  rat_model_get_chunk_frame_count (Some (set_current_frame (set_frame_output m vs cur) f))
  = rat_model_get_chunk_frame_count (Some m).
Proof. reflexivity. Qed.

Lemma set_current_frame_same (m : RatModel) : set_current_frame m (current_frame m) = m.
Proof. destruct m; reflexivity. Qed.

(** A seek that is not short-circuited establishes the invariant. *)
Lemma update_establishes_inv (m m' : RatModel) (anim : RatAnimation) (l : Z) :
  is_valid m = true ->
  animation m = Some anim ->
  length (decompressed_vertices_u8 m) = Z.to_nat (num_vertices anim) ->
  length (current_frame_vertices m) = Z.to_nat (num_vertices anim) ->
  l ≠ current_frame m ->
  rat_model_update (Some m) l = Ok (Some m') ->
  model_inv m'.
Proof.
  intros Hv Ha Hu Hc Hne H. unfold rat_model_update in H.
  rewrite Hv in H. cbn [negb orb] in H.
  destruct (Z.eqb_spec l (current_frame m)); [contradiction|].
  set (fc := rat_model_get_chunk_frame_count (Some m)) in *.
  set (l' := if fc <=? l then (if 0 <? fc then fc - 1 else 0) else l) in *.
  rewrite (decompress_frame_eq m anim l') in H by assumption.
  rewrite bind_assoc in H. apply bind_Ok in H. destruct H as ([vs c] & Hd & H).
  cbn [mbind res_bind fst] in H. injection H as <-.
  pose proof (decompress_u8_length _ _ _ _ Hu Hd) as Hl. cbn [fst] in Hl.
  split; [exact Hv|]. exists anim. cbn [animation decompressed_vertices_u8
    current_frame_vertices current_frame set_current_frame set_frame_output].
  split; [exact Ha|]. split; [exact Hl|]. split; [rewrite length_fmap; exact Hl|].
  split.
  - rewrite frame_count_set_output. fold fc. unfold last_frame. subst l'.
    destruct (Z.leb_spec fc l); [right; reflexivity|left; assumption].
  - rewrite (decompress_frame_eq _ anim l'); cbn; rewrite ?length_fmap; try assumption.
    rewrite (decompress_u8_scratch anim vs (decompressed_vertices_u8 m)) by assumption.
    rewrite Hd. reflexivity.
Qed.

Lemma update_preserves_inv (m m' : RatModel) (l : Z) :
  model_inv m -> rat_model_update (Some m) l = Ok (Some m') -> model_inv m'.
Proof.
  intros Hinv H.
  destruct (Z.eq_dec l (current_frame m)) as [->|Hne].
  - unfold rat_model_update in H. rewrite Z.eqb_refl, orb_true_r in H.
    injection H as <-. assumption.
  - destruct Hinv as (Hv & anim & Ha & Hu & Hc & _ & _).
    eapply update_establishes_inv; eassumption.
Qed.

Lemma create_establishes_inv fs heap_u8 heap_v3 path tex (m : RatModel) :
  rat_model_create_from_chunk fs heap_u8 heap_v3 path tex = Ok m -> model_inv m.
Proof.
  unfold rat_model_create_from_chunk. intros H.
  apply bind_Ok in H. destruct H as (anim & _ & H).
  apply bind_Ok in H. destruct H as (base_dir & _ & H).
  apply bind_Ok in H. destruct H as (mesh & _ & H).
  apply bind_Ok in H. destruct H as ([m0|] & Hupd & H); [|discriminate].
  injection H as ->.
  eapply (update_establishes_inv _ m anim 0) in Hupd; try reflexivity; try assumption.
  - cbn. rewrite length_fmap, length_seq. reflexivity.
  - cbn. rewrite length_fmap, length_seq. reflexivity.
  - cbn. unfold UINT32_MAX. lia.
Qed.

Lemma reachable_inv (m : RatModel) : reachable m -> model_inv m.
Proof.
  induction 1 as [fs hu hv path tex m Hc | m l m' _ IH Hu].
  - eapply create_establishes_inv; eassumption.
  - eapply update_preserves_inv; eassumption.
Qed.

(** C4.  On a model obtained from [rat_model_create_from_chunk] and any
    number of seeks, a seek to a frame index at or past the frame count is
    the seek to the last frame ([frame_count - 1], or 0 when the count is
    0): same vertex buffers and same stored index.  On a well-formed chunk
    the seek yields a model. *)
Theorem seek_past_end_clamps (m : RatModel) (n : Z) :
  reachable m ->
  rat_model_get_chunk_frame_count (Some m) ≤ n ->
  rat_model_update (Some m) n
  = rat_model_update (Some m) (last_frame (rat_model_get_chunk_frame_count (Some m)))
  ∧ (forall anim, animation m = Some anim -> anim_wf anim ->
     exists m', rat_model_update (Some m) n = Ok (Some m')
                ∧ current_frame m' = last_frame (rat_model_get_chunk_frame_count (Some m))).
Proof.
  intros Hr Hn. apply reachable_inv in Hr.
  destruct Hr as (Hv & anim & Ha & Hu & Hc & Hcf & Hfix).
  set (fc := rat_model_get_chunk_frame_count (Some m)) in *.
  assert (Hclamp : (if fc <=? n then (if 0 <? fc then fc - 1 else 0) else n) = last_frame fc).
  { unfold last_frame. destruct (Z.leb_spec fc n); [reflexivity|lia]. }
  assert (Hclamp' : (if fc <=? last_frame fc then (if 0 <? fc then fc - 1 else 0)
                     else last_frame fc) = last_frame fc).
  { unfold last_frame. destruct (0 <? fc);
      match goal with |- (if ?b then _ else _) = _ => destruct b end; reflexivity. }
  assert (Hsame : n = current_frame m -> n = last_frame fc).
  { intros ->. destruct Hcf; [lia|assumption]. }
  assert (Heq : rat_model_update (Some m) n = rat_model_update (Some m) (last_frame fc)).
  { unfold rat_model_update. rewrite Hv. cbn [negb orb]. fold fc.
    rewrite Hclamp, Hclamp'.
    destruct (Z.eqb_spec n (current_frame m)) as [Hnc|Hnc].
    - rewrite <- (Hsame Hnc). rewrite Hnc, Z.eqb_refl. reflexivity.
    - destruct (Z.eqb_spec (last_frame fc) (current_frame m)) as [Hlc|Hlc]; [|reflexivity].
      rewrite Hlc, Hfix. cbn [mbind res_bind].
      rewrite set_current_frame_same. reflexivity. }
  split; [exact Heq|].
  intros anim' Ha' Hwf. rewrite Ha in Ha'. injection Ha' as <-.
  rewrite Heq. unfold rat_model_update. rewrite Hv. cbn [negb orb]. fold fc.
  rewrite Hclamp'.
  destruct (Z.eqb_spec (last_frame fc) (current_frame m)) as [Hlc|Hlc].
  - exists m. split; [reflexivity|]. symmetry. assumption.
  - rewrite (decompress_frame_eq m anim _) by assumption.
    destruct (decompress_u8_defined anim (decompressed_vertices_u8 m) (last_frame fc)
                Hwf Hu) as (vs & H & _).
    { unfold last_frame, fc, rat_model_get_chunk_frame_count. rewrite Ha.
      destruct (Z.eqb_spec (num_vertices anim) 0); [left; reflexivity|].
      destruct (Z.ltb_spec 0 (num_frames anim)); [right; lia|left; reflexivity]. }
    rewrite H. cbn [mbind res_bind fst]. eexists. split; reflexivity.
Qed.

Lemma seek_past_end_clamps_witness :
  exists m,
    rat_model_create_from_chunk sample_fs junk_u8 junk_v3 sample_chunk_path 3 = Ok m
    ∧ rat_model_get_chunk_frame_count (Some m) = 2
    ∧ rat_model_update (Some m) (2 + 5) = rat_model_update (Some m) (2 - 1)
    ∧ exists m', rat_model_update (Some m) (2 + 5) = Ok (Some m') ∧ current_frame m' = 1.
Proof.
  eexists. split; [vm_compute; reflexivity|]. split; [reflexivity|].
  match goal with
  | |- rat_model_update (Some ?m) _ = _ ∧ _ =>
      destruct (seek_past_end_clamps m (2 + 5)) as [Heq Hdef]
  end.
  - eapply (reach_create sample_fs junk_u8 junk_v3 sample_chunk_path 3).
    vm_compute. reflexivity.
  - vm_compute. discriminate.
  - split; [exact Heq|]. apply (Hdef sample_anim); [vm_compute; reflexivity|].
    exact sample_anim_wf.
Defined.

(** The sample chunk end to end: loaded from its files and moved to frame 1,
    vertex 0 is at [(1,1,1)] and vertex 1 at [(9,9,9)]. *)
Example sample_seek_frame_1 :
  res_map (option_map frame_output)
    (rat_model_create_from_chunk sample_fs junk_u8 junk_v3 sample_chunk_path 3
     ≫= fun m => rat_model_update (Some m) 1)
  = Ok (Some ([ {| u8_x := 1; u8_y := 1; u8_z := 1 |};
                {| u8_x := 9; u8_y := 9; u8_z := 9 |} ],
              [ {| v3_x := f32_of_Z 1; v3_y := f32_of_Z 1; v3_z := f32_of_Z 1 |};
                {| v3_x := f32_of_Z 9; v3_y := f32_of_Z 9; v3_z := f32_of_Z 9 |} ])).
Proof. vm_compute. reflexivity. Qed.

(** ** The 32-bit corner of the bitstream helpers *)

(** C2 (the code departs from the claim).  A 32-bit field that starts at a
    word boundary is within the claim's range and has its word in the
    stream, but [get_bits] takes the single-word branch and computes the
    mask as [(1U << 32) - 1], a shift by the full width of the operand,
    which C leaves undefined: there is no value the code is bound to
    return. *)
Theorem get_bits_width_32_aligned_undefined (data : list Z) (off : Z) :
  Z.of_nat (length data) ≤ UINT32_MAX ->
  0 ≤ off -> off mod 32 = 0 ->
  off + 32 ≤ 32 * Z.of_nat (length data) ->
  get_bits data off 32 = Undefined ShiftCount.
Proof.
  intros Hlen Hoff Hal Hfit. unfold get_bits, UINT32_MAX in *.
  change (32 =? 0) with false. cbv iota.
  assert (Hwi : 0 ≤ off / 32 < Z.of_nat (length data)).
  { split; [apply Z.div_pos; lia|]. apply Z.div_lt_upper_bound; lia. }
  rewrite (wrap_small 32 (off / 32)) by lia.
  rewrite Hal. change (wrap 32 0) with 0. change (0 + 32 <=? 32) with true. cbv iota.
  destruct (lookup_lt_is_Some_2 data (Z.to_nat (off / 32)) ltac:(lia)) as [w Hw].
  rewrite <- (Z2Nat.id (off / 32)) by lia.
  rewrite (load_Ok _ _ _ Hw). reflexivity.
Qed.

Lemma get_bits_width_32_aligned_undefined_witness :
  get_bits [0xFFFFFFFF] 0 32 = Undefined ShiftCount.
Proof.
  apply (get_bits_width_32_aligned_undefined [0xFFFFFFFF] 0).
  - cbn. unfold UINT32_MAX. lia.
  - lia.
  - reflexivity.
  - cbn. lia.
Defined.

(** C3 (the code departs from the claim).  At width 32 every value with
    bit 31 set makes [sign_extend] evaluate [~0U << 32], again a shift by
    the full width, where the claim wants the value reinterpreted as
    signed. *)
Theorem sign_extend_width_32_negative_undefined (v : Z) :
  Z.testbit v 31 = true -> sign_extend v 32 = Undefined ShiftCount.
Proof.
  intros Hb. unfold sign_extend.
  change (32 =? 0) with false. cbv iota. change (32 - 1) with 31.
  rewrite (shl32_Ok 1 31) by lia. cbn [mbind res_bind].
  change (wrap 32 (Z.shiftl 1 31)) with (2 ^ 31).
  rewrite land_pow2 by lia. rewrite Hb. reflexivity.
Qed.

Lemma sign_extend_width_32_negative_undefined_witness :
  sign_extend 0x80000000 32 = Undefined ShiftCount.
Proof. apply (sign_extend_width_32_negative_undefined 0x80000000). reflexivity. Defined.

(** At width 32 a value with bit 31 clear is returned as it is. *)
Lemma sign_extend_32_nonnegative (v : Z) :
  0 ≤ v < 2 ^ 31 -> sign_extend v 32 = Ok v.
Proof.
  intros Hv. unfold sign_extend.
  change (32 =? 0) with false. cbv iota. change (32 - 1) with 31.
  rewrite (shl32_Ok 1 31) by lia. cbn [mbind res_bind].
  change (wrap 32 (Z.shiftl 1 31)) with (2 ^ 31).
  rewrite land_pow2 by lia.
  assert (Hb : Z.testbit v 31 = false).
  { apply Z.testbit_false; [lia|]. rewrite Z.div_small by lia. reflexivity. }
  rewrite Hb. cbn [Z.eqb negb]. unfold to_int32.
  destruct (Z.ltb_spec v (2 ^ 31)); [reflexivity|lia].
Qed.

Example sign_extend_7_3 : sign_extend 7 3 = Ok (-1).
Proof. reflexivity. Qed.

Example sign_extend_3_3 : sign_extend 3 3 = Ok 3.
Proof. reflexivity. Qed.

Example sign_extend_width_0 (x : Z) : sign_extend x 0 = Ok 0.
Proof. reflexivity. Qed.

Example get_bits_20_at_24 :
  get_bits [0xAB000000; 0x00000CDE] 24 20 = Ok (0xCDEAB, 44).
Proof. reflexivity. Qed.

Example get_bits_width_0 (data : list Z) (off : Z) : get_bits data off 0 = Ok (0, off).
Proof. reflexivity. Qed.

(** ** The frame-count query *)

(** C5 as stated fails: an animation is loaded and has five frames on
    record, yet the query returns 0 because it has no vertices. *)
Lemma frame_count_zero_vertices_counterexample :
  animation no_vertex_model = Some no_vertex_anim
  ∧ num_frames no_vertex_anim = 5
  ∧ rat_model_get_chunk_frame_count (Some no_vertex_model) = 0.
Proof. repeat split. Qed.

(** C5, amended.  The query returns the recorded frame count whenever an
    animation with at least one vertex is loaded; it returns 0 exactly when
    the handle is null, no animation is loaded, the animation has no
    vertices, or the recorded count is itself 0. *)
Theorem frame_count_query (model : option RatModel) :
  (forall m anim, model = Some m -> animation m = Some anim ->
     num_vertices anim ≠ 0 ->
     rat_model_get_chunk_frame_count model = num_frames anim)
  ∧ (rat_model_get_chunk_frame_count model = 0 <->
     model = None
     ∨ exists m, model = Some m
         ∧ (animation m = None
            ∨ exists anim, animation m = Some anim
                ∧ (num_vertices anim = 0 ∨ num_frames anim = 0))).
Proof.
  unfold rat_model_get_chunk_frame_count. split.
  - intros m anim -> -> Hnv. destruct (Z.eqb_spec (num_vertices anim) 0); [contradiction|].
    reflexivity.
  - destruct model as [m|]; [|split; auto].
    destruct (animation m) as [anim|] eqn:Ha.
    + destruct (Z.eqb_spec (num_vertices anim) 0) as [Hz|Hnz].
      * split; [|reflexivity]. intros _. right. exists m. split; [reflexivity|].
        right. exists anim. auto.
      * split.
        -- intros H0. right. exists m. split; [reflexivity|]. right. exists anim. auto.
        -- intros [Hnone | (m' & Hm' & [Hnoanim | (anim' & Ha' & [Hv|Hf])])].
           ++ discriminate.
           ++ injection Hm' as <-. congruence.
           ++ injection Hm' as <-. rewrite Ha in Ha'. injection Ha' as <-. contradiction.
           ++ injection Hm' as <-. rewrite Ha in Ha'. injection Ha' as <-. assumption.
    + split; [|reflexivity]. intros _. right. exists m. auto.
Qed.

Lemma frame_count_query_witness :
  rat_model_get_chunk_frame_count (Some (sample_model junk_u8 junk_v3)) = 2.
Proof.
  apply (proj1 (frame_count_query (Some (sample_model junk_u8 junk_v3)))
           (sample_model junk_u8 junk_v3) sample_anim); [reflexivity|reflexivity|].
  cbn. lia.
Defined.

(** ** Rejection by the parsers *)

Lemma field32_Ok (buffer : list Z) (off : Z) :
  0 ≤ off -> off + 4 ≤ Z.of_nat (length buffer) ->
  field32 buffer off = Ok (header_u32 buffer off).
Proof.
  intros H0 H. unfold field32, read_bytes, header_u32.
  change (4 =? 0) with false. cbv iota.
  destruct (Z.leb_spec 0 off); [|lia].
  destruct (Z.leb_spec (off + 4) (Z.of_nat (length buffer))); [|lia]. reflexivity.
Qed.

Lemma field8_Ok (buffer : list Z) (off : Z) :
  0 ≤ off < Z.of_nat (length buffer) -> exists b, field8 buffer off = Ok b.
Proof.
  intros H. unfold field8.
  destruct (lookup_lt_is_Some_2 buffer (Z.to_nat off) ltac:(lia)) as [b Hb].
  exists b. rewrite <- (Z2Nat.id off) by lia. apply load_Ok. assumption.
Qed.

Lemma parse_rat_animation_rejects (buffer : list Z) :
  (Z.of_nat (length buffer) < sizeof_RatHeader ->
   parse_rat_animation buffer = Rejected Truncated)
  ∧ (sizeof_RatHeader ≤ Z.of_nat (length buffer) ->
     header_u32 buffer 0 ≠ RAT3_MAGIC ->
     parse_rat_animation buffer = Rejected BadMagic).
Proof.
  unfold parse_rat_animation, sizeof_RatHeader. split.
  - intros H. destruct (Z.ltb_spec (Z.of_nat (length buffer)) 64); [reflexivity|lia].
  - intros H Hm. destruct (Z.ltb_spec (Z.of_nat (length buffer)) 64); [lia|].
    rewrite (field32_Ok buffer 0) by lia. cbn [mbind res_bind].
    destruct (Z.eqb_spec (header_u32 buffer 0) RAT3_MAGIC); [contradiction|].
    reflexivity.
Qed.

Lemma parse_rat_mesh_data_rejects (buffer : list Z) :
  (Z.of_nat (length buffer) < sizeof_RatMeshHeader ->
   parse_rat_mesh_data buffer = Rejected Truncated)
  ∧ (sizeof_RatMeshHeader ≤ Z.of_nat (length buffer) ->
     header_u32 buffer 0 ≠ RATM_MAGIC ->
     parse_rat_mesh_data buffer = Rejected BadMagic).
Proof.
  unfold parse_rat_mesh_data, sizeof_RatMeshHeader. split.
  - intros H. destruct (Z.ltb_spec (Z.of_nat (length buffer)) 48); [reflexivity|lia].
  - intros H Hm. destruct (Z.ltb_spec (Z.of_nat (length buffer)) 48); [lia|].
    rewrite (field32_Ok buffer 0) by lia. cbn [mbind res_bind].
    destruct (Z.eqb_spec (header_u32 buffer 0) RATM_MAGIC); [contradiction|].
    reflexivity.
Qed.

(** C7.  Given the bytes of the file, each loader rejects a buffer shorter
    than its header as truncated and a buffer of at least header size whose
    little-endian word at offset 0 is not its magic constant as having a bad
    magic; no record comes out in either case. *)
Theorem parsers_reject_short_and_bad_magic
    (fs : filesystem) (path filename base_dir buffer : list Z) :
  (fs path = Some buffer ->
     (Z.of_nat (length buffer) < sizeof_RatHeader ->
      load_rat_animation fs path = Rejected Truncated)
     ∧ (sizeof_RatHeader ≤ Z.of_nat (length buffer) ->
        header_u32 buffer 0 ≠ RAT3_MAGIC ->
        load_rat_animation fs path = Rejected BadMagic))
  ∧ (fs (take 511 (base_dir ++ filename)) = Some buffer ->
     (Z.of_nat (length buffer) < sizeof_RatMeshHeader ->
      load_rat_mesh_data fs filename base_dir = Rejected Truncated)
     ∧ (sizeof_RatMeshHeader ≤ Z.of_nat (length buffer) ->
        header_u32 buffer 0 ≠ RATM_MAGIC ->
        load_rat_mesh_data fs filename base_dir = Rejected BadMagic)).
Proof.
  split; intros Hfs.
  - unfold load_rat_animation. rewrite Hfs. apply parse_rat_animation_rejects.
  - unfold load_rat_mesh_data. rewrite Hfs. apply parse_rat_mesh_data_rejects.
Qed.

Lemma parsers_reject_short_and_bad_magic_witness :
  load_rat_animation (fun _ => Some (take 63 sample_rat_file)) sample_chunk_path
    = Rejected Truncated
  ∧ load_rat_animation (fun _ => Some sample_mesh_file) sample_chunk_path
    = Rejected BadMagic
  ∧ load_rat_mesh_data (fun _ => Some (take 47 sample_mesh_file)) sample_mesh_name [97; 47]
    = Rejected Truncated
  ∧ load_rat_mesh_data (fun _ => Some sample_rat_file) sample_mesh_name [97; 47]
    = Rejected BadMagic.
Proof.
  split; [|split; [|split]].
  - apply (proj1 (parsers_reject_short_and_bad_magic
                    (fun _ => Some (take 63 sample_rat_file)) sample_chunk_path [] []
                    (take 63 sample_rat_file))); [reflexivity|].
    vm_compute. reflexivity.
  - apply (proj1 (parsers_reject_short_and_bad_magic
                    (fun _ => Some sample_mesh_file) sample_chunk_path [] []
                    sample_mesh_file)); [reflexivity| |].
    + vm_compute. discriminate.
    + vm_compute. discriminate.
  - apply (proj2 (parsers_reject_short_and_bad_magic
                    (fun _ => Some (take 47 sample_mesh_file)) [] sample_mesh_name [97; 47]
                    (take 47 sample_mesh_file))); [reflexivity|].
    vm_compute. reflexivity.
  - apply (proj2 (parsers_reject_short_and_bad_magic
                    (fun _ => Some sample_rat_file) [] sample_mesh_name [97; 47]
                    sample_rat_file)); [reflexivity| |].
    + vm_compute. discriminate.
    + vm_compute. discriminate.
Defined.

Example sample_rat_file_parses : parse_rat_animation sample_rat_file = Ok sample_anim.
Proof. vm_compute. reflexivity. Qed.

(** ** The embedded filenames *)

Lemma strncpy_pad_length (n : nat) (dest dest' : list Z) (d : Z) :
  strncpy_pad dest d n = Ok dest' -> length dest' = length dest.
Proof.
  revert dest d. induction n as [|n IH]; intros dest d H.
  - injection H as <-. reflexivity.
  - cbn [strncpy_pad] in H. apply bind_Ok in H. destruct H as (dest1 & Hs & H).
    apply store_inv in Hs. destruct Hs as (_ & _ & ->).
    apply IH in H. rewrite length_insert in H. assumption.
Qed.

Lemma strncpy_length (n : nat) (dest dest' src : list Z) (d s : Z) :
  strncpy dest src d s n = Ok dest' -> length dest' = length dest.
Proof.
  revert dest d s. induction n as [|n IH]; intros dest d s H.
  - injection H as <-. reflexivity.
  - cbn [strncpy] in H. apply bind_Ok in H. destruct H as (c & _ & H).
    apply bind_Ok in H. destruct H as (dest1 & Hs & H).
    apply store_inv in Hs. destruct Hs as (_ & _ & ->).
    destruct (c =? 0).
    + apply strncpy_pad_length in H. rewrite length_insert in H. assumption.
    + apply IH in H. rewrite length_insert in H. assumption.
Qed.

Lemma load_outcome {A} (a : list A) (i : Z) :
  (exists x, load a i = Ok x) ∨ load a i = Undefined OutOfBounds.
Proof.
  unfold load. destruct (i <? 0); [right; reflexivity|].
  destruct (a !! Z.to_nat i); [left; eauto|right; reflexivity].
Qed.

Lemma store_outcome {A} (a : list A) (i : Z) (x : A) :
  (exists a', store a i x = Ok a') ∨ store a i x = Undefined OutOfBounds.
Proof. unfold store. destruct (_ && _); [left; eauto|right; reflexivity]. Qed.

Lemma read_bytes_outcome (buffer : list Z) (off n : Z) :
  (exists bs, read_bytes buffer off n = Ok bs) ∨ read_bytes buffer off n = Undefined OutOfBounds.
Proof.
  unfold read_bytes. destruct (n =? 0); [left; eauto|].
  destruct (_ && _); [left; eauto|right; reflexivity].
Qed.

Lemma strncpy_pad_outcome (n : nat) (dest : list Z) (d : Z) :
  (exists dest', strncpy_pad dest d n = Ok dest')
  ∨ strncpy_pad dest d n = Undefined OutOfBounds.
Proof.
  revert dest d. induction n as [|n IH]; intros dest d; [left; eexists; reflexivity|].
  cbn [strncpy_pad].
  destruct (store_outcome dest d 0) as [[dest1 ->] | ->]; [|right; reflexivity].
  apply IH.
Qed.

Lemma strncpy_outcome (n : nat) (dest src : list Z) (d s : Z) :
  (exists dest', strncpy dest src d s n = Ok dest')
  ∨ strncpy dest src d s n = Undefined OutOfBounds.
Proof.
  revert dest d s. induction n as [|n IH]; intros dest d s; [left; eexists; reflexivity|].
  cbn [strncpy].
  destruct (load_outcome src s) as [[c ->] | ->]; [|right; reflexivity].
  cbn [mbind res_bind].
  destruct (store_outcome dest d c) as [[dest1 ->] | ->]; [|right; reflexivity].
  cbn [mbind res_bind].
  destruct (c =? 0); [apply strncpy_pad_outcome|apply IH].
Qed.

(** No declared filename length of 256 or more gets through the copy: the
    terminator, at the latest, is written past the field. *)
Lemma copy_filename_overflow (buffer : list Z) (off len : Z) :
  sizeof_filename_field ≤ len -> copy_filename buffer off len = Undefined OutOfBounds.
Proof.
  intros Hlen. unfold copy_filename.
  destruct (strncpy_outcome (Z.to_nat len) (replicate (Z.to_nat sizeof_filename_field) 0)
              buffer 0 off) as [[field Hcpy] | ->]; [|reflexivity].
  rewrite Hcpy. cbn [mbind res_bind].
  apply strncpy_length in Hcpy. rewrite length_replicate in Hcpy.
  unfold store. rewrite Hcpy. unfold sizeof_filename_field in *.
  destruct (Z.ltb_spec len (Z.of_nat (Z.to_nat 256))); [lia|].
  rewrite andb_false_r. reflexivity.
Qed.

(** A non-empty filename declared at or past the end of the file makes the
    copy read outside the input buffer. *)
Lemma copy_filename_past_end (buffer : list Z) (off len : Z) :
  Z.of_nat (length buffer) ≤ off -> 1 ≤ len ->
  copy_filename buffer off len = Undefined OutOfBounds.
Proof.
  intros Hoff Hlen. unfold copy_filename.
  replace (Z.to_nat len) with (S (Z.to_nat (len - 1))) by lia.
  cbn [strncpy]. unfold load at 1.
  destruct (Z.ltb_spec off 0); [reflexivity|].
  rewrite lookup_ge_None_2 by lia. reflexivity.
Qed.

Lemma strncpy_pad_in_bounds (n : nat) (dest : list Z) (d : Z) :
  0 ≤ d -> d + Z.of_nat n ≤ Z.of_nat (length dest) ->
  exists dest', strncpy_pad dest d n = Ok dest'.
Proof.
  revert dest d. induction n as [|n IH]; intros dest d Hd Hfit; [eexists; reflexivity|].
  cbn [strncpy_pad]. rewrite store_Ok_Z by lia. cbn [mbind res_bind].
  apply IH; [lia|]. rewrite length_insert. lia.
Qed.

Lemma strncpy_in_bounds (n : nat) (dest src : list Z) (d s : Z) :
  0 ≤ d -> 0 ≤ s ->
  d + Z.of_nat n ≤ Z.of_nat (length dest) ->
  s + Z.of_nat n ≤ Z.of_nat (length src) ->
  exists dest', strncpy dest src d s n = Ok dest'.
Proof.
  revert dest d s. induction n as [|n IH]; intros dest d s Hd Hs Hdf Hsf;
    [eexists; reflexivity|].
  cbn [strncpy].
  destruct (lookup_lt_is_Some_2 src (Z.to_nat s) ltac:(lia)) as [c Hc].
  rewrite (load_Ok_Z _ _ _ Hs Hc). cbn [mbind res_bind].
  rewrite store_Ok_Z by lia. cbn [mbind res_bind].
  destruct (c =? 0).
  - apply strncpy_pad_in_bounds; [lia|]. rewrite length_insert. lia.
  - apply IH; try lia. rewrite length_insert. lia.
Qed.

(** What does hold: a declared name of at most 255 bytes that lies inside
    the file is copied without leaving the buffer or the field. *)
Lemma copy_filename_in_bounds (buffer : list Z) (off len : Z) :
  0 ≤ off -> 0 ≤ len < sizeof_filename_field ->
  off + len ≤ Z.of_nat (length buffer) ->
  exists field, copy_filename buffer off len = Ok field ∧ length field = 256%nat.
Proof.
  intros Hoff Hlen Hfit. unfold copy_filename, sizeof_filename_field in *.
  destruct (strncpy_in_bounds (Z.to_nat len) (replicate (Z.to_nat 256) 0) buffer 0 off)
    as [field Hcpy]; try lia.
  { rewrite length_replicate. lia. }
  rewrite Hcpy. cbn [mbind res_bind].
  apply strncpy_length in Hcpy. rewrite length_replicate in Hcpy.
  rewrite store_Ok_Z by lia.
  eexists. split; [reflexivity|]. rewrite length_insert. lia.
Qed.

(** C6 (the code departs from the claim).  Neither parser checks the
    declared filename length or offset.  Every animation chunk with a valid
    header that declares a mesh filename of 256 bytes or more, or a
    non-empty one at or past the end of the file, and every mesh file with a
    valid header that declares a texture filename of 256 bytes or more, ends
    in an access outside the filename field or the input buffer. *)
Theorem filename_copy_out_of_bounds (buffer : list Z) :
  (sizeof_RatHeader ≤ Z.of_nat (length buffer) ->
   header_u32 buffer 0 = RAT3_MAGIC ->
   sizeof_filename_field ≤ header_u32 buffer 28
   ∨ (Z.of_nat (length buffer) ≤ header_u32 buffer 24 ∧ 1 ≤ header_u32 buffer 28) ->
   parse_rat_animation buffer = Undefined OutOfBounds)
  ∧ (sizeof_RatMeshHeader ≤ Z.of_nat (length buffer) ->
     header_u32 buffer 0 = RATM_MAGIC ->
     sizeof_filename_field ≤ header_u32 buffer 28 ->
     parse_rat_mesh_data buffer = Undefined OutOfBounds).
Proof.
  split.
  - intros Hsize Hmagic Hname. unfold parse_rat_animation, sizeof_RatHeader in *.
    destruct (Z.ltb_spec (Z.of_nat (length buffer)) 64); [lia|].
    rewrite !field32_Ok by lia. cbn [mbind res_bind].
    rewrite Hmagic, Z.eqb_refl. cbn [negb mbind res_bind].
    destruct (field8_Ok buffer 56 ltac:(lia)) as [b ->]. cbn [mbind res_bind].
    destruct Hname as [Hlong | [Hpast Hnonempty]].
    + rewrite copy_filename_overflow by assumption. reflexivity.
    + rewrite copy_filename_past_end by assumption. reflexivity.
  - intros Hsize Hmagic Hname. unfold parse_rat_mesh_data, sizeof_RatMeshHeader in *.
    destruct (Z.ltb_spec (Z.of_nat (length buffer)) 48); [lia|].
    rewrite !field32_Ok by lia. cbn [mbind res_bind].
    rewrite Hmagic, Z.eqb_refl. cbn [negb mbind res_bind].
    destruct (read_bytes_outcome buffer (header_u32 buffer 12) (8 * header_u32 buffer 4))
      as [[uv ->] | ->]; [|reflexivity].
    cbn [mbind res_bind].
    destruct (read_bytes_outcome buffer (header_u32 buffer 16) (16 * header_u32 buffer 4))
      as [[col ->] | ->]; [|reflexivity].
    cbn [mbind res_bind].
    destruct (read_bytes_outcome buffer (header_u32 buffer 20) (2 * header_u32 buffer 8))
      as [[idx ->] | ->]; [|reflexivity].
    cbn [mbind res_bind].
    rewrite copy_filename_overflow by assumption. reflexivity.
Qed.

Lemma filename_copy_out_of_bounds_witness :
  parse_rat_animation long_name_rat_file = Undefined OutOfBounds
  ∧ parse_rat_animation name_past_end_rat_file = Undefined OutOfBounds
  ∧ parse_rat_mesh_data long_name_mesh_file = Undefined OutOfBounds.
Proof.
  split; [|split].
  - apply (proj1 (filename_copy_out_of_bounds long_name_rat_file)).
    + vm_compute. discriminate.
    + reflexivity.
    + left. vm_compute. discriminate.
  - apply (proj1 (filename_copy_out_of_bounds name_past_end_rat_file)).
    + vm_compute. discriminate.
    + reflexivity.
    + right. split; vm_compute; discriminate.
  - apply (proj2 (filename_copy_out_of_bounds long_name_mesh_file)).
    + vm_compute. discriminate.
    + reflexivity.
    + vm_compute. discriminate.
Defined.

(** ** Flat bounding boxes *)

Lemma f32_div_by_zero (a : float) (s : bool) :
  f32_trunc (f32_div a (S754_zero s)) = None.
Proof. destruct a; reflexivity. Qed.

(** On an axis with [max - min] zero the quantization divides by zero, and
    the quotient, an infinity or a NaN, has no [uint8_t] value. *)
Lemma quantize_flat_axis (raw mn mx : float) :
  f32_is_zero (f32_sub mx mn) = true -> quantize raw mn mx = Undefined FloatToInt.
Proof.
  unfold quantize, f32_to_u8, f32_is_zero. intros H.
  destruct (f32_sub mx mn) as [s| | |]; try discriminate.
  rewrite f32_div_by_zero. reflexivity.
Qed.

Lemma quantize_outcome (raw mn mx : float) :
  (exists q, quantize raw mn mx = Ok q) ∨ quantize raw mn mx = Undefined FloatToInt.
Proof.
  unfold quantize, f32_to_u8.
  destruct (f32_trunc _) as [n|]; [|right; reflexivity].
  destruct (_ && _); [left; eauto|right; reflexivity].
Qed.

(** C8 (the code departs from the claim).  For a raw base frame with at
    least one vertex and a bounding box that is flat on some axis, the
    divisor [max - min] of the quantization on that axis is zero, there is
    no guard, and [decompress_frame] ends, for every frame index, in the
    conversion to [uint8_t] of a quotient that has no such value. *)
Theorem flat_bounding_box_divides_by_zero (m : RatModel) (anim : RatAnimation) (f : Z) :
  animation m = Some anim ->
  is_first_frame_raw anim = true ->
  0 < num_vertices anim ->
  first_frame_raw anim ≠ [] ->
  length (decompressed_vertices_u8 m) = Z.to_nat (num_vertices anim) ->
  f32_is_zero (f32_sub (max_x anim) (min_x anim)) = true
  ∨ f32_is_zero (f32_sub (max_y anim) (min_y anim)) = true
  ∨ f32_is_zero (f32_sub (max_z anim) (min_z anim)) = true ->
  decompress_frame m f = Undefined FloatToInt.
Proof.
  intros Ha Hraw Hnv Hne Hlen Hflat.
  assert (Hseed : seed_frame0 anim (decompressed_vertices_u8 m) = Undefined FloatToInt).
  { unfold seed_frame0. rewrite Hraw.
    replace (Z.to_nat (num_vertices anim)) with (S (Z.to_nat (num_vertices anim - 1))) by lia.
    cbn [for_loop].
    destruct (first_frame_raw anim) as [|r raw] eqn:Er; [contradiction|].
    destruct (decompressed_vertices_u8 m) as [|p prev] eqn:Ep; [cbn in Hlen; lia|].
    assert (Hq : quantize_vertex anim 0 (p :: prev) = Undefined FloatToInt).
    { unfold quantize_vertex. rewrite Er.
      change (load (r :: raw) 0) with (Ok r). cbn [mbind res_bind].
      destruct (quantize_outcome (v3_x r) (min_x anim) (max_x anim)) as [[qx Hx] | Hx];
        [|rewrite Hx; reflexivity].
      destruct Hflat as [Hf | Hflat];
        [rewrite (quantize_flat_axis _ _ _ Hf) in Hx; discriminate|].
      rewrite Hx. cbn [mbind res_bind].
      change (upd (p :: prev) 0 (set_u8_x qx)) with (Ok (set_u8_x qx p :: prev)).
      cbn [mbind res_bind].
      destruct (quantize_outcome (v3_y r) (min_y anim) (max_y anim)) as [[qy Hy] | Hy];
        [|rewrite Hy; reflexivity].
      destruct Hflat as [Hf | Hf];
        [rewrite (quantize_flat_axis _ _ _ Hf) in Hy; discriminate|].
      rewrite Hy. cbn [mbind res_bind].
      change (upd (set_u8_x qx p :: prev) 0 (set_u8_y qy))
        with (Ok (set_u8_y qy (set_u8_x qx p) :: prev)).
      cbn [mbind res_bind].
      rewrite (quantize_flat_axis _ _ _ Hf). reflexivity. }
    rewrite Hq. reflexivity. }
  unfold decompress_frame, decompress_u8. rewrite Ha, Hseed.
  destruct (f =? 0); reflexivity.
Qed.

Lemma flat_bounding_box_divides_by_zero_witness :
  f32_sub (max_x flat_anim) (min_x flat_anim) = S754_zero false
  ∧ decompress_frame flat_model 0 = Undefined FloatToInt.
Proof.
  split; [reflexivity|].
  apply (flat_bounding_box_divides_by_zero flat_model flat_anim 0).
  - reflexivity.
  - reflexivity.
  - cbn. lia.
  - discriminate.
  - reflexivity.
  - left. reflexivity.
Defined.

(** * Further properties of the code *)

(** ** The bitstream helpers *)

Lemma testbit_above (v w j : Z) :
  0 ≤ v < 2 ^ w -> w ≤ j -> Z.testbit v j = false.
Proof.
  intros Hv Hj.
  destruct (Z.lt_ge_cases w 0) as [Hneg|Hw].
  - rewrite Z.pow_neg_r in Hv by assumption. lia.
  - apply Z.testbit_false; [lia|]. rewrite Z.div_small; [reflexivity|].
    assert (2 ^ w ≤ 2 ^ j) by (apply Z.pow_le_mono_r; lia). lia.
Qed.

(** X1.  Every read that lies inside the stream, other than a 32-bit read at
    a word boundary, succeeds: [get_bits] returns a value below [2^width]
    whose bit [j] is bit [offset + j] of the stream (bit 0 being the least
    significant bit of word 0), in one word or across two, and the new
    offset is the old one plus the width. *)
Theorem get_bits_reads_field (data : list Z) (off w : Z) :
  Forall (fun x => 0 ≤ x < 2 ^ 32) data ->
  Z.of_nat (length data) ≤ UINT32_MAX ->
  0 ≤ off -> 0 ≤ w ≤ 32 ->
  off + w ≤ 32 * Z.of_nat (length data) ->
  ¬ (w = 32 ∧ off mod 32 = 0) ->
  exists v,
    get_bits data off w = Ok (v, off + w)
    ∧ 0 ≤ v < 2 ^ w
    ∧ forall j, 0 ≤ j -> Z.testbit v j = (j <? w) && stream_bit data (off + j).
Proof.
  intros Hwords Hlen Hoff Hw Hfit Hnot.
  destruct (get_bits_field data off w Hwords Hlen Hoff Hw Hfit Hnot) as (v & Hg & Hv & Hbits).
  exists v. split; [assumption|]. split; [assumption|].
  intros j Hj. destruct (Z.ltb_spec j w) as [Hlt|Hge]; cbn [andb].
  - apply Hbits. lia.
  - apply (testbit_above v w); assumption.
Qed.

Lemma get_bits_reads_field_witness :
  exists v,
    get_bits [0xAB000000; 0x00000CDE] 24 20 = Ok (v, 24 + 20)
    ∧ 0 ≤ v < 2 ^ 20
    ∧ forall j, 0 ≤ j ->
        Z.testbit v j = (j <? 20) && stream_bit [0xAB000000; 0x00000CDE] (24 + j).
Proof.
  apply (get_bits_reads_field [0xAB000000; 0x00000CDE] 24 20).
  - repeat (apply Forall_cons; split; [lia|]). apply Forall_nil. exact I.
  - cbn. unfold UINT32_MAX. lia.
  - lia.
  - lia.
  - cbn. lia.
  - intros [H _]. discriminate H.
Defined.



(** X3.  Two reads in succession return the two halves of what one read of
    the combined width returns: the first value is the low part, the second
    the high part, and the cursor ends at the same place. *)
Theorem get_bits_split (data : list Z) (off w1 w2 : Z) :
  Forall (fun x => 0 ≤ x < 2 ^ 32) data ->
  Z.of_nat (length data) ≤ UINT32_MAX ->
  0 ≤ off -> 0 ≤ w1 -> 0 ≤ w2 -> w1 + w2 ≤ 31 ->
  off + w1 + w2 ≤ 32 * Z.of_nat (length data) ->
  exists v1 v2,
    get_bits data off w1 = Ok (v1, off + w1)
    ∧ get_bits data (off + w1) w2 = Ok (v2, off + w1 + w2)
    ∧ get_bits data off (w1 + w2) = Ok (v1 + 2 ^ w1 * v2, off + (w1 + w2)).
Proof.
  intros Hwords Hlen Hoff H1 H2 Hsum Hfit.
  destruct (get_bits_field data off w1) as (v1 & Hg1 & Hv1 & Hb1); try assumption; try lia.
  destruct (get_bits_field data (off + w1) w2) as (v2 & Hg2 & Hv2 & Hb2);
    try assumption; try lia.
  destruct (get_bits_field data off (w1 + w2)) as (v & Hg & Hv & Hb);
    try assumption; try lia.
  exists v1, v2. split; [assumption|]. split; [assumption|].
  rewrite Hg. do 2 f_equal.
  assert (Hlow : v mod 2 ^ w1 = v1).
  { apply Z.bits_inj'. intros j Hj.
    destruct (Z.lt_ge_cases j w1) as [Hlt|Hge].
    - rewrite Z.mod_pow2_bits_low by lia. rewrite Hb, Hb1 by lia. reflexivity.
    - rewrite Z.mod_pow2_bits_high by lia. symmetry.
      apply (testbit_above v1 w1); assumption. }
  assert (Hhigh : v / 2 ^ w1 = v2).
  { apply Z.bits_inj'. intros j Hj.
    rewrite Z.div_pow2_bits by lia.
    destruct (Z.lt_ge_cases j w2) as [Hlt|Hge].
    - rewrite Hb, Hb2 by lia. f_equal. lia.
    - rewrite (testbit_above v (w1 + w2)) by lia.
      symmetry. apply (testbit_above v2 w2); assumption. }
  rewrite (Z.div_mod v (2 ^ w1)) by (apply Z.pow_nonzero; lia).
  rewrite Hlow, Hhigh. lia.
Qed.

Lemma get_bits_split_witness :
  exists v1 v2,
    get_bits [0xAB000000; 0x00000CDE] 24 12 = Ok (v1, 24 + 12)
    ∧ get_bits [0xAB000000; 0x00000CDE] (24 + 12) 8 = Ok (v2, 24 + 12 + 8)
    ∧ get_bits [0xAB000000; 0x00000CDE] 24 (12 + 8)
      = Ok (v1 + 2 ^ 12 * v2, 24 + (12 + 8)).
Proof.
  apply (get_bits_split [0xAB000000; 0x00000CDE] 24 12 8).
  - repeat (apply Forall_cons; split; [lia|]). apply Forall_nil. exact I.
  - cbn. unfold UINT32_MAX. lia.
  - lia.
  - lia.
  - lia.
  - lia.
  - cbn. lia.
Defined.

(** X4.  Storing a signed delta in [w] bits and extending it again gives the
    delta back, for every width from 1 to 31 and every delta of that signed
    range; and the result of [sign_extend] on a [w]-bit field always lies in
    that range. *)
Theorem sign_extend_round_trip (w d : Z) :
  1 ≤ w ≤ 31 ->
  (- 2 ^ (w - 1) ≤ d < 2 ^ (w - 1) -> sign_extend (d mod 2 ^ w) w = Ok d)
  ∧ (0 ≤ d < 2 ^ w ->
     exists s, sign_extend d w = Ok s ∧ - 2 ^ (w - 1) ≤ s < 2 ^ (w - 1)
               ∧ s mod 2 ^ w = d).
Proof.
  intros Hw.
  assert (Hpw : 2 ^ w = 2 * 2 ^ (w - 1)).
  { replace w with (1 + (w - 1)) at 1 by lia. rewrite Z.pow_add_r by lia. reflexivity. }
  assert (Hpos : 0 < 2 ^ (w - 1)) by (apply Z.pow_pos_nonneg; lia).
  split.
  - intros Hd.
    pose proof (Z.mod_pos_bound d (2 ^ w) ltac:(lia)) as Hm.
    rewrite sign_extend_field by assumption. f_equal.
    destruct (Z.lt_ge_cases d 0) as [Hneg|Hnn].
    + assert (Hv : d mod 2 ^ w = d + 2 ^ w).
      { symmetry. apply (Z.mod_unique d (2 ^ w) (-1)); [left|]; lia. }
      rewrite Hv. destruct (Z.ltb_spec (d + 2 ^ w) (2 ^ (w - 1))); lia.
    + rewrite Z.mod_small by lia.
      destruct (Z.ltb_spec d (2 ^ (w - 1))); lia.
  - intros Hd. rewrite sign_extend_field by assumption.
    eexists. split; [reflexivity|].
    destruct (Z.ltb_spec d (2 ^ (w - 1))) as [Hlt|Hge].
    + split; [lia|]. apply Z.mod_small. lia.
    + split; [lia|]. symmetry. apply (Z.mod_unique (d - 2 ^ w) (2 ^ w) (-1)); [left|]; lia.
Qed.

Lemma sign_extend_round_trip_witness :
  sign_extend ((-3) mod 2 ^ 4) 4 = Ok (-3)
  ∧ exists s, sign_extend 13 4 = Ok s ∧ - 2 ^ (4 - 1) ≤ s < 2 ^ (4 - 1) ∧ s mod 2 ^ 4 = 13.
Proof.
  destruct (sign_extend_round_trip 4 (-3)) as [Hrt _]; [lia|].
  destruct (sign_extend_round_trip 4 13) as [_ Hrange]; [lia|].
  split; [apply Hrt; cbn; lia | apply Hrange; cbn; lia].
Defined.

(** X5.  Because the components wrap around, eight bits per delta reach
    every component value from every other: the difference modulo 256, read
    back through [sign_extend] at width 8 and added by the [+=] of the loop,
    gives the target, without overflow of the intermediate [int]. *)
Theorem eight_bit_delta_reaches_any_component (c t : Z) :
  0 ≤ c ≤ 255 -> 0 ≤ t ≤ 255 ->
  exists d,
    sign_extend ((t - c) mod 256) 8 = Ok d
    ∧ - 128 ≤ d < 128
    ∧ add_assign_u8 c d = Ok t.
Proof.
  intros Hc Ht.
  pose proof (Z.mod_pos_bound (t - c) 256 ltac:(lia)) as Hm.
  rewrite (sign_extend_field ((t - c) mod 256) 8) by (cbn; lia).
  change (2 ^ (8 - 1)) with 128. change (2 ^ 8) with 256.
  eexists. split; [reflexivity|].
  set (v := (t - c) mod 256) in *.
  assert (Hcong : (c + v) mod 256 = t).
  { subst v. rewrite Zplus_mod_idemp_r. replace (c + (t - c)) with t by lia.
    apply Z.mod_small. lia. }
  destruct (Z.ltb_spec v 128) as [Hlt|Hge].
  - split; [lia|]. rewrite add_assign_u8_Ok by lia. f_equal. exact Hcong.
  - split; [lia|]. rewrite add_assign_u8_Ok by lia. f_equal.
    unfold wrapping_add_u8. rewrite <- Hcong.
    replace (c + (v - 256)) with (c + v + (-1) * 256) by lia.
    apply Z.mod_add. lia.
Qed.

Lemma eight_bit_delta_reaches_any_component_witness :
  exists d,
    sign_extend ((3 - 250) mod 256) 8 = Ok d ∧ - 128 ≤ d < 128
    ∧ add_assign_u8 250 d = Ok 3.
Proof. apply (eight_bit_delta_reaches_any_component 250 3); lia. Defined.

(** ** The embedded filename *)

Lemma c_string_length (l : list Z) : (length (c_string l) ≤ length l)%nat.
Proof.
  induction l as [|c l IH]; cbn [c_string]; [lia|].
  destruct (c =? 0); cbn [length]; lia.
Qed.

Lemma c_string_app_zero (l r : list Z) : c_string (c_string l ++ 0 :: r) = c_string l.
Proof.
  induction l as [|c l IH]; cbn [c_string app]; [reflexivity|].
  destruct (Z.eqb_spec c 0) as [->|Hc]; [reflexivity|].
  cbn [c_string app]. destruct (Z.eqb_spec c 0); [contradiction|].
  rewrite IH. reflexivity.
Qed.

Lemma c_string_no_nul (l : list Z) : Forall (fun c => c ≠ 0) l -> c_string l = l.
Proof.
  induction 1 as [|c l Hc _ IH]; cbn [c_string]; [reflexivity|].
  destruct (Z.eqb_spec c 0); [contradiction|]. rewrite IH. reflexivity.
Qed.

Lemma strncpy_pad_zeros (n : nat) (pre : list Z) (k : nat) (d : nat) :
  (length pre ≤ d)%nat -> (d + n ≤ length pre + k)%nat ->
  strncpy_pad (pre ++ replicate k 0) (Z.of_nat d) n = Ok (pre ++ replicate k 0).
Proof.
  revert d. induction n as [|n IH]; intros d Hd Hfit; [reflexivity|].
  cbn [strncpy_pad].
  rewrite store_Ok by (rewrite length_app, length_replicate; lia).
  cbn [mbind res_bind].
  rewrite list_insert_id.
  - replace (Z.of_nat d + 1) with (Z.of_nat (S d)) by lia. apply IH; lia.
  - rewrite lookup_app_r by lia. apply lookup_replicate. split; [reflexivity|lia].
Qed.

Lemma strncpy_zeroed (n : nat) (pre : list Z) (k : nat) (src : list Z) (s : nat) :
  (s + n ≤ length src)%nat -> (n ≤ k)%nat ->
  strncpy (pre ++ replicate k 0) src (Z.of_nat (length pre)) (Z.of_nat s) n
  = Ok (pre ++ c_string (take n (drop s src))
        ++ replicate (k - length (c_string (take n (drop s src)))) 0).
Proof.
  revert pre k s. induction n as [|n IH]; intros pre k s Hsrc Hk.
  - cbn [strncpy take c_string app length]. rewrite Nat.sub_0_r. reflexivity.
  - destruct (lookup_lt_is_Some_2 src s ltac:(lia)) as [c Hc].
    cbn [strncpy]. rewrite (load_Ok _ _ _ Hc). cbn [mbind res_bind].
    rewrite store_Ok by (rewrite length_app, length_replicate; lia).
    cbn [mbind res_bind].
    rewrite (drop_S _ _ _ Hc). cbn [take c_string].
    destruct k as [|k]; [lia|].
    rewrite insert_app_r_alt by lia. rewrite Nat.sub_diag. cbn [replicate].
    change (<[0%nat := c]> (0 :: replicate k 0)) with (c :: replicate k 0).
    destruct (Z.eqb_spec c 0) as [->|Hne].
    + cbn [app length]. rewrite Nat.sub_0_r.
      replace (Z.of_nat (length pre) + 1) with (Z.of_nat (S (length pre))) by lia.
      apply (strncpy_pad_zeros n pre (S k)); lia.
    + replace (pre ++ c :: replicate k 0) with ((pre ++ [c]) ++ replicate k 0)
        by (rewrite <- app_assoc; reflexivity).
      replace (Z.of_nat (length pre) + 1) with (Z.of_nat (length (pre ++ [c])))
        by (rewrite length_app; cbn; lia).
      replace (Z.of_nat s + 1) with (Z.of_nat (S s)) by lia.
      rewrite IH by lia. cbn [length]. rewrite <- app_assoc. reflexivity.
Qed.

(** X6.  For a declared name of at most 255 bytes that lies inside the file,
    the filename field after the copy is the declared bytes up to their
    first NUL, padded with NUL to 256 bytes; read as a C string it is that
    name, and it is all of the declared bytes when none of them is NUL. *)
Theorem copy_filename_extracts_name (buffer : list Z) (off len : Z) :
  0 ≤ off -> 0 ≤ len < sizeof_filename_field ->
  off + len ≤ Z.of_nat (length buffer) ->
  let declared := take (Z.to_nat len) (drop (Z.to_nat off) buffer) in
  exists field,
    copy_filename buffer off len = Ok field
    ∧ field = c_string declared ++ replicate (256 - length (c_string declared)) 0
    ∧ c_string field = c_string declared
    ∧ (Forall (fun c => c ≠ 0) declared -> c_string field = declared).
Proof.
  intros Hoff Hlen Hfit declared. unfold copy_filename, sizeof_filename_field in *.
  change (Z.to_nat 256) with 256%nat.
  pose proof (strncpy_zeroed (Z.to_nat len) [] 256 buffer (Z.to_nat off)
                ltac:(lia) ltac:(lia)) as Hcpy.
  cbn [app length] in Hcpy. change (Z.of_nat 0) with 0 in Hcpy.
  rewrite Z2Nat.id in Hcpy by lia. fold declared in Hcpy.
  rewrite Hcpy. cbn [mbind res_bind].
  pose proof (c_string_length declared) as Hcl.
  assert (Hdl : (length declared ≤ Z.to_nat len)%nat).
  { subst declared. rewrite length_take. lia. }
  rewrite store_Ok_Z by (rewrite length_app, length_replicate; lia).
  rewrite list_insert_id.
  - eexists. split; [reflexivity|]. split; [reflexivity|].
    assert (Hcs : c_string (c_string declared
                            ++ replicate (256 - length (c_string declared)) 0)
                  = c_string declared).
    { replace (256 - length (c_string declared))%nat
        with (S (255 - length (c_string declared))) by lia.
      cbn [replicate]. apply c_string_app_zero. }
    split; [exact Hcs|].
    intros Hnn. rewrite Hcs. apply c_string_no_nul. assumption.
  - rewrite lookup_app_r by lia. apply lookup_replicate. split; [reflexivity|lia].
Qed.

Lemma copy_filename_extracts_name_witness :
  exists field,
    copy_filename sample_rat_file 76 9 = Ok field
    ∧ c_string field = sample_mesh_name.
Proof.
  destruct (copy_filename_extracts_name sample_rat_file 76 9) as (field & H & _ & _ & Hname).
  - lia.
  - unfold sizeof_filename_field. lia.
  - cbn. lia.
  - exists field. split; [exact H|]. apply Hname.
    repeat (apply Forall_cons; split; [discriminate|]). apply Forall_nil. exact I.
Defined.

(** ** What a successful parse has established *)

Lemma le_value_range (bs : list Z) :
  Forall is_byte bs -> 0 ≤ le_value bs < 256 ^ Z.of_nat (length bs).
Proof.
  unfold is_byte. induction 1 as [|b bs Hb _ IH]; cbn [le_value foldr length].
  - cbn. lia.
  - fold (le_value bs). rewrite Nat2Z.inj_succ, Z.pow_succ_r by lia. lia.
Qed.

Lemma le_value_word (bs : list Z) :
  Forall is_byte bs -> (length bs ≤ 4)%nat -> 0 ≤ le_value bs < 2 ^ 32.
Proof.
  intros Hb Hl. pose proof (le_value_range bs Hb) as H.
  assert (256 ^ Z.of_nat (length bs) ≤ 256 ^ 4) by (apply Z.pow_le_mono_r; lia).
  change (256 ^ 4) with (2 ^ 32) in *. lia.
Qed.

Lemma header_u32_range (buffer : list Z) (off : Z) :
  Forall is_byte buffer -> 0 ≤ header_u32 buffer off < 2 ^ 32.
Proof.
  intros Hb. unfold header_u32. apply le_value_word.
  - apply Forall_take, Forall_drop, Hb.
  - rewrite length_take. lia.
Qed.

Lemma read_bytes_inv (buffer : list Z) (off n : Z) (bs : list Z) :
  0 ≤ n -> read_bytes buffer off n = Ok bs ->
  length bs = Z.to_nat n
  ∧ (Forall is_byte buffer -> Forall is_byte bs)
  ∧ (n ≠ 0 -> 0 ≤ off ∧ off + n ≤ Z.of_nat (length buffer)).
Proof.
  intros Hn. unfold read_bytes.
  destruct (Z.eqb_spec n 0) as [->|Hne].
  - intros [= <-]. repeat split; try constructor; try lia.
  - destruct (Z.leb_spec 0 off); cbn [andb]; [|discriminate].
    destruct (Z.leb_spec (off + n) (Z.of_nat (length buffer))); [|discriminate].
    intros [= <-]. split; [|split].
    + rewrite length_take, length_drop. lia.
    + intros Hb. apply Forall_take, Forall_drop, Hb.
    + intros _. lia.
Qed.

Lemma length_decode_array {A} (k : nat) (dec : list Z -> A) (n : nat) (bs : list Z) :
  length (decode_array k dec n bs) = n.
Proof.
  revert bs. induction n as [|n IH]; intros bs; cbn [decode_array length]; [reflexivity|].
  rewrite IH. reflexivity.
Qed.

Lemma Forall_decode_array {A} (P : A -> Prop) (k : nat) (dec : list Z -> A) (n : nat)
    (bs : list Z) :
  (forall chunk, Forall is_byte chunk -> (length chunk ≤ k)%nat -> P (dec chunk)) ->
  Forall is_byte bs -> Forall P (decode_array k dec n bs).
Proof.
  intros Hdec. revert bs. induction n as [|n IH]; intros bs Hb; cbn [decode_array].
  - constructor.
  - constructor.
    + apply Hdec; [apply Forall_take, Hb|]. rewrite length_take. lia.
    + apply IH. apply Forall_drop, Hb.
Qed.

Lemma nth_is_byte (bs : list Z) (i : nat) : Forall is_byte bs -> is_byte (nth i bs 0).
Proof.
  intros Hb. destruct (Nat.lt_ge_cases i (length bs)) as [Hlt|Hge].
  - apply Forall_nth; assumption.
  - rewrite nth_overflow by assumption. unfold is_byte. lia.
Qed.

Lemma decode_VertexU8_ok (bs : list Z) : Forall is_byte bs -> VertexU8_ok (decode_VertexU8 bs).
Proof.
  intros Hb. unfold VertexU8_ok, u8_range, decode_VertexU8. cbn.
  pose proof (nth_is_byte bs 0 Hb). pose proof (nth_is_byte bs 1 Hb).
  pose proof (nth_is_byte bs 2 Hb). unfold is_byte in *. lia.
Qed.

Lemma bytes_check (l : list Z) :
  forallb (fun b => (0 <=? b) && (b <=? 255)) l = true -> Forall is_byte l.
Proof.
  unfold is_byte. induction l as [|b l IH]; cbn [forallb]; intros H; constructor.
  - apply andb_true_iff in H. destruct H as [H _].
    apply andb_true_iff in H. lia.
  - apply IH. apply andb_true_iff in H. tauto.
Qed.

(** The record a successful parse returns, in terms of the header fields
    and of the byte ranges that were read. *)
Lemma parse_rat_animation_inv (buffer : list Z) (a : RatAnimation) :
  parse_rat_animation buffer = Ok a ->
  sizeof_RatHeader ≤ Z.of_nat (length buffer)
  ∧ header_u32 buffer 0 = RAT3_MAGIC
  ∧ exists flag filename first bwx bwy bwz ds,
      field8 buffer 56 = Ok flag
      ∧ copy_filename buffer (header_u32 buffer 24) (header_u32 buffer 28) = Ok filename
      ∧ (if negb (flag =? 0)
         then exists bs, read_bytes buffer (header_u32 buffer 60) (12 * header_u32 buffer 4)
                         = Ok bs
                ∧ first = ([], decode_array 12 decode_Vector3
                                 (Z.to_nat (header_u32 buffer 4)) bs)
         else exists bs, read_bytes buffer sizeof_RatHeader (3 * header_u32 buffer 4) = Ok bs
                ∧ first = (decode_array 3 decode_VertexU8
                             (Z.to_nat (header_u32 buffer 4)) bs, []))
      ∧ read_bytes buffer (header_u32 buffer 20) (header_u32 buffer 4) = Ok bwx
      ∧ read_bytes buffer (header_u32 buffer 20 + header_u32 buffer 4)
          (header_u32 buffer 4) = Ok bwy
      ∧ read_bytes buffer (header_u32 buffer 20 + 2 * header_u32 buffer 4)
          (header_u32 buffer 4) = Ok bwz
      ∧ read_bytes buffer (header_u32 buffer 16)
          (wrap 32 (wrap 64 (Z.of_nat (length buffer) - header_u32 buffer 16))) = Ok ds
      ∧ a = {| num_vertices := header_u32 buffer 4;
               num_frames := header_u32 buffer 8;
               min_x := f32_of_bits (header_u32 buffer 32);
               min_y := f32_of_bits (header_u32 buffer 36);
               min_z := f32_of_bits (header_u32 buffer 40);
               max_x := f32_of_bits (header_u32 buffer 44);
               max_y := f32_of_bits (header_u32 buffer 48);
               max_z := f32_of_bits (header_u32 buffer 52);
               first_frame_quantized := fst first;
               first_frame_raw := snd first;
               is_first_frame_raw := negb (flag =? 0);
               bit_widths_x := bwx;
               bit_widths_y := bwy;
               bit_widths_z := bwz;
               delta_stream :=
                 decode_array 4 le_value
                   (Z.to_nat (wrap 32 (wrap 64 (Z.of_nat (length buffer)
                                                - header_u32 buffer 16)) / 4)) ds;
               delta_stream_word_count :=
                 wrap 32 (wrap 64 (Z.of_nat (length buffer) - header_u32 buffer 16)) / 4;
               mesh_data_filename := filename |}.
Proof.
  unfold parse_rat_animation, sizeof_RatHeader. intros H.
  destruct (Z.ltb_spec (Z.of_nat (length buffer)) 64) as [|Hsize]; [discriminate|].
  rewrite !field32_Ok in H by lia. cbn [mbind res_bind] in H.
  destruct (Z.eqb_spec (header_u32 buffer 0) RAT3_MAGIC) as [Hmagic|]; [|discriminate].
  cbn [negb mbind res_bind] in H.
  apply bind_Ok in H. destruct H as (flag & Hflag & H).
  apply bind_Ok in H. destruct H as (filename & Hname & H).
  apply bind_Ok in H. destruct H as (first & Hfirst & H).
  apply bind_Ok in H. destruct H as (bwx & Hbwx & H).
  apply bind_Ok in H. destruct H as (bwy & Hbwy & H).
  apply bind_Ok in H. destruct H as (bwz & Hbwz & H).
  apply bind_Ok in H. destruct H as (ds & Hds & H).
  injection H as <-.
  split; [assumption|]. split; [assumption|].
  exists flag, filename, first, bwx, bwy, bwz, ds.
  repeat (split; [assumption|]).
  split; [|repeat (split; [assumption|]); reflexivity].
  destruct (negb (flag =? 0)).
  - apply bind_Ok in Hfirst. destruct Hfirst as (bs & Hbs & Hf). injection Hf as <-. eauto.
  - apply bind_Ok in Hfirst. destruct Hfirst as (bs & Hbs & Hf). injection Hf as <-. eauto.
Qed.

Lemma stream_size_small (size off : Z) :
  0 ≤ size < 2 ^ 32 -> 0 ≤ off ≤ size -> wrap 32 (wrap 64 (size - off)) = size - off.
Proof.
  intros Hs Ho. rewrite (wrap_small 64) by lia. apply wrap_small. lia.
Qed.

Lemma stream_size_wrapped (size off : Z) :
  0 ≤ size < 2 ^ 32 -> size < off < 2 ^ 32 ->
  wrap 32 (wrap 64 (size - off)) = size - off + 2 ^ 32.
Proof.
  intros Hs Ho.
  assert (H64 : wrap 64 (size - off) = size - off + 2 ^ 64).
  { unfold wrap. symmetry. apply (Z.mod_unique _ _ (-1)); [left|]; lia. }
  rewrite H64. unfold wrap. symmetry.
  apply (Z.mod_unique _ _ (2 ^ 32 - 1)); [left; lia|].
  change (2 ^ 64) with (2 ^ 32 * 2 ^ 32). lia.
Qed.

Lemma parse_rat_animation_tables (buffer : list Z) (a : RatAnimation) :
  Forall is_byte buffer ->
  Z.of_nat (length buffer) < 2 ^ 32 ->
  parse_rat_animation buffer = Ok a ->
  num_vertices a = header_u32 buffer 4
  ∧ num_frames a = header_u32 buffer 8
  ∧ length (bit_widths_x a) = Z.to_nat (num_vertices a)
  ∧ length (bit_widths_y a) = Z.to_nat (num_vertices a)
  ∧ length (bit_widths_z a) = Z.to_nat (num_vertices a)
  ∧ Forall is_byte (bit_widths_x a ++ bit_widths_y a ++ bit_widths_z a)
  ∧ (if is_first_frame_raw a
     then length (first_frame_raw a) = Z.to_nat (num_vertices a)
          ∧ first_frame_quantized a = []
     else length (first_frame_quantized a) = Z.to_nat (num_vertices a)
          ∧ first_frame_raw a = []
          ∧ Forall VertexU8_ok (first_frame_quantized a))
  ∧ header_u32 buffer 16 ≤ Z.of_nat (length buffer)
  ∧ delta_stream_word_count a = (Z.of_nat (length buffer) - header_u32 buffer 16) / 4
  ∧ Z.of_nat (length (delta_stream a)) = delta_stream_word_count a
  ∧ Forall (fun w => 0 ≤ w < 2 ^ 32) (delta_stream a)
  ∧ length (mesh_data_filename a) = 256%nat.
Proof.
  intros Hb Hsize H. apply parse_rat_animation_inv in H.
  destruct H as (Hhdr & _ & flag & filename & first & bwx & bwy & bwz & ds
                 & _ & Hname & Hfirst & Hbwx & Hbwy & Hbwz & Hds & ->).
  cbn [num_vertices num_frames bit_widths_x bit_widths_y bit_widths_z is_first_frame_raw
       first_frame_raw first_frame_quantized delta_stream delta_stream_word_count
       mesh_data_filename].
  pose proof (header_u32_range buffer 4 Hb) as Hnv.
  pose proof (header_u32_range buffer 16 Hb) as Hdo.
  apply read_bytes_inv in Hbwx; [|lia]. destruct Hbwx as (Lx & Bx & _).
  apply read_bytes_inv in Hbwy; [|lia]. destruct Hbwy as (Ly & By & _).
  apply read_bytes_inv in Hbwz; [|lia]. destruct Hbwz as (Lz & Bz & _).
  assert (Hoff : header_u32 buffer 16 ≤ Z.of_nat (length buffer)).
  { destruct (Z.le_gt_cases (header_u32 buffer 16) (Z.of_nat (length buffer))) as [|Hgt];
      [assumption|].
    rewrite stream_size_wrapped in Hds by lia.
    apply read_bytes_inv in Hds; [|lia]. destruct Hds as (_ & _ & Hin).
    specialize (Hin ltac:(lia)). lia. }
  rewrite stream_size_small in * by lia.
  apply read_bytes_inv in Hds; [|lia]. destruct Hds as (Ld & Bd & _).
  repeat (split; [reflexivity || assumption|]).
  split; [rewrite !Forall_app; auto|].
  split.
  { destruct (negb (flag =? 0)); destruct Hfirst as (bs & Hbs & ->); cbn [fst snd].
    - split; [apply length_decode_array|reflexivity].
    - split; [apply length_decode_array|]. split; [reflexivity|].
      apply read_bytes_inv in Hbs; [|lia]. destruct Hbs as (_ & Bbs & _).
      apply Forall_decode_array; [|auto].
      intros chunk Hc _. apply decode_VertexU8_ok. assumption. }
  split; [assumption|]. split; [reflexivity|].
  split.
  { rewrite length_decode_array. apply Z2Nat.id. apply Z.div_pos; lia. }
  split.
  { apply Forall_decode_array; [|auto].
    intros chunk Hc Hl. apply le_value_word; assumption. }
  unfold copy_filename in Hname. apply bind_Ok in Hname.
  destruct Hname as (field & Hcpy & Hst).
  apply strncpy_length in Hcpy. rewrite length_replicate in Hcpy.
  apply store_inv in Hst. destruct Hst as (_ & _ & ->).
  rewrite length_insert. exact Hcpy.
Qed.


(** X7.  A chunk file of bytes, smaller than 4 GiB, that parses gives a
    record whose counts are those of the header, whose three width tables
    and whose base frame have exactly [num_vertices] entries, whose widths
    and quantized components are bytes, whose delta stream consists of
    [delta_stream_word_count = (size - delta_offset) / 4] words below
    [2^32], the delta offset lying inside the file, and whose filename field
    has 256 bytes. *)
Theorem parse_rat_animation_shape (buffer : list Z) (a : RatAnimation) :
  Forall is_byte buffer ->
  Z.of_nat (length buffer) < 2 ^ 32 ->
  parse_rat_animation buffer = Ok a ->
  (num_vertices a = header_u32 buffer 4 ∧ num_frames a = header_u32 buffer 8)
  ∧ (length (bit_widths_x a) = Z.to_nat (num_vertices a)
     ∧ length (bit_widths_y a) = Z.to_nat (num_vertices a)
     ∧ length (bit_widths_z a) = Z.to_nat (num_vertices a)
     ∧ Forall is_byte (bit_widths_x a ++ bit_widths_y a ++ bit_widths_z a))
  ∧ (if is_first_frame_raw a
     then length (first_frame_raw a) = Z.to_nat (num_vertices a)
          ∧ first_frame_quantized a = []
     else length (first_frame_quantized a) = Z.to_nat (num_vertices a)
          ∧ first_frame_raw a = []
          ∧ Forall VertexU8_ok (first_frame_quantized a))
  ∧ (header_u32 buffer 16 ≤ Z.of_nat (length buffer)
     ∧ delta_stream_word_count a = (Z.of_nat (length buffer) - header_u32 buffer 16) / 4
     ∧ Z.of_nat (length (delta_stream a)) = delta_stream_word_count a
     ∧ Forall (fun w => 0 ≤ w < 2 ^ 32) (delta_stream a))
  ∧ length (mesh_data_filename a) = 256%nat.
Proof.
  intros Hb Hsize H.
  destruct (parse_rat_animation_tables buffer a Hb Hsize H)
    as (Hnv & Hnf & Hx & Hy & Hz & Hw & Hfirst & Hoff & Hwc & Hlen & Hwords & Hname).
  split; [split; assumption|].
  split; [repeat split; assumption|].
  split; [exact Hfirst|].
  split; [repeat split; assumption|].
  exact Hname.
Qed.

Lemma parse_rat_animation_shape_witness :
  exists a,
    parse_rat_animation sample_rat_file = Ok a
    ∧ num_vertices a = 2
    ∧ length (bit_widths_x a) = 2%nat
    ∧ delta_stream_word_count a = 1
    ∧ length (mesh_data_filename a) = 256%nat.
Proof.
  exists sample_anim.
  assert (Hp : parse_rat_animation sample_rat_file = Ok sample_anim)
    by (vm_compute; reflexivity).
  destruct (parse_rat_animation_shape sample_rat_file sample_anim)
    as (_ & (Hx & _) & _ & _ & Hname).
  - apply bytes_check. vm_compute. reflexivity.
  - vm_compute. reflexivity.
  - exact Hp.
  - split; [exact Hp|]. split; [reflexivity|]. split; [exact Hx|].
    split; [reflexivity|exact Hname].
Defined.

(** X8.  Parsing and reconstruction fit together: a chunk file of bytes
    that parses with a pre-quantized base frame, widths of at most 31 bits
    and a stream that holds the bits of [num_frames - 1] frames meets the
    invariant of the format, so [decompress_frame] is defined on it for
    every frame below [num_frames], from any prior contents of buffers of
    the right size. *)
Theorem parsed_chunk_decompresses (buffer : list Z) (a : RatAnimation) :
  Forall is_byte buffer ->
  Z.of_nat (length buffer) < 2 ^ 32 ->
  parse_rat_animation buffer = Ok a ->
  is_first_frame_raw a = false ->
  Forall (fun w => w ≤ 31) (bit_widths_x a ++ bit_widths_y a ++ bit_widths_z a) ->
  (num_frames a - 1) * frame_bits a ≤ 32 * delta_stream_word_count a ->
  anim_wf a
  ∧ forall (m : RatModel) (f : Z),
      animation m = Some a ->
      length (decompressed_vertices_u8 m) = Z.to_nat (num_vertices a) ->
      length (current_frame_vertices m) = Z.to_nat (num_vertices a) ->
      0 ≤ f < num_frames a ->
      exists m', decompress_frame m f = Ok m'.
Proof.
  intros Hb Hsize H Hq Hw31 Hroom.
  destruct (parse_rat_animation_tables buffer a Hb Hsize H)
    as (Hnv & Hnf & Hx & Hy & Hz & Hw & Hfirst & Hoff & Hwc & Hlen & Hwords & Hname).
  rewrite Hq in Hfirst. destruct Hfirst as (Hfl & _ & Hfok).
  pose proof (header_u32_range buffer 4 Hb) as Rnv.
  pose proof (header_u32_range buffer 8 Hb) as Rnf.
  pose proof (header_u32_range buffer 16 Hb) as Rdo.
  rewrite !Forall_app in Hw, Hw31.
  destruct Hw as (Bx & By & Bz). destruct Hw31 as (Mx & My & Mz).
  assert (Hrange : forall l, Forall is_byte l -> Forall (fun w => w ≤ 31) l ->
                             Forall (fun w => 0 ≤ w ≤ 31) l).
  { intros l Hl1 Hl2. rewrite Forall_forall in *. intros w Hin.
    specialize (Hl1 w Hin). specialize (Hl2 w Hin). unfold is_byte in Hl1. lia. }
  assert (Hwf : anim_wf a).
  { constructor.
    - rewrite Hnv. unfold UINT32_MAX. lia.
    - rewrite Hnf. unfold UINT32_MAX. lia.
    - exact Hx.
    - exact Hy.
    - exact Hz.
    - apply Hrange; assumption.
    - apply Hrange; assumption.
    - apply Hrange; assumption.
    - exact Hwords.
    - rewrite Hlen, Hwc. unfold UINT32_MAX.
      assert ((Z.of_nat (length buffer) - header_u32 buffer 16) / 4
              ≤ Z.of_nat (length buffer) - header_u32 buffer 16)
        by (apply Z.div_le_upper_bound; lia).
      lia.
    - exists (first_frame_quantized a). split; [|assumption].
      unfold base_frame. rewrite Hq. unfold first_n.
      destruct (decide _) as [|Hn]; [|lia]. rewrite take_ge by lia. reflexivity.
    - rewrite Hlen. exact Hroom. }
  split; [exact Hwf|].
  intros m f Ha Hu Hc Hf. rewrite (decompress_frame_eq m a f) by assumption.
  destruct (decompress_u8_defined a (decompressed_vertices_u8 m) f Hwf Hu)
    as (vs & Hd & _); [right; assumption|].
  rewrite Hd. eexists. reflexivity.
Qed.

Lemma parsed_chunk_decompresses_witness :
  exists a,
    parse_rat_animation sample_rat_file = Ok a
    ∧ anim_wf a
    ∧ exists m', decompress_frame (model_with a None (junk_u8 <$> seq 0 2)
                                     (junk_v3 <$> seq 0 2) 0 0) 1 = Ok m'.
Proof.
  exists sample_anim.
  assert (Hp : parse_rat_animation sample_rat_file = Ok sample_anim)
    by (vm_compute; reflexivity).
  destruct (parsed_chunk_decompresses sample_rat_file sample_anim) as [Hwf Hdef].
  - apply bytes_check. vm_compute. reflexivity.
  - vm_compute. reflexivity.
  - exact Hp.
  - reflexivity.
  - repeat (apply Forall_cons; split; [lia|]). apply Forall_nil. exact I.
  - apply Z.leb_le. vm_compute. reflexivity.
  - split; [exact Hp|]. split; [exact Hwf|].
    apply Hdef; [reflexivity|reflexivity|reflexivity|cbn; lia].
Defined.

(** ** The static mesh parser and the unchecked table offsets *)

(** X9.  A mesh file of bytes that parses gives a record whose counts are
    those of the header, with one UV pair and one colour per vertex, with
    [num_indices] indices below [2^16], and with a filename field of 256
    bytes. *)
Theorem parse_rat_mesh_data_shape (buffer : list Z) (mesh : RatMeshData) :
  Forall is_byte buffer ->
  parse_rat_mesh_data buffer = Ok mesh ->
  mesh_num_vertices mesh = header_u32 buffer 4
  ∧ mesh_num_indices mesh = header_u32 buffer 8
  ∧ length (uvs mesh) = Z.to_nat (mesh_num_vertices mesh)
  ∧ length (colors mesh) = Z.to_nat (mesh_num_vertices mesh)
  ∧ length (indices mesh) = Z.to_nat (mesh_num_indices mesh)
  ∧ Forall (fun i => 0 ≤ i < 2 ^ 16) (indices mesh)
  ∧ length (texture_filename mesh) = 256%nat.
Proof.
  intros Hb H. unfold parse_rat_mesh_data, sizeof_RatMeshHeader in H.
  destruct (Z.ltb_spec (Z.of_nat (length buffer)) 48) as [|Hsize]; [discriminate|].
  rewrite !field32_Ok in H by lia. cbn [mbind res_bind] in H.
  destruct (Z.eqb_spec (header_u32 buffer 0) RATM_MAGIC) as [Hmagic|]; [|discriminate].
  cbn [negb mbind res_bind] in H.
  apply bind_Ok in H. destruct H as (uv & Huv & H).
  apply bind_Ok in H. destruct H as (col & Hcol & H).
  apply bind_Ok in H. destruct H as (idx & Hidx & H).
  apply bind_Ok in H. destruct H as (filename & Hname & H).
  injection H as <-.
  cbn [mesh_num_vertices mesh_num_indices uvs colors indices texture_filename].
  pose proof (header_u32_range buffer 8 Hb) as Rni.
  apply read_bytes_inv in Hidx; [|lia]. destruct Hidx as (_ & Bidx & _).
  repeat (split; [reflexivity || apply length_decode_array|]).
  split.
  - apply Forall_decode_array; [|auto].
    intros chunk Hc Hl. pose proof (le_value_range chunk Hc) as Hr.
    assert (256 ^ Z.of_nat (length chunk) ≤ 256 ^ 2) by (apply Z.pow_le_mono_r; lia).
    change (256 ^ 2) with (2 ^ 16) in *. lia.
  - unfold copy_filename in Hname. apply bind_Ok in Hname.
    destruct Hname as (field & Hcpy & Hst).
    apply strncpy_length in Hcpy. rewrite length_replicate in Hcpy.
    apply store_inv in Hst. destruct Hst as (_ & _ & ->).
    rewrite length_insert. exact Hcpy.
Qed.

Lemma parse_rat_mesh_data_shape_witness :
  exists mesh,
    parse_rat_mesh_data sample_mesh_file = Ok mesh
    ∧ length (uvs mesh) = 2%nat ∧ length (colors mesh) = 2%nat
    ∧ length (indices mesh) = 3%nat.
Proof.
  destruct (parse_rat_mesh_data sample_mesh_file) as [mesh| |] eqn:Hp;
    [|vm_compute in Hp; discriminate Hp..].
  exists mesh. split; [reflexivity|].
  destruct (parse_rat_mesh_data_shape sample_mesh_file mesh)
    as (Hnv & Hni & Hu & Hc & Hi & _).
  - apply bytes_check. vm_compute. reflexivity.
  - exact Hp.
  - rewrite Hu, Hc, Hi, Hnv, Hni. repeat split.
Defined.

Lemma copy_filename_outcome (buffer : list Z) (off len : Z) :
  (exists field, copy_filename buffer off len = Ok field)
  ∨ copy_filename buffer off len = Undefined OutOfBounds.
Proof.
  unfold copy_filename.
  destruct (strncpy_outcome (Z.to_nat len) (replicate (Z.to_nat sizeof_filename_field) 0)
              buffer 0 off) as [[field ->] | ->]; [|right; reflexivity].
  cbn [mbind res_bind]. apply store_outcome.
Qed.

(** X10.  The table offsets of a chunk are not checked either.  A file of
    bytes with a valid header whose delta offset lies past the end of the
    file, or whose three width tables do not fit between the width offset
    and the end of the file, is not rejected: the parser reads outside the
    buffer. *)
Theorem table_offsets_unchecked (buffer : list Z) :
  Forall is_byte buffer ->
  sizeof_RatHeader ≤ Z.of_nat (length buffer) < 2 ^ 32 ->
  header_u32 buffer 0 = RAT3_MAGIC ->
  Z.of_nat (length buffer) < header_u32 buffer 16
  ∨ (1 ≤ header_u32 buffer 4
     ∧ Z.of_nat (length buffer) < header_u32 buffer 20 + 3 * header_u32 buffer 4) ->
  parse_rat_animation buffer = Undefined OutOfBounds.
Proof.
  intros Hb Hsize Hmagic Hbad. unfold parse_rat_animation, sizeof_RatHeader in *.
  destruct (Z.ltb_spec (Z.of_nat (length buffer)) 64); [lia|].
  rewrite !field32_Ok by lia. cbn [mbind res_bind].
  rewrite Hmagic, Z.eqb_refl. cbn [negb mbind res_bind].
  destruct (field8_Ok buffer 56 ltac:(lia)) as [flag ->]. cbn [mbind res_bind].
  destruct (copy_filename_outcome buffer (header_u32 buffer 24) (header_u32 buffer 28))
    as [[filename ->] | ->]; [|reflexivity].
  cbn [mbind res_bind].
  pose proof (header_u32_range buffer 4 Hb) as Rnv.
  pose proof (header_u32_range buffer 16 Hb) as Rdo.
  pose proof (header_u32_range buffer 20 Hb) as Rbw.
  assert (Hfirst : forall (k : res (list VertexU8 * list Vector3)),
            k = (if negb (flag =? 0)
                 then bs ← read_bytes buffer (header_u32 buffer 60) (12 * header_u32 buffer 4);
                      Ok ([], decode_array 12 decode_Vector3
                                (Z.to_nat (header_u32 buffer 4)) bs)
                 else bs ← read_bytes buffer 64 (3 * header_u32 buffer 4);
                      Ok (decode_array 3 decode_VertexU8
                            (Z.to_nat (header_u32 buffer 4)) bs, [])) ->
            (exists first, k = Ok first) ∨ k = Undefined OutOfBounds).
  { intros k ->. destruct (negb (flag =? 0)).
    - destruct (read_bytes_outcome buffer (header_u32 buffer 60) (12 * header_u32 buffer 4))
        as [[bs ->] | ->]; [left; eexists; reflexivity|right; reflexivity].
    - destruct (read_bytes_outcome buffer 64 (3 * header_u32 buffer 4))
        as [[bs ->] | ->]; [left; eexists; reflexivity|right; reflexivity]. }
  destruct (Hfirst _ eq_refl) as [[first ->] | ->]; [|reflexivity].
  cbn [mbind res_bind].
  destruct (read_bytes_outcome buffer (header_u32 buffer 20) (header_u32 buffer 4))
    as [[bwx ->] | ->]; [|reflexivity].
  cbn [mbind res_bind].
  destruct (read_bytes_outcome buffer (header_u32 buffer 20 + header_u32 buffer 4)
              (header_u32 buffer 4)) as [[bwy ->] | ->]; [|reflexivity].
  cbn [mbind res_bind].
  destruct (read_bytes_outcome buffer (header_u32 buffer 20 + 2 * header_u32 buffer 4)
              (header_u32 buffer 4)) as [[bwz Hbwz] | ->]; [|reflexivity].
  rewrite Hbwz. cbn [mbind res_bind].
  destruct (read_bytes_outcome buffer (header_u32 buffer 16)
              (wrap 32 (wrap 64 (Z.of_nat (length buffer) - header_u32 buffer 16))))
    as [[ds Hds] | ->]; [|reflexivity].
  exfalso. destruct Hbad as [Hdelta | [Hnv Hwidths]].
  - rewrite stream_size_wrapped in Hds by lia.
    apply read_bytes_inv in Hds; [|lia]. destruct Hds as (_ & _ & Hin).
    specialize (Hin ltac:(lia)). lia.
  - apply read_bytes_inv in Hbwz; [|lia]. destruct Hbwz as (_ & _ & Hin).
    specialize (Hin ltac:(lia)). lia.
Qed.

Lemma table_offsets_unchecked_witness :
  parse_rat_animation delta_past_end_rat_file = Undefined OutOfBounds.
Proof.
  apply (table_offsets_unchecked delta_past_end_rat_file).
  - apply bytes_check. vm_compute. reflexivity.
  - vm_compute. split; [discriminate|reflexivity].
  - reflexivity.
  - left. vm_compute. reflexivity.
Defined.

(** ** The life cycle *)

Lemma clamp_frame_fixed (fc cf : Z) :
  cf < fc ∨ cf = last_frame fc -> clamp_frame fc cf = cf.
Proof.
  unfold clamp_frame, last_frame. intros [H | H].
  - destruct (Z.leb_spec fc cf); [lia|reflexivity].
  - destruct (Z.leb_spec fc cf); [|reflexivity].
    destruct (Z.ltb_spec 0 fc); lia.
Qed.

(** On a model that satisfies the invariant, [rat_model_update] is the
    reconstruction of the clamped frame, whether or not the early return is
    taken. *)
Lemma update_normal_form (m : RatModel) (anim : RatAnimation) (l : Z) :
  model_inv m -> animation m = Some anim ->
  rat_model_update (Some m) l
  = (st ← decompress_u8 anim (decompressed_vertices_u8 m)
            (clamp_frame (rat_model_get_chunk_frame_count (Some m)) l);
     Ok (Some (model_at m anim (fst st)
                 (clamp_frame (rat_model_get_chunk_frame_count (Some m)) l)))).
Proof.
  intros (Hv & anim' & Ha' & Hu & Hc & Hcf & Hfix) Ha.
  rewrite Ha in Ha'. injection Ha' as <-.
  set (fc := rat_model_get_chunk_frame_count (Some m)) in *.
  unfold rat_model_update. rewrite Hv. cbn [negb orb]. fold fc.
  destruct (Z.eqb_spec l (current_frame m)) as [->|Hne].
  - rewrite (clamp_frame_fixed _ _ Hcf).
    rewrite (decompress_frame_eq m anim _) in Hfix by assumption.
    apply bind_Ok in Hfix. destruct Hfix as (st & Hd & Hm).
    rewrite Hd. cbn [mbind res_bind]. unfold model_at.
    injection Hm as Hm. rewrite Hm. rewrite set_current_frame_same. reflexivity.
  - change (if fc <=? l then if 0 <? fc then fc - 1 else 0 else l) with (clamp_frame fc l).
    rewrite (decompress_frame_eq m anim _) by assumption.
    rewrite bind_assoc. reflexivity.
Qed.

Lemma update_preserves_fields (m m' : RatModel) (l : Z) :
  rat_model_update (Some m) l = Ok (Some m') ->
  animation m' = animation m ∧ mesh_data m' = mesh_data m
  ∧ texture_id m' = texture_id m ∧ is_valid m' = is_valid m.
Proof.
  unfold rat_model_update. destruct (negb (is_valid m) || (l =? current_frame m)).
  - intros [= <-]. auto.
  - intros H. apply bind_Ok in H. destruct H as (m1 & Hd & H). injection H as <-.
    unfold decompress_frame in Hd. destruct (animation m) as [anim|] eqn:Ha; [|discriminate].
    apply bind_Ok in Hd. destruct Hd as ([prev c] & _ & Hd).
    apply bind_Ok in Hd. destruct Hd as (cur & _ & Hd). injection Hd as <-.
    cbn. auto.
Qed.

(** X11.  What [rat_model_create_from_chunk] returns when it returns a
    model: both files were loaded, the mesh file from the directory of the
    chunk path under the name recorded in the chunk; the model is valid,
    carries the given texture id and shows frame 0, its quantized buffer
    being the base frame of the chunk and its float buffer the
    de-quantization of it, with nothing left of the uninitialised
    allocations. *)
Theorem create_postcondition fs heap_u8 heap_v3 (path : list Z) (tex : Z) (m : RatModel) :
  rat_model_create_from_chunk fs heap_u8 heap_v3 path tex = Ok m ->
  exists anim mesh dir,
    load_rat_animation fs path = Ok anim
    ∧ base_dir_of path = Ok dir
    ∧ load_rat_mesh_data fs (c_string (mesh_data_filename anim)) dir = Ok mesh
    ∧ animation m = Some anim ∧ mesh_data m = Some mesh
    ∧ texture_id m = tex ∧ rat_model_is_valid (Some m) = true
    ∧ current_frame m = 0
    ∧ base_frame anim = Ok (decompressed_vertices_u8 m)
    ∧ current_frame_vertices m = dequantize_VertexU8 anim <$> decompressed_vertices_u8 m.
Proof.
  unfold rat_model_create_from_chunk. intros H.
  apply bind_Ok in H. destruct H as (anim & Hanim & H).
  apply bind_Ok in H. destruct H as (dir & Hdir & H).
  apply bind_Ok in H. destruct H as (mesh & Hmesh & H).
  apply bind_Ok in H. destruct H as ([m0|] & Hupd & H); [|discriminate].
  injection H as ->.
  exists anim, mesh, dir. repeat (split; [assumption|]).
  unfold rat_model_update in Hupd. cbn [is_valid negb orb current_frame] in Hupd.
  change (0 =? UINT32_MAX) with false in Hupd. cbv iota in Hupd.
  set (m0 := {| animation := Some anim; mesh_data := Some mesh;
                decompressed_vertices_u8 := heap_u8 <$> seq 0 (Z.to_nat (num_vertices anim));
                current_frame_vertices := heap_v3 <$> seq 0 (Z.to_nat (num_vertices anim));
                current_frame := UINT32_MAX; texture_id := tex; is_valid := true |}) in *.
  assert (Hclamp : (if rat_model_get_chunk_frame_count (Some m0) <=? 0
                    then if 0 <? rat_model_get_chunk_frame_count (Some m0)
                         then rat_model_get_chunk_frame_count (Some m0) - 1 else 0
                    else 0) = 0).
  { destruct (Z.leb_spec (rat_model_get_chunk_frame_count (Some m0)) 0); [|reflexivity].
    destruct (Z.ltb_spec 0 (rat_model_get_chunk_frame_count (Some m0))); [lia|reflexivity]. }
  rewrite Hclamp in Hupd.
  assert (Hlu : length (decompressed_vertices_u8 m0) = Z.to_nat (num_vertices anim))
    by (cbn; rewrite length_fmap, length_seq; reflexivity).
  assert (Hlc : length (current_frame_vertices m0) = Z.to_nat (num_vertices anim))
    by (cbn; rewrite length_fmap, length_seq; reflexivity).
  rewrite (decompress_frame_eq m0 anim 0 eq_refl Hlu Hlc) in Hupd.
  rewrite bind_assoc in Hupd. apply bind_Ok in Hupd. destruct Hupd as (st & Hd & Hupd).
  cbn [mbind res_bind] in Hupd. injection Hupd as <-.
  unfold decompress_u8 in Hd. cbn [Z.eqb] in Hd.
  rewrite seed_frame0_base in Hd by assumption.
  apply bind_Ok in Hd. destruct Hd as (base & Hbase & Hd). injection Hd as <-.
  cbn. repeat split; assumption || reflexivity.
Qed.

Lemma create_postcondition_witness :
  exists m anim,
    rat_model_create_from_chunk sample_fs junk_u8 junk_v3 sample_chunk_path 3 = Ok m
    ∧ animation m = Some anim ∧ texture_id m = 3 ∧ current_frame m = 0
    ∧ base_frame anim = Ok (decompressed_vertices_u8 m).
Proof.
  destruct (rat_model_create_from_chunk sample_fs junk_u8 junk_v3 sample_chunk_path 3)
    as [m| |] eqn:Hc; [|vm_compute in Hc; discriminate Hc..].
  destruct (create_postcondition _ _ _ _ _ _ Hc)
    as (anim & mesh & dir & _ & _ & _ & Ha & _ & Ht & _ & Hcf & Hb & _).
  exists m, anim. repeat split; assumption.
Defined.





Lemma reachable_mesh (m : RatModel) : reachable m -> mesh_data m ≠ None.
Proof.
  induction 1 as [fs hu hv path tex m Hc | m l m' _ IH Hu].
  - unfold rat_model_create_from_chunk in Hc.
    apply bind_Ok in Hc. destruct Hc as (anim & _ & Hc).
    apply bind_Ok in Hc. destruct Hc as (dir & _ & Hc).
    apply bind_Ok in Hc. destruct Hc as (mesh & _ & Hc).
    apply bind_Ok in Hc. destruct Hc as ([m0|] & Hupd & Hc); [|discriminate].
    injection Hc as ->.
    apply update_preserves_fields in Hupd. destruct Hupd as (_ & Hm & _).
    rewrite Hm. discriminate.
  - apply update_preserves_fields in Hu. destruct Hu as (_ & Hm & _).
    rewrite Hm. assumption.
Qed.

(** X13.  What holds of every model obtained from
    [rat_model_create_from_chunk] and any number of seeks: it is valid, has
    its animation and its mesh, both vertex buffers have one element per
    vertex, the stored frame index is one a seek can produce (below the
    frame count, or the clamped last frame), the quantized buffer is the
    reconstruction of exactly that frame, and the float buffer is its
    de-quantization. *)
Theorem interface_invariant (m : RatModel) :
  reachable m ->
  rat_model_is_valid (Some m) = true
  ∧ mesh_data m ≠ None
  ∧ exists anim,
      animation m = Some anim
      ∧ length (decompressed_vertices_u8 m) = Z.to_nat (num_vertices anim)
      ∧ length (current_frame_vertices m) = Z.to_nat (num_vertices anim)
      ∧ clamp_frame (rat_model_get_chunk_frame_count (Some m)) (current_frame m)
        = current_frame m
      ∧ (forall scratch, length scratch = Z.to_nat (num_vertices anim) ->
           exists cursor,
             decompress_u8 anim scratch (current_frame m)
             = Ok (decompressed_vertices_u8 m, cursor))
      ∧ current_frame_vertices m
        = dequantize_VertexU8 anim <$> decompressed_vertices_u8 m.
Proof.
  intros Hr. pose proof (reachable_mesh m Hr) as Hmesh.
  apply reachable_inv in Hr. destruct Hr as (Hv & anim & Ha & Hu & Hc & Hcf & Hfix).
  split; [exact Hv|]. split; [exact Hmesh|].
  exists anim. repeat (split; [assumption|]).
  split; [apply clamp_frame_fixed; assumption|].
  rewrite (decompress_frame_eq m anim _) in Hfix by assumption.
  apply bind_Ok in Hfix. destruct Hfix as ([vs c] & Hd & Hm).
  injection Hm as Hm. cbn [fst] in Hm.
  assert (Hvs : decompressed_vertices_u8 m = vs) by (rewrite <- Hm; reflexivity).
  assert (Hcur : current_frame_vertices m = dequantize_VertexU8 anim <$> vs)
    by (rewrite <- Hm at 1; reflexivity).
  split.
  - intros scratch Hs. exists c.
    rewrite (decompress_u8_scratch anim scratch (decompressed_vertices_u8 m)) by assumption.
    rewrite Hd, Hvs. reflexivity.
  - rewrite Hcur, Hvs. reflexivity.
Qed.

Lemma interface_invariant_witness :
  exists m,
    rat_model_create_from_chunk sample_fs junk_u8 junk_v3 sample_chunk_path 3
    ≫= (fun m0 => rat_model_update (Some m0) 1) = Ok (Some m)
    ∧ rat_model_is_valid (Some m) = true
    ∧ mesh_data m ≠ None.
Proof.
  destruct (rat_model_create_from_chunk sample_fs junk_u8 junk_v3 sample_chunk_path 3)
    as [m0| |] eqn:Hc; [|vm_compute in Hc; discriminate Hc..].
  cbn [mbind res_bind].
  destruct (rat_model_update (Some m0) 1) as [[m|]| |] eqn:Hu;
    [|vm_compute in Hc; injection Hc as <-; vm_compute in Hu; discriminate Hu..].
  exists m. split; [reflexivity|].
  destruct (interface_invariant m) as (Hv & Hm & _).
  - eapply reach_update; [eapply reach_create; exact Hc|exact Hu].
  - split; assumption.
Defined.

(** X14.  A seek on a model from the interface is the reconstruction of the
    clamped target frame and nothing else: the result keeps animation, mesh
    and texture id, stores the clamped index, and holds the vertices of that
    frame; the early return for an unchanged index gives the same model as
    the reconstruction would. *)
Theorem seek_is_reconstruction (m : RatModel) (anim : RatAnimation) (l : Z) :
  reachable m -> animation m = Some anim ->
  rat_model_update (Some m) l
  = (st ← decompress_u8 anim (decompressed_vertices_u8 m)
            (clamp_frame (rat_model_get_chunk_frame_count (Some m)) l);
     Ok (Some (model_at m anim (fst st)
                 (clamp_frame (rat_model_get_chunk_frame_count (Some m)) l)))).
Proof.
  intros Hr Ha. apply update_normal_form; [apply reachable_inv|]; assumption.
Qed.

Lemma seek_is_reconstruction_witness :
  exists m,
    rat_model_create_from_chunk sample_fs junk_u8 junk_v3 sample_chunk_path 3 = Ok m
    ∧ rat_model_update (Some m) 0
      = (st ← decompress_u8 sample_anim (decompressed_vertices_u8 m)
                (clamp_frame (rat_model_get_chunk_frame_count (Some m)) 0);
         Ok (Some (model_at m sample_anim (fst st)
                     (clamp_frame (rat_model_get_chunk_frame_count (Some m)) 0)))).
Proof.
  destruct (rat_model_create_from_chunk sample_fs junk_u8 junk_v3 sample_chunk_path 3)
    as [m| |] eqn:Hc; [|vm_compute in Hc; discriminate Hc..].
  exists m. split; [reflexivity|].
  apply seek_is_reconstruction.
  - eapply reach_create. exact Hc.
  - vm_compute in Hc. injection Hc as <-. vm_compute. reflexivity.
Defined.

(** X15.  The model after a seek does not depend on the seeks before it:
    seeking to [g] after a successful seek to [f] gives what seeking to [g]
    at once gives; in particular a repeated seek changes nothing. *)
Theorem seek_forgets_history (m m1 : RatModel) (f g : Z) :
  reachable m ->
  rat_model_update (Some m) f = Ok (Some m1) ->
  rat_model_update (Some m1) g = rat_model_update (Some m) g
  ∧ rat_model_update (Some m1) f = Ok (Some m1).
Proof.
  intros Hr Hf.
  assert (Hr1 : reachable m1) by (eapply reach_update; eassumption).
  pose proof (reachable_inv m Hr) as Hinv.
  pose proof (reachable_inv m1 Hr1) as Hinv1.
  destruct Hinv as (Hv & anim & Ha & Hu & Hc & Hcf & Hfix).
  assert (Hinv : model_inv m) by (split; [assumption|]; exists anim; auto).
  pose proof (update_preserves_fields _ _ _ Hf) as (Ha1 & Hm1 & Ht1 & Hv1).
  assert (Ha1' : animation m1 = Some anim) by (rewrite Ha1; assumption).
  assert (Hfc : rat_model_get_chunk_frame_count (Some m1)
                = rat_model_get_chunk_frame_count (Some m)).
  { unfold rat_model_get_chunk_frame_count. rewrite Ha1. reflexivity. }
  assert (Hu1 : length (decompressed_vertices_u8 m1) = Z.to_nat (num_vertices anim)).
  { destruct Hinv1 as (_ & anim1 & Ha1'' & Hu1 & _). rewrite Ha1' in Ha1''.
    injection Ha1'' as <-. assumption. }
  assert (Hany : forall h, rat_model_update (Some m1) h = rat_model_update (Some m) h).
  { intros h.
    rewrite (update_normal_form m1 anim h Hinv1 Ha1').
    rewrite (update_normal_form m anim h Hinv Ha).
    rewrite Hfc.
    rewrite (decompress_u8_scratch anim _ (decompressed_vertices_u8 m)) by assumption.
    apply bind_ext. intros st _. do 2 f_equal.
    unfold model_at, set_current_frame, set_frame_output. cbn.
    rewrite Ha1, Hm1, Ht1, Hv1. reflexivity. }
  split; [apply Hany|]. rewrite Hany. exact Hf.
Qed.

Lemma seek_forgets_history_witness :
  exists m m1,
    rat_model_create_from_chunk sample_fs junk_u8 junk_v3 sample_chunk_path 3 = Ok m
    ∧ rat_model_update (Some m) 1 = Ok (Some m1)
    ∧ rat_model_update (Some m1) 0 = rat_model_update (Some m) 0
    ∧ rat_model_update (Some m1) 1 = Ok (Some m1).
Proof.
  destruct (rat_model_create_from_chunk sample_fs junk_u8 junk_v3 sample_chunk_path 3)
    as [m| |] eqn:Hc; [|vm_compute in Hc; discriminate Hc..].
  destruct (rat_model_update (Some m) 1) as [[m1|]| |] eqn:Hu;
    [|vm_compute in Hc; injection Hc as <-; vm_compute in Hu; discriminate Hu..].
  exists m, m1. split; [reflexivity|]. split; [exact Hu|].
  apply (seek_forgets_history m m1 1 0); [eapply reach_create; exact Hc|exact Hu].
Defined.

(** ** Static chunks and flat axes *)

Lemma add_deltas_zero (p : VertexU8) : VertexU8_ok p -> add_deltas p 0 0 0 = p.
Proof.
  destruct p as [x y z]. unfold VertexU8_ok, u8_range, add_deltas, wrapping_add_u8.
  cbn. intros (Hx & Hy & Hz).
  rewrite !Z.add_0_r, !Z.mod_small by lia. reflexivity.
Qed.

Lemma static_vertex_loop (anim : RatAnimation) (n i : nat) (prev : list VertexU8)
    (off : Z) :
  (i + n)%nat = Z.to_nat (num_vertices anim) ->
  length prev = Z.to_nat (num_vertices anim) -> Forall VertexU8_ok prev ->
  bit_widths_x anim = replicate (Z.to_nat (num_vertices anim)) 0 ->
  bit_widths_y anim = replicate (Z.to_nat (num_vertices anim)) 0 ->
  bit_widths_z anim = replicate (Z.to_nat (num_vertices anim)) 0 ->
  for_loop n (Z.of_nat i) (apply_vertex_deltas anim) (prev, off) = Ok (prev, off).
Proof.
  intros Hin Hlen Hok Hx Hy Hz. revert i Hin.
  induction n as [|n IH]; intros i Hin; [reflexivity|].
  destruct (lookup_lt_is_Some_2 prev i) as [p Hp]; [lia|].
  pose proof (proj1 (Forall_lookup _ _) Hok _ _ Hp) as Rp.
  cbn [for_loop].
  rewrite (apply_vertex_deltas_Ok anim i prev off 0 0 0 p 0 0 0 off off off);
    try reflexivity; try assumption; try lia.
  - rewrite add_deltas_zero, list_insert_id by assumption.
    cbn [mbind res_bind].
    replace (Z.of_nat i + 1) with (Z.of_nat (S i)) by lia.
    apply IH. lia.
  - rewrite Hx. apply lookup_replicate_2. lia.
  - rewrite Hy. apply lookup_replicate_2. lia.
  - rewrite Hz. apply lookup_replicate_2. lia.
Qed.

Lemma static_frames_loop (anim : RatAnimation) (n : nat) (i : Z)
    (prev : list VertexU8) (off : Z) :
  length prev = Z.to_nat (num_vertices anim) -> Forall VertexU8_ok prev ->
  bit_widths_x anim = replicate (Z.to_nat (num_vertices anim)) 0 ->
  bit_widths_y anim = replicate (Z.to_nat (num_vertices anim)) 0 ->
  bit_widths_z anim = replicate (Z.to_nat (num_vertices anim)) 0 ->
  for_loop n i (fun _ st => apply_frame_deltas anim st) (prev, off) = Ok (prev, off).
Proof.
  intros Hlen Hok Hx Hy Hz. revert i.
  induction n as [|n IH]; intros i; [reflexivity|].
  assert (Hstep : apply_frame_deltas anim (prev, off) = Ok (prev, off)).
  { unfold apply_frame_deltas.
    exact (static_vertex_loop anim (Z.to_nat (num_vertices anim)) 0 prev off
             eq_refl Hlen Hok Hx Hy Hz). }
  cbn [for_loop]. rewrite Hstep. cbn [mbind res_bind]. apply IH.
Qed.

(** X16.  A chunk whose bit widths are all zero does not move: whatever
    frame is asked for, below the frame count of the header or not,
    [decompress_frame] leaves the base frame in the quantized buffer and its
    de-quantization in the float buffer, and it reads no word of the delta
    stream, which may be empty. *)
Theorem zero_width_chunk_is_static (m : RatModel) (anim : RatAnimation)
    (base : list VertexU8) (f : Z) :
  animation m = Some anim ->
  length (decompressed_vertices_u8 m) = Z.to_nat (num_vertices anim) ->
  length (current_frame_vertices m) = Z.to_nat (num_vertices anim) ->
  bit_widths_x anim = replicate (Z.to_nat (num_vertices anim)) 0 ->
  bit_widths_y anim = replicate (Z.to_nat (num_vertices anim)) 0 ->
  bit_widths_z anim = replicate (Z.to_nat (num_vertices anim)) 0 ->
  base_frame anim = Ok base -> Forall VertexU8_ok base ->
  0 ≤ f < UINT32_MAX ->
  decompress_frame m f
  = Ok (set_frame_output m base (dequantize_VertexU8 anim <$> base)).
Proof.
  intros Ha Hu Hc Hx Hy Hz Hbase Hok Hf.
  rewrite (decompress_frame_eq m anim f Ha Hu Hc).
  unfold decompress_u8. rewrite seed_frame0_base by assumption.
  rewrite Hbase. cbn [mbind res_bind].
  destruct (Z.eqb_spec f 0); [reflexivity|].
  destruct (Z.eqb_spec f UINT32_MAX); [lia|].
  rewrite static_frames_loop; try assumption.
  - reflexivity.
  - eapply base_frame_length. eassumption.
Qed.

Lemma zero_width_chunk_is_static_witness :
  decompress_frame (model_with static_anim None (junk_u8 <$> seq 0 1)
                      (junk_v3 <$> seq 0 1) UINT32_MAX 0) 1000
  = Ok (model_with static_anim None
          [ {| u8_x := 12; u8_y := 34; u8_z := 56 |} ]
          (dequantize_VertexU8 static_anim
             <$> [ {| u8_x := 12; u8_y := 34; u8_z := 56 |} ]) UINT32_MAX 0).
Proof.
  apply (zero_width_chunk_is_static
           (model_with static_anim None (junk_u8 <$> seq 0 1) (junk_v3 <$> seq 0 1)
              UINT32_MAX 0)
           static_anim [ {| u8_x := 12; u8_y := 34; u8_z := 56 |} ] 1000);
    try reflexivity.
  - apply Forall_cons. split; [|apply Forall_nil; exact I].
    unfold VertexU8_ok, u8_range. cbn. lia.
  - unfold UINT32_MAX. lia.
Defined.

Lemma quotient_finite_or_zero (q : Z) :
  0 ≤ q ≤ 255 -> f32_finite_or_zero (f32_div (f32_of_Z q) f255) = true.
Proof.
  intros Hq.
  assert (H : forallb (fun n => f32_finite_or_zero (f32_div (f32_of_Z (Z.of_nat n)) f255))
                (seq 0 256) = true) by (vm_compute; reflexivity).
  rewrite forallb_forall in H. specialize (H (Z.to_nat q)).
  rewrite Z2Nat.id in H by lia. apply H. apply in_seq. lia.
Qed.

Lemma quotient_sign (q : Z) :
  0 ≤ q ≤ 255 ->
  match f32_div (f32_of_Z q) f255 with
  | S754_zero s | S754_finite s _ _ => s = false
  | _ => False
  end.
Proof.
  intros Hq.
  assert (H : forallb (fun n => match f32_div (f32_of_Z (Z.of_nat n)) f255 with
                                | S754_zero s | S754_finite s _ _ => negb s
                                | _ => false
                                end) (seq 0 256) = true) by (vm_compute; reflexivity).
  rewrite forallb_forall in H. specialize (H (Z.to_nat q)).
  rewrite Z2Nat.id in H by lia.
  assert (Hin : In (Z.to_nat q) (seq 0 256)) by (apply in_seq; lia).
  specialize (H Hin).
  destruct (f32_div (f32_of_Z q) f255) as [s|s| |s mq eq]; try discriminate;
    destruct s; try discriminate; reflexivity.
Qed.

Lemma f32_sub_self (x : float) :
  f32_finite_or_zero x = true -> f32_sub x x = S754_zero false.
Proof.
  destruct x as [s|s| |s mx ex]; try discriminate; intros _.
  - destruct s; reflexivity.
  - unfold f32_sub, SFsub. cbv zeta. rewrite Z.sub_diag. reflexivity.
Qed.

Lemma SFeqb_refl (x : float) : f32_finite_or_zero x = true -> SFeqb x x = true.
Proof.
  destruct x as [s|s| |s mx ex]; try discriminate; intros _; [reflexivity|].
  unfold SFeqb, SFcompare. rewrite Z.compare_refl.
  change (PosDef.Pos.compare_cont Eq mx mx) with (Pos.compare mx mx).
  rewrite Pos.compare_refl. destruct s; reflexivity.
Qed.

(** On an axis whose bounds coincide, every quantized value maps to the
    bound itself, up to the sign of zero. *)
Lemma dequantize_flat (q : Z) (mn : float) :
  0 ≤ q ≤ 255 -> f32_finite_or_zero mn = true ->
  SFeqb (dequantize q mn (f32_sub mn mn)) mn = true
  ∧ (f32_is_zero mn = false -> dequantize q mn (f32_sub mn mn) = mn).
Proof.
  intros Hq Hmn. rewrite f32_sub_self by assumption. unfold dequantize.
  pose proof (quotient_sign q Hq) as Hs.
  destruct (f32_div (f32_of_Z q) f255) as [s|s| |s mq eq]; try contradiction; subst s.
  - destruct mn as [s|s| |s mx ex]; try discriminate.
    + split; [destruct s; reflexivity|discriminate].
    + split; [|reflexivity].
      change (f32_add (S754_finite s mx ex) (f32_mul (S754_zero false) (S754_zero false)))
        with (S754_finite s mx ex).
      apply SFeqb_refl. reflexivity.
  - destruct mn as [s|s| |s mx ex]; try discriminate.
    + split; [destruct s; reflexivity|discriminate].
    + split; [|reflexivity].
      change (f32_add (S754_finite s mx ex)
                (f32_mul (S754_finite false mq eq) (S754_zero false)))
        with (S754_finite s mx ex).
      apply SFeqb_refl. reflexivity.
Qed.

(** X17.  A pre-quantized chunk with a flat axis (its two bounds on that
    axis the same finite number) decompresses without a division by zero:
    on a well-formed chunk every frame is produced, and every vertex has on
    that axis a coordinate that compares equal to the bound, and is the
    bound itself unless the bound is a zero. *)
Theorem flat_axis_prequantized (m : RatModel) (anim : RatAnimation) (f : Z) :
  anim_wf anim ->
  animation m = Some anim ->
  length (decompressed_vertices_u8 m) = Z.to_nat (num_vertices anim) ->
  length (current_frame_vertices m) = Z.to_nat (num_vertices anim) ->
  0 ≤ f < num_frames anim ->
  exists m',
    decompress_frame m f = Ok m'
    ∧ (max_x anim = min_x anim -> f32_finite_or_zero (min_x anim) = true ->
       Forall (fun v => SFeqb (v3_x v) (min_x anim) = true
                        ∧ (f32_is_zero (min_x anim) = false -> v3_x v = min_x anim))
         (current_frame_vertices m'))
    ∧ (max_y anim = min_y anim -> f32_finite_or_zero (min_y anim) = true ->
       Forall (fun v => SFeqb (v3_y v) (min_y anim) = true
                        ∧ (f32_is_zero (min_y anim) = false -> v3_y v = min_y anim))
         (current_frame_vertices m'))
    ∧ (max_z anim = min_z anim -> f32_finite_or_zero (min_z anim) = true ->
       Forall (fun v => SFeqb (v3_z v) (min_z anim) = true
                        ∧ (f32_is_zero (min_z anim) = false -> v3_z v = min_z anim))
         (current_frame_vertices m')).
Proof.
  intros Hwf Ha Hu Hc Hf.
  rewrite (decompress_frame_eq m anim f Ha Hu Hc).
  destruct (decompress_u8_defined anim (decompressed_vertices_u8 m) f Hwf Hu)
    as (vs & Hd & _ & Hok); [right; assumption|].
  rewrite Hd. cbn [mbind res_bind fst].
  eexists. split; [reflexivity|].
  cbn [set_frame_output current_frame_vertices].
  split; [|split]; intros Hflat Hfin; apply Forall_fmap;
    eapply Forall_impl; try exact Hok; intros [x y z] (Hx & Hy & Hz);
    unfold u8_range in *; cbn in *; rewrite Hflat; apply dequantize_flat; assumption.
Qed.

Lemma flat_axis_prequantized_witness :
  exists m',
    decompress_frame (model_with flat_quantized_anim None (junk_u8 <$> seq 0 2)
                        (junk_v3 <$> seq 0 2) UINT32_MAX 0) 1 = Ok m'
    ∧ Forall (fun v => v3_x v = f255) (current_frame_vertices m').
Proof.
  destruct (flat_axis_prequantized
              (model_with flat_quantized_anim None (junk_u8 <$> seq 0 2)
                 (junk_v3 <$> seq 0 2) UINT32_MAX 0) flat_quantized_anim 1)
    as (m' & Hd & Hx & _).
  - closed_wf.
  - reflexivity.
  - reflexivity.
  - reflexivity.
  - cbn. lia.
  - exists m'. split; [exact Hd|].
    eapply Forall_impl; [apply Hx; reflexivity|].
    intros v [_ Hv]. apply Hv. reflexivity.
Defined.

(** ** A frame depends on the bits before its end only *)

Lemma read_delta_agree (d1 d2 : list Z) (off w : Z) :
  Forall (fun x => 0 ≤ x < 2 ^ 32) d1 -> Z.of_nat (length d1) ≤ UINT32_MAX ->
  Forall (fun x => 0 ≤ x < 2 ^ 32) d2 -> Z.of_nat (length d2) ≤ UINT32_MAX ->
  0 ≤ off -> 0 ≤ w ≤ 31 ->
  off + w ≤ 32 * Z.of_nat (length d1) -> off + w ≤ 32 * Z.of_nat (length d2) ->
  (forall p, off ≤ p < off + w -> stream_bit d1 p = stream_bit d2 p) ->
  read_delta d2 off w = read_delta d1 off w.
Proof.
  intros Hw1 Hl1 Hw2 Hl2 Hoff Hw Hr1 Hr2 Hbits.
  destruct (get_bits_field d1 off w) as (v1 & Hg1 & Hv1 & Hb1); try assumption; try lia.
  destruct (get_bits_field d2 off w) as (v2 & Hg2 & Hv2 & Hb2); try assumption; try lia.
  assert (Hv : v2 = v1).
  { apply Z.bits_inj'. intros j Hj. destruct (Z.lt_ge_cases j w) as [Hlt|Hge].
    - rewrite Hb1, Hb2 by lia. symmetry. apply Hbits. lia.
    - rewrite (testbit_above v1 w j), (testbit_above v2 w j) by lia. reflexivity. }
  unfold read_delta. rewrite Hg1, Hg2, Hv. reflexivity.
Qed.

Lemma quantize_first_stream (anim : RatAnimation) (words : list Z) (n : nat)
    (raw : list Vector3) :
  quantize_first (with_delta_stream anim words) n raw = quantize_first anim n raw.
Proof.
  revert raw. induction n as [|n IH]; intros [|r raw]; cbn [quantize_first];
    try reflexivity.
  rewrite IH. reflexivity.
Qed.

Lemma base_frame_stream (anim : RatAnimation) (words : list Z) :
  base_frame (with_delta_stream anim words) = base_frame anim.
Proof.
  unfold base_frame. cbn [with_delta_stream is_first_frame_raw num_vertices
                          first_frame_raw first_frame_quantized].
  rewrite quantize_first_stream. reflexivity.
Qed.

Section Prefix.
Variable anim : RatAnimation.
Variable words : list Z.
Hypothesis Hwf : anim_wf anim.
Hypothesis Hwf' : anim_wf (with_delta_stream anim words).

Lemma vertex_loop_agree (n i : nat) (prev : list VertexU8) (off : Z) :
  (i + n)%nat = Z.to_nat (num_vertices anim) ->
  length prev = Z.to_nat (num_vertices anim) -> Forall VertexU8_ok prev ->
  0 ≤ off ->
  off + (sum_upto (i + n) (vertex_bits anim) - sum_upto i (vertex_bits anim))
    ≤ 32 * Z.of_nat (length (delta_stream anim)) ->
  off + (sum_upto (i + n) (vertex_bits anim) - sum_upto i (vertex_bits anim))
    ≤ 32 * Z.of_nat (length words) ->
  (forall p, off ≤ p < off + (sum_upto (i + n) (vertex_bits anim)
                              - sum_upto i (vertex_bits anim)) ->
     stream_bit (delta_stream anim) p = stream_bit words p) ->
  for_loop n (Z.of_nat i) (apply_vertex_deltas (with_delta_stream anim words)) (prev, off)
  = for_loop n (Z.of_nat i) (apply_vertex_deltas anim) (prev, off).
Proof.
  revert i prev off. induction n as [|n IH];
    intros i prev off Hin Hlen Hok Hoff Hroom Hroom' Hbits; [reflexivity|].
  destruct (lookup_lt_is_Some_2 (bit_widths_x anim) i) as [bx Hbx];
    [rewrite (wf_widths_x _ Hwf); lia|].
  destruct (lookup_lt_is_Some_2 (bit_widths_y anim) i) as [by_ Hby];
    [rewrite (wf_widths_y _ Hwf); lia|].
  destruct (lookup_lt_is_Some_2 (bit_widths_z anim) i) as [bz Hbz];
    [rewrite (wf_widths_z _ Hwf); lia|].
  destruct (lookup_lt_is_Some_2 prev i) as [p Hp]; [lia|].
  pose proof (proj1 (Forall_lookup _ _) (wf_width_x_range _ Hwf) _ _ Hbx) as Rx.
  pose proof (proj1 (Forall_lookup _ _) (wf_width_y_range _ Hwf) _ _ Hby) as Ry.
  pose proof (proj1 (Forall_lookup _ _) (wf_width_z_range _ Hwf) _ _ Hbz) as Rz.
  pose proof (proj1 (Forall_lookup _ _) Hok _ _ Hp) as Rp.
  cbn beta in Rx, Ry, Rz.
  assert (Hvb : vertex_bits anim i = bx + by_ + bz).
  { unfold vertex_bits. rewrite Hbx, Hby, Hbz. reflexivity. }
  assert (Hsplit : sum_upto (i + S n) (vertex_bits anim) - sum_upto i (vertex_bits anim)
                   = (bx + by_ + bz)
                     + (sum_upto (S i + n) (vertex_bits anim)
                        - sum_upto (S i) (vertex_bits anim))).
  { replace (i + S n)%nat with (S i + n)%nat by lia.
    cbn [sum_upto]. rewrite Hvb. lia. }
  pose proof (sum_upto_mono (vertex_bits anim) (S i) (S i + n)
                (vertex_bits_nonneg anim Hwf) ltac:(lia)) as Hrest.
  rewrite Hsplit in Hroom, Hroom', Hbits.
  pose proof (wf_words _ Hwf) as Hwords. pose proof (wf_word_count _ Hwf) as Hcount.
  pose proof (wf_words _ Hwf') as Hwords'. pose proof (wf_word_count _ Hwf') as Hcount'.
  cbn [delta_stream with_delta_stream] in Hwords', Hcount'.
  destruct (read_delta_defined (delta_stream anim) off bx) as (dx & Hrx & Hdx);
    try assumption; try lia.
  destruct (read_delta_defined (delta_stream anim) (off + bx) by_) as (dy & Hry & Hdy);
    try assumption; try lia.
  destruct (read_delta_defined (delta_stream anim) (off + bx + by_) bz)
    as (dz & Hrz & Hdz); try assumption; try lia.
  assert (Hrx' : read_delta words off bx = Ok (dx, off + bx)).
  { rewrite <- Hrx. apply read_delta_agree; try assumption; try lia.
    intros q Hq. apply Hbits. lia. }
  assert (Hry' : read_delta words (off + bx) by_ = Ok (dy, off + bx + by_)).
  { rewrite <- Hry. apply read_delta_agree; try assumption; try lia.
    intros q Hq. apply Hbits. lia. }
  assert (Hrz' : read_delta words (off + bx + by_) bz = Ok (dz, off + bx + by_ + bz)).
  { rewrite <- Hrz. apply read_delta_agree; try assumption; try lia.
    intros q Hq. apply Hbits. lia. }
  cbn [for_loop].
  rewrite (apply_vertex_deltas_Ok anim i prev off bx by_ bz p dx dy dz
             (off + bx) (off + bx + by_) (off + bx + by_ + bz)) by assumption.
  rewrite (apply_vertex_deltas_Ok (with_delta_stream anim words) i prev off
             bx by_ bz p dx dy dz
             (off + bx) (off + bx + by_) (off + bx + by_ + bz)) by assumption.
  cbn [mbind res_bind].
  replace (Z.of_nat i + 1) with (Z.of_nat (S i)) by lia.
  apply IH.
  - lia.
  - rewrite length_insert. assumption.
  - apply Forall_insert; [assumption|apply add_deltas_ok].
  - lia.
  - lia.
  - lia.
  - intros q Hq. apply Hbits. lia.
Qed.

Lemma frames_loop_agree (n : nat) (i : Z) (prev : list VertexU8) (off : Z) :
  length prev = Z.to_nat (num_vertices anim) -> Forall VertexU8_ok prev ->
  0 ≤ off ->
  off + Z.of_nat n * frame_bits anim ≤ 32 * Z.of_nat (length (delta_stream anim)) ->
  off + Z.of_nat n * frame_bits anim ≤ 32 * Z.of_nat (length words) ->
  (forall p, off ≤ p < off + Z.of_nat n * frame_bits anim ->
     stream_bit (delta_stream anim) p = stream_bit words p) ->
  for_loop n i (fun _ st => apply_frame_deltas (with_delta_stream anim words) st) (prev, off)
  = for_loop n i (fun _ st => apply_frame_deltas anim st) (prev, off).
Proof.
  revert i prev off. induction n as [|n IH];
    intros i prev off Hlen Hok Hoff Hroom Hroom' Hbits; [reflexivity|].
  pose proof (frame_bits_nonneg anim Hwf) as Hfb.
  destruct (apply_frame_deltas_defined anim Hwf prev off) as (prev1 & Hstep & Hlen1 & Hok1);
    try assumption; [nia|].
  assert (Hstep' : apply_frame_deltas (with_delta_stream anim words) (prev, off)
                   = Ok (prev1, off + frame_bits anim)).
  { rewrite <- Hstep. unfold apply_frame_deltas.
    change (num_vertices (with_delta_stream anim words)) with (num_vertices anim).
    assert (Hspan : sum_upto (0 + Z.to_nat (num_vertices anim)) (vertex_bits anim)
                    - sum_upto 0 (vertex_bits anim) = frame_bits anim).
    { unfold frame_bits. cbn [Nat.add sum_upto]. lia. }
    refine (vertex_loop_agree (Z.to_nat (num_vertices anim)) 0%nat prev off
              eq_refl Hlen Hok Hoff _ _ _); rewrite Hspan.
    - nia.
    - nia.
    - intros q Hq. apply Hbits. nia. }
  cbn [for_loop]. rewrite Hstep, Hstep'. cbn [mbind res_bind].
  apply IH; try assumption; try lia; try nia.
  intros q Hq. apply Hbits. nia.
Qed.

Lemma decompress_u8_agree (scratch : list VertexU8) (f : Z) :
  length scratch = Z.to_nat (num_vertices anim) ->
  0 ≤ f < num_frames anim ->
  (forall p, 0 ≤ p < f * frame_bits anim ->
     stream_bit (delta_stream anim) p = stream_bit words p) ->
  decompress_u8 (with_delta_stream anim words) scratch f = decompress_u8 anim scratch f.
Proof.
  intros Hlen Hf Hbits. unfold decompress_u8.
  rewrite !seed_frame0_base by assumption.
  rewrite base_frame_stream.
  destruct (wf_base _ Hwf) as (base & Hbase & Hok).
  pose proof (base_frame_length _ _ Hbase) as Hbl.
  rewrite Hbase. cbn [mbind res_bind].
  destruct (Z.eqb_spec f 0); [reflexivity|].
  destruct (Z.eqb_spec f UINT32_MAX); [reflexivity|].
  pose proof (frame_bits_nonneg anim Hwf) as Hfb.
  pose proof (wf_stream _ Hwf) as Hs. pose proof (wf_stream _ Hwf') as Hs'.
  change (frame_bits (with_delta_stream anim words)) with (frame_bits anim) in Hs'.
  cbn [num_frames delta_stream with_delta_stream] in Hs'.
  apply frames_loop_agree; try assumption; try lia.
  - rewrite Z2Nat.id by lia. nia.
  - rewrite Z2Nat.id by lia. nia.
  - intros q Hq. apply Hbits. rewrite Z2Nat.id in Hq by lia. lia.
Qed.
End Prefix.

(** X18.  Frame [f] depends on the first [f * frame_bits] bits of the delta
    stream and on nothing after them: two well-formed chunks that differ in
    their delta streams only, and whose streams agree on those bits, give
    the same vertex buffers for frame [f]. *)
Theorem frame_reads_only_its_bits (anim : RatAnimation) (words : list Z)
    (mesh : option RatMeshData) (scratch_u8 : list VertexU8) (scratch_v3 : list Vector3)
    (frame tex f : Z) :
  anim_wf anim -> anim_wf (with_delta_stream anim words) ->
  length scratch_u8 = Z.to_nat (num_vertices anim) ->
  length scratch_v3 = Z.to_nat (num_vertices anim) ->
  0 ≤ f < num_frames anim ->
  (forall p, 0 ≤ p < f * frame_bits anim ->
     stream_bit (delta_stream anim) p = stream_bit words p) ->
  res_map frame_output
    (decompress_frame
       (model_with (with_delta_stream anim words) mesh scratch_u8 scratch_v3 frame tex) f)
  = res_map frame_output
      (decompress_frame (model_with anim mesh scratch_u8 scratch_v3 frame tex) f).
Proof.
  intros Hwf Hwf' Hu Hc Hf Hbits.
  rewrite (decompress_frame_eq
             (model_with (with_delta_stream anim words) mesh scratch_u8 scratch_v3 frame tex)
             (with_delta_stream anim words) f eq_refl Hu Hc).
  rewrite (decompress_frame_eq (model_with anim mesh scratch_u8 scratch_v3 frame tex)
             anim f eq_refl Hu Hc).
  cbn [model_with decompressed_vertices_u8].
  rewrite (decompress_u8_agree anim words Hwf Hwf' scratch_u8 f Hu Hf Hbits).
  destruct (decompress_u8 anim scratch_u8 f) as [st| |]; reflexivity.
Qed.

Lemma frame_reads_only_its_bits_witness :
  res_map frame_output
    (decompress_frame
       (model_with (with_delta_stream sample_anim [0xABFFF111; 77]) None
          (junk_u8 <$> seq 0 2) (junk_v3 <$> seq 0 2) UINT32_MAX 0) 1)
  = res_map frame_output
      (decompress_frame
         (model_with sample_anim None (junk_u8 <$> seq 0 2) (junk_v3 <$> seq 0 2)
            UINT32_MAX 0) 1).
Proof.
  apply frame_reads_only_its_bits.
  - closed_wf.
  - closed_wf.
  - reflexivity.
  - reflexivity.
  - cbn. lia.
  - intros p Hp.
    assert (Hb : 0 ≤ p < 24) by (vm_compute in Hp; vm_compute; exact Hp).
    replace p with (Z.of_nat (Z.to_nat p)) by lia.
    assert (Hn : (Z.to_nat p < 24)%nat) by lia.
    revert Hn. generalize (Z.to_nat p) as n. intros n Hn.
    do 24 (destruct n as [|n]; [reflexivity|]). lia.
Defined.

(** ** Layout of the delta stream *)

Section Layout.
Variable anim : RatAnimation.
Hypothesis Hwf : anim_wf anim.

Lemma vertex_loop_pointwise (n i : nat) (prev : list VertexU8) (off : Z) :
  (i + n)%nat = Z.to_nat (num_vertices anim) ->
  length prev = Z.to_nat (num_vertices anim) -> Forall VertexU8_ok prev ->
  0 ≤ off ->
  off + (sum_upto (i + n) (vertex_bits anim) - sum_upto i (vertex_bits anim))
    ≤ 32 * Z.of_nat (length (delta_stream anim)) ->
  exists prev',
    for_loop n (Z.of_nat i) (apply_vertex_deltas anim) (prev, off)
    = Ok (prev', off + (sum_upto (i + n) (vertex_bits anim)
                        - sum_upto i (vertex_bits anim)))
    ∧ (forall j, (j < i)%nat -> prev' !! j = prev !! j)
    ∧ (forall j, (i ≤ j < i + n)%nat ->
         exists p wx wy wz dx dy dz,
           prev !! j = Some p
           ∧ bit_widths_x anim !! j = Some wx
           ∧ bit_widths_y anim !! j = Some wy
           ∧ bit_widths_z anim !! j = Some wz
           ∧ read_vertex_deltas (delta_stream anim)
               (off + (sum_upto j (vertex_bits anim) - sum_upto i (vertex_bits anim)))
               wx wy wz = Ok (dx, dy, dz)
           ∧ prev' !! j = Some (add_deltas p dx dy dz)).
Proof.
  revert i prev off. induction n as [|n IH]; intros i prev off Hin Hlen Hok Hoff Hroom.
  - exists prev. rewrite Nat.add_0_r, Z.sub_diag, Z.add_0_r.
    split; [reflexivity|]. split; [reflexivity|]. intros j Hj. lia.
  - destruct (lookup_lt_is_Some_2 (bit_widths_x anim) i) as [bx Hbx];
      [rewrite (wf_widths_x _ Hwf); lia|].
    destruct (lookup_lt_is_Some_2 (bit_widths_y anim) i) as [by_ Hby];
      [rewrite (wf_widths_y _ Hwf); lia|].
    destruct (lookup_lt_is_Some_2 (bit_widths_z anim) i) as [bz Hbz];
      [rewrite (wf_widths_z _ Hwf); lia|].
    destruct (lookup_lt_is_Some_2 prev i) as [p Hp]; [lia|].
    pose proof (proj1 (Forall_lookup _ _) (wf_width_x_range _ Hwf) _ _ Hbx) as Rx.
    pose proof (proj1 (Forall_lookup _ _) (wf_width_y_range _ Hwf) _ _ Hby) as Ry.
    pose proof (proj1 (Forall_lookup _ _) (wf_width_z_range _ Hwf) _ _ Hbz) as Rz.
    pose proof (proj1 (Forall_lookup _ _) Hok _ _ Hp) as Rp.
    cbn beta in Rx, Ry, Rz.
    assert (Hvb : vertex_bits anim i = bx + by_ + bz).
    { unfold vertex_bits. rewrite Hbx, Hby, Hbz. reflexivity. }
    assert (Hsplit : sum_upto (i + S n) (vertex_bits anim) - sum_upto i (vertex_bits anim)
                     = (bx + by_ + bz)
                       + (sum_upto (S i + n) (vertex_bits anim)
                          - sum_upto (S i) (vertex_bits anim))).
    { replace (i + S n)%nat with (S i + n)%nat by lia.
      cbn [sum_upto]. rewrite Hvb. lia. }
    pose proof (sum_upto_mono (vertex_bits anim) (S i) (S i + n)
                  (vertex_bits_nonneg anim Hwf) ltac:(lia)) as Hrest.
    rewrite Hsplit in Hroom |- *.
    pose proof (wf_words _ Hwf) as Hwords. pose proof (wf_word_count _ Hwf) as Hcount.
    destruct (read_delta_defined (delta_stream anim) off bx) as (dx & Hrx & Hdx);
      try assumption; try lia.
    destruct (read_delta_defined (delta_stream anim) (off + bx) by_) as (dy & Hry & Hdy);
      try assumption; try lia.
    destruct (read_delta_defined (delta_stream anim) (off + bx + by_) bz)
      as (dz & Hrz & Hdz); try assumption; try lia.
    cbn [for_loop].
    rewrite (apply_vertex_deltas_Ok anim i prev off bx by_ bz p dx dy dz
               (off + bx) (off + bx + by_) (off + bx + by_ + bz)) by assumption.
    cbn [mbind res_bind].
    replace (Z.of_nat i + 1) with (Z.of_nat (S i)) by lia.
    destruct (IH (S i) (<[i := add_deltas p dx dy dz]> prev) (off + bx + by_ + bz))
      as (prev' & Hloop & Hbefore & Hat).
    + lia.
    + rewrite length_insert. assumption.
    + apply Forall_insert; [assumption|apply add_deltas_ok].
    + lia.
    + lia.
    + exists prev'. split; [rewrite Hloop; do 2 f_equal; lia|]. split.
      * intros j Hj. rewrite Hbefore by lia. apply list_lookup_insert_ne. lia.
      * intros j Hj. destruct (decide (j = i)) as [->|Hne].
        -- exists p, bx, by_, bz, dx, dy, dz. repeat (split; [assumption|]). split.
           ++ rewrite Z.sub_diag, Z.add_0_r. unfold read_vertex_deltas.
              rewrite Hrx. cbn [mbind res_bind]. rewrite Hry. cbn [mbind res_bind].
              rewrite Hrz. reflexivity.
           ++ rewrite Hbefore by lia. apply list_lookup_insert_eq. lia.
        -- destruct (Hat j ltac:(lia))
             as (q & wx & wy & wz & ex & ey & ez & Hq & Hwx & Hwy & Hwz & Hread & Hres).
           rewrite list_lookup_insert_ne in Hq by lia.
           exists q, wx, wy, wz, ex, ey, ez. repeat (split; [assumption|]).
           split; [|assumption].
           rewrite <- Hread. f_equal. cbn [sum_upto]. rewrite Hvb. lia.
Qed.

Lemma decompress_u8_succ (scratch : list VertexU8) (f : Z) :
  length scratch = Z.to_nat (num_vertices anim) ->
  0 ≤ f -> f + 1 < num_frames anim ->
  exists vs vs',
    decompress_u8 anim scratch f = Ok (vs, f * frame_bits anim)
    ∧ length vs = Z.to_nat (num_vertices anim) ∧ Forall VertexU8_ok vs
    ∧ apply_frame_deltas anim (vs, f * frame_bits anim)
      = Ok (vs', (f + 1) * frame_bits anim)
    ∧ decompress_u8 anim scratch (f + 1) = Ok (vs', (f + 1) * frame_bits anim).
Proof.
  intros Hlen Hf0 Hf1.
  pose proof (frame_bits_nonneg anim Hwf) as Hfb.
  pose proof (wf_stream _ Hwf) as Hs. pose proof (wf_num_frames _ Hwf) as Hnf.
  destruct (decompress_u8_defined anim scratch f Hwf Hlen) as (vs & Hd & Hl & Hok);
    [right; lia|].
  destruct (apply_frame_deltas_defined anim Hwf vs (f * frame_bits anim))
    as (vs' & Hstep & _); try assumption; [nia|nia|].
  exists vs, vs'. repeat (split; [assumption|]).
  replace ((f + 1) * frame_bits anim) with (f * frame_bits anim + frame_bits anim) by lia.
  split; [assumption|].
  unfold decompress_u8 in Hd |- *. rewrite seed_frame0_base in Hd |- * by assumption.
  destruct (wf_base _ Hwf) as (base & Hbase & _).
  rewrite Hbase in Hd |- *. cbn [mbind res_bind] in Hd |- *.
  destruct (Z.eqb_spec (f + 1) 0); [lia|].
  destruct (Z.eqb_spec (f + 1) UINT32_MAX); [lia|].
  replace (Z.to_nat (f + 1)) with (S (Z.to_nat f)) by lia.
  rewrite for_loop_const_snoc.
  destruct (Z.eqb_spec f 0) as [->|].
  - injection Hd as <-. cbn [Z.to_nat for_loop mbind res_bind].
    rewrite Z.mul_0_l in Hstep. exact Hstep.
  - destruct (Z.eqb_spec f UINT32_MAX); [lia|].
    rewrite Hd. cbn [mbind res_bind]. exact Hstep.
Qed.
End Layout.

(** X19.  Where a delta sits in the stream.  On a well-formed chunk the
    deltas that take vertex [i] from frame [f] to frame [f + 1] are the three
    sign-extended fields, of the widths of vertex [i], that start at bit
    [f * frame_bits + (widths of the vertices before i)]; frame [f + 1] has
    for vertex [i] the components of frame [f] with these deltas added
    modulo 256. *)
Theorem delta_stream_layout (anim : RatAnimation) (scratch : list VertexU8)
    (f : Z) (i : nat) :
  anim_wf anim ->
  length scratch = Z.to_nat (num_vertices anim) ->
  0 ≤ f -> f + 1 < num_frames anim ->
  (i < Z.to_nat (num_vertices anim))%nat ->
  exists vs vs' c c' p wx wy wz dx dy dz,
    decompress_u8 anim scratch f = Ok (vs, c)
    ∧ decompress_u8 anim scratch (f + 1) = Ok (vs', c')
    ∧ vs !! i = Some p
    ∧ bit_widths_x anim !! i = Some wx
    ∧ bit_widths_y anim !! i = Some wy
    ∧ bit_widths_z anim !! i = Some wz
    ∧ read_vertex_deltas (delta_stream anim) (delta_position anim f i) wx wy wz
      = Ok (dx, dy, dz)
    ∧ vs' !! i = Some (add_deltas p dx dy dz).
Proof.
  intros Hwf Hlen Hf0 Hf1 Hi.
  pose proof (frame_bits_nonneg anim Hwf) as Hfb.
  pose proof (wf_stream _ Hwf) as Hs.
  destruct (decompress_u8_succ anim Hwf scratch f Hlen Hf0 Hf1)
    as (vs & vs' & Hd & Hl & Hok & Hstep & Hd').
  assert (Hspan : sum_upto (0 + Z.to_nat (num_vertices anim)) (vertex_bits anim)
                  - sum_upto 0 (vertex_bits anim) = frame_bits anim).
  { unfold frame_bits. cbn [Nat.add sum_upto]. lia. }
  destruct (vertex_loop_pointwise anim Hwf (Z.to_nat (num_vertices anim)) 0 vs
              (f * frame_bits anim) eq_refl Hl Hok)
    as (vs'' & Hloop & _ & Hat); [nia|rewrite Hspan; nia|].
  assert (Heq : vs'' = vs').
  { unfold apply_frame_deltas in Hstep. change (Z.of_nat 0) with 0 in Hloop.
    rewrite Hstep in Hloop. injection Hloop as <-. reflexivity. }
  subst vs''.
  destruct (Hat i ltac:(lia))
    as (p & wx & wy & wz & dx & dy & dz & Hp & Hwx & Hwy & Hwz & Hread & Hres).
  exists vs, vs', (f * frame_bits anim), ((f + 1) * frame_bits anim),
    p, wx, wy, wz, dx, dy, dz.
  repeat (split; [assumption|]). split; [|assumption].
  rewrite <- Hread. unfold delta_position. f_equal. cbn [sum_upto]. lia.
Qed.

Lemma delta_stream_layout_witness :
  exists vs vs' c c' p wx wy wz dx dy dz,
    decompress_u8 straddle_anim (junk_u8 <$> seq 0 1) 2 = Ok (vs, c)
    ∧ decompress_u8 straddle_anim (junk_u8 <$> seq 0 1) (2 + 1) = Ok (vs', c')
    ∧ vs !! 0%nat = Some p
    ∧ bit_widths_x straddle_anim !! 0%nat = Some wx
    ∧ bit_widths_y straddle_anim !! 0%nat = Some wy
    ∧ bit_widths_z straddle_anim !! 0%nat = Some wz
    ∧ read_vertex_deltas (delta_stream straddle_anim)
        (delta_position straddle_anim 2 0) wx wy wz = Ok (dx, dy, dz)
    ∧ vs' !! 0%nat = Some (add_deltas p dx dy dz).
Proof.
  apply (delta_stream_layout straddle_anim (junk_u8 <$> seq 0 1) 2 0).
  - closed_wf.
  - reflexivity.
  - lia.
  - cbn. lia.
  - cbn. lia.
Defined.

(** ** The lower bound of an axis *)

(** X20.  A raw coordinate that sits at the lower bound of an axis whose
    range is a non-zero finite number quantizes to 0, and 0 de-quantizes to
    a coordinate that compares equal to the lower bound, and is the bound
    itself unless the bound is a zero: the lower bound survives the
    quantization of the first frame. *)
Theorem lower_bound_round_trip (mn mx : float) :
  f32_finite_or_zero mn = true ->
  f32_finite_or_zero (f32_sub mx mn) = true ->
  f32_is_zero (f32_sub mx mn) = false ->
  quantize mn mn mx = Ok 0
  ∧ SFeqb (dequantize 0 mn (f32_sub mx mn)) mn = true
  ∧ (f32_is_zero mn = false -> dequantize 0 mn (f32_sub mx mn) = mn).
Proof.
  intros Hmn Hfin Hnz. unfold quantize, dequantize.
  rewrite (f32_sub_self mn Hmn).
  change (f32_mul f255 (S754_zero false)) with (S754_zero false).
  change (f32_div (f32_of_Z 0) f255) with (S754_zero false).
  destruct (f32_sub mx mn) as [s|s| |s mr er]; try discriminate.
  split; [reflexivity|].
  destruct mn as [sm|sm| |sm mm em]; try discriminate.
  - split; [destruct sm, s; reflexivity|discriminate].
  - split; [|reflexivity].
    change (f32_add (S754_finite sm mm em)
              (f32_mul (S754_zero false) (S754_finite s mr er)))
      with (S754_finite sm mm em).
    apply SFeqb_refl. reflexivity.
Qed.

Lemma lower_bound_round_trip_witness :
  quantize (f32_of_Z 3) (f32_of_Z 3) f255 = Ok 0
  ∧ dequantize 0 (f32_of_Z 3) (f32_sub f255 (f32_of_Z 3)) = f32_of_Z 3.
Proof.
  destruct (lower_bound_round_trip (f32_of_Z 3) f255) as (Hq & _ & Hd).
  - vm_compute. reflexivity.
  - vm_compute. reflexivity.
  - vm_compute. reflexivity.
  - split; [exact Hq|]. apply Hd. vm_compute. reflexivity.
Defined.
